(** * Spring-bone secondary animation of the VRM loader

    A shallow embedding of the spring-bone code of the loader:

    - [VRMSpringBoneLogic]   src/secondary-animation/vrm-spring-bone-logic.ts,
      the per-segment verlet step working in world space;
    - [VRMSpringBoneLogicCS] the second copy of the same class kept in the
      repository, which keeps its tails in centre space;
    - [SpringBoneController] src/secondary-animation/spring-bone-controller.ts.

    JavaScript numbers are IEEE-754 binary64 values.  The code is embedded
    once, over a carrier [F] of numbers ([JSNumber]); the carrier is
    instantiated with Rocq's primitive binary64 floats, which is what the
    program runs on, and with the real numbers, which is the arithmetic the
    geometric statements of the specification are about. *)

From Stdlib Require Import Floats Reals ZArith List Bool Arith String Lia Lra Psatz.
Import ListNotations.

Set Implicit Arguments.

(** ** Numbers *)

(** The operations of a JavaScript [number] that the spring-bone code uses. *)
Class JSNumber (F : Type) : Type := {
  num_lit : Z -> F;                 (* an integer literal *)
  num_0_02 : F;                     (* the literal 0.02 *)
  num_add : F -> F -> F;
  num_sub : F -> F -> F;
  num_mul : F -> F -> F;
  num_div : F -> F -> F;
  num_neg : F -> F;                 (* unary minus *)
  num_sqrt : F -> F;                (* Math.sqrt *)
  num_isNaN : F -> bool;            (* Number.isNaN *)
  num_eq : F -> F -> bool;          (* === *)
  num_le : F -> F -> bool;          (* <= *)
  num_max : F -> F -> F;            (* Math.max *)
  num_min : F -> F -> F             (* Math.min *)
}.

Declare Scope num_scope.
Delimit Scope num_scope with num.
Infix "+" := num_add : num_scope.
Infix "-" := num_sub : num_scope.
Infix "*" := num_mul : num_scope.
Infix "/" := num_div : num_scope.
Notation "- a" := (num_neg a) : num_scope.
Infix "===" := num_eq (at level 70, no associativity) : num_scope.
Infix "<=?" := num_le : num_scope.

(** Truthiness of a number in a condition: [0], [-0] and [NaN] are falsy. *)
Definition truthy {F} `{JSNumber F} (a : F) : bool :=
  negb (num_eq a (num_lit 0) || num_isNaN a).

(** *** binary64 *)

Definition float_lit (n : Z) : float :=
  if (n <? 0)%Z then PrimFloat.opp (PrimFloat.of_uint63 (Uint63.of_Z (- n)))
  else PrimFloat.of_uint63 (Uint63.of_Z n).

Definition is_neg_zero (a : float) : bool :=
  match PrimFloat.classify a with NZero => true | _ => false end.

(** [Math.max]: NaN if an argument is NaN, and [+0] is larger than [-0]. *)
Definition float_max (a b : float) : float :=
  if PrimFloat.is_nan a || PrimFloat.is_nan b then nan
  else if PrimFloat.ltb a b then b
  else if PrimFloat.ltb b a then a
  else if is_neg_zero a then b else a.

(** [Math.min]: NaN if an argument is NaN, and [-0] is smaller than [+0]. *)
Definition float_min (a b : float) : float :=
  if PrimFloat.is_nan a || PrimFloat.is_nan b then nan
  else if PrimFloat.ltb a b then a
  else if PrimFloat.ltb b a then b
  else if is_neg_zero a then a else b.

#[export] Instance float_number : JSNumber float := {
  num_lit := float_lit;
  num_0_02 := 0x1.47ae147ae147bp-6%float;   (* the binary64 value of 0.02 *)
  num_add := PrimFloat.add;
  num_sub := PrimFloat.sub;
  num_mul := PrimFloat.mul;
  num_div := PrimFloat.div;
  num_neg := PrimFloat.opp;
  num_sqrt := PrimFloat.sqrt;
  num_isNaN := PrimFloat.is_nan;
  num_eq := PrimFloat.eqb;
  num_le := PrimFloat.leb;
  num_max := float_max;
  num_min := float_min
}.

(** *** Exact arithmetic *)

Definition Req_bool (a b : R) : bool := if Req_dec_T a b then true else false.
Definition Rle_bool (a b : R) : bool := if Rle_dec a b then true else false.

#[export] Instance real_number : JSNumber R := {
  num_lit := IZR;
  num_0_02 := (2 / 100)%R;
  num_add := Rplus;
  num_sub := Rminus;
  num_mul := Rmult;
  num_div := Rdiv;
  num_neg := Ropp;
  num_sqrt := sqrt;
  num_isNaN := fun _ => false;
  num_eq := Req_bool;
  num_le := Rle_bool;
  num_max := Rmax;
  num_min := Rmin
}.

(** ** Vectors, quaternions and the object store *)

Section Math.
Context {F : Type} {N : JSNumber F}.
Local Open Scope num_scope.

(** Babylon's [Vector3] and [Quaternion], as values. *)
Record Vector3 : Type := mkVector3 { vx : F; vy : F; vz : F }.
Record Quaternion : Type := mkQuaternion { qx : F; qy : F; qz : F; qw : F }.

Definition Vector3_Zero : Vector3 := mkVector3 (num_lit 0) (num_lit 0) (num_lit 0).
Definition Quaternion_Identity : Quaternion :=
  mkQuaternion (num_lit 0) (num_lit 0) (num_lit 0) (num_lit 1).

Definition vadd (a b : Vector3) : Vector3 :=
  mkVector3 (vx a + vx b) (vy a + vy b) (vz a + vz b).
Definition vsub (a b : Vector3) : Vector3 :=
  mkVector3 (vx a - vx b) (vy a - vy b) (vz a - vz b).
Definition vscale (a : Vector3) (s : F) : Vector3 :=
  mkVector3 (vx a * s) (vy a * s) (vz a * s).
(** [lengthSquared()] and [length()]. *)
Definition vlengthSquared (a : Vector3) : F :=
  vx a * vx a + vy a * vy a + vz a * vz a.
Definition vlength (a : Vector3) : F := num_sqrt (vlengthSquared a).
(** [normalizeFromLength(len)]: a vector of length 0 or 1 is left as it is,
    any other is scaled by [1.0 / len]. *)
Definition vnormalizeFromLength (a : Vector3) (len : F) : Vector3 :=
  if (len === num_lit 0) || (len === num_lit 1) then a
  else vscale a (num_lit 1 / len).
Definition vnormalize (a : Vector3) : Vector3 :=
  vnormalizeFromLength a (vlength a).

(** Vector3 objects live in a store: [let nextTail = currentTail] makes two
    names for one object, and the [...InPlace] methods and [normalize()]
    write to the object they are called on.  A reference is an address. *)
Definition ref := nat.
Record Heap : Type := mkHeap { next : ref; cell : ref -> Vector3 }.

Definition emptyHeap : Heap := mkHeap 0 (fun _ => Vector3_Zero).

Definition M (A : Type) : Type := Heap -> A * Heap.
Definition ret {A} (a : A) : M A := fun h => (a, h).
Definition bind {A B} (m : M A) (k : A -> M B) : M B :=
  fun h => let (a, h') := m h in k a h'.
Definition run {A} (m : M A) : A := fst (m emptyHeap).

Definition alloc (v : Vector3) : M ref :=
  fun h => (next h,
            mkHeap (S (next h)) (fun r => if Nat.eqb r (next h) then v else cell h r)).
Definition load (r : ref) : M Vector3 := fun h => (cell h r, h).
Definition store (r : ref) (v : Vector3) : M unit :=
  fun h => (tt, mkHeap (next h) (fun r' => if Nat.eqb r' r then v else cell h r')).

(** What a method reads: an object of the store, or a vector that the call
    only reads (a field of another object, a parameter). *)
Inductive operand : Type :=
| Val (v : Vector3)
| Obj (r : ref).

Definition read (o : operand) : M Vector3 :=
  match o with
  | Val v => ret v
  | Obj r => load r
  end.

End Math.

Arguments Vector3 F : clear implicits.
Arguments Quaternion F : clear implicits.
Arguments Heap F : clear implicits.
Arguments M F A : clear implicits.
Arguments operand F : clear implicits.

Coercion Val : Vector3 >-> operand.

Notation "x <- c1 ;; c2" := (bind c1 (fun x => c2))
  (at level 61, c1 at next level, right associativity).
Notation "c1 ;;; c2" := (bind c1 (fun _ => c2))
  (at level 61, right associativity).

(** ** Babylon's Vector3 methods on stored objects *)

Section Vector3Methods.
Context {F : Type} {N : JSNumber F}.
Local Open Scope num_scope.

(** [new Vector3(x, y, z)] *)
Definition Vector3_new (x y z : F) : M F ref := alloc (mkVector3 x y z).
(** [a.clone()] *)
Definition Vector3_clone (a : operand F) : M F ref := va <- read a ;; alloc va.
(** [a.add(b)] and [a.subtract(b)] make a new object. *)
Definition Vector3_add (a b : operand F) : M F ref :=
  va <- read a ;; vb <- read b ;; alloc (vadd va vb).
Definition Vector3_subtract (a b : operand F) : M F ref :=
  va <- read a ;; vb <- read b ;; alloc (vsub va vb).
(** [a.scale(s)] makes a new object. *)
Definition Vector3_scale (a : operand F) (s : F) : M F ref :=
  va <- read a ;; alloc (vscale va s).
(** [a.addInPlace(b)], [a.subtractInPlace(b)], [a.scaleInPlace(s)] and
    [a.normalize()] write to [a] and return it. *)
Definition Vector3_addInPlace (a : ref) (b : operand F) : M F ref :=
  va <- load a ;; vb <- read b ;; store a (vadd va vb) ;;; ret a.
Definition Vector3_subtractInPlace (a : ref) (b : operand F) : M F ref :=
  va <- load a ;; vb <- read b ;; store a (vsub va vb) ;;; ret a.
Definition Vector3_scaleInPlace (a : ref) (s : F) : M F ref :=
  va <- load a ;; store a (vscale va s) ;;; ret a.
Definition Vector3_normalize (a : ref) : M F ref :=
  va <- load a ;; store a (vnormalize va) ;;; ret a.
(** [a.length()] and [a.lengthSquared()] *)
Definition Vector3_length (a : operand F) : M F F := va <- read a ;; ret (vlength va).
Definition Vector3_lengthSquared (a : operand F) : M F F :=
  va <- read a ;; ret (vlengthSquared va).
(** The static [Vector3.Normalize(v)]: a normalized copy. *)
Definition Vector3_Normalize (a : operand F) : M F ref :=
  r <- Vector3_clone a ;; Vector3_normalize r.

(** Modelled from the spec: [Vector3Helper.multiplyByFloat] of
    vector3-helper.ts, which is not among the sources.  The specification
    uses it as the product of a vector and a scalar ("scale by
    stiffnessForce", "normalize(...) * boneLength"); every call site passes a
    vector made in the same statement, so whether the product is a new object
    cannot be observed, and it is taken to be one. *)
Definition multiplyByFloat (a : operand F) (s : F) : M F ref :=
  va <- read a ;; alloc (vscale va s).

End Vector3Methods.

(** ** Reading the store *)

Section StoreValues.
Context {F : Type} {N : JSNumber F}.

(** The value an operand has in a store, and the stores that [alloc] and
    [store] leave. *)
Definition valueOf (o : operand F) (h : Heap F) : Vector3 F :=
  match o with
  | Val v => v
  | Obj r => cell h r
  end.

Definition push (h : Heap F) (v : Vector3 F) : Heap F := snd (alloc v h).
Definition put (h : Heap F) (r : ref) (v : Vector3 F) : Heap F := snd (store r v h).

End StoreValues.

(** ** The scene graph *)

Section Scene.
Context {F : Type} {N : JSNumber F}.

(** A node of the scene graph is an object with an identity.  The spring
    bones read and write these fields of a [TransformNode]; [absolutePosition]
    is the world position the engine reports during the call (what both
    [getAbsolutePosition()] and [absolutePosition] return). *)
Definition nodeId := nat.

Record TransformNode : Type := mkTransformNode {
  rotation : Vector3 F;                         (* Euler angles *)
  rotationQuaternion : option (Quaternion F);   (* Nullable<Quaternion> *)
  position : Vector3 F;                         (* local position *)
  parent : option nodeId;                       (* Nullable<Node> *)
  absolutePosition : Vector3 F
}.

(** The scene: the node object behind each identity. *)
Definition Scene : Type := nodeId -> TransformNode.

Definition setNode (w : Scene) (n : nodeId) (o : TransformNode) : Scene :=
  fun m => if Nat.eqb m n then o else w m.

Definition set_rotationQuaternion (o : TransformNode) (q : option (Quaternion F))
  : TransformNode :=
  mkTransformNode (rotation o) q (position o) (parent o) (absolutePosition o).

Definition set_rotation (o : TransformNode) (e : Vector3 F) : TransformNode :=
  mkTransformNode e (rotationQuaternion o) (position o) (parent o) (absolutePosition o).

Definition getAbsolutePosition (w : Scene) (n : nodeId) : Vector3 F :=
  absolutePosition (w n).

(** Modelled from the spec: [SphereCollider] of sphere-collider.ts, which is
    not among the sources.  A collider is a sphere with a radius and, each
    frame, a world position; the spring bone reads [position] and [radius]. *)
Record SphereCollider : Type := mkSphereCollider {
  collider_position : Vector3 F;
  collider_radius : F
}.

(** The functions of Babylon and of quaternion-helper.ts that the spring bone
    calls and whose code is not among the sources: conversions between Euler
    angles and quaternions, quaternion algebra, and what the engine derives
    from the world matrices of the scene. *)
Class Engine : Type := {
  (* Vector3.toQuaternion(): Euler angles to a quaternion *)
  toQuaternion : Vector3 F -> Quaternion F;
  (* Quaternion.toEulerAnglesToRef *)
  toEulerAngles : Quaternion F -> Vector3 F;
  (* a.multiply(b) *)
  Quaternion_multiply : Quaternion F -> Quaternion F -> Quaternion F;
  (* Quaternion.Inverse(q) *)
  Quaternion_Inverse : Quaternion F -> Quaternion F;
  (* v.rotateByQuaternionToRef(q, result): the value written to result *)
  rotateByQuaternion : Vector3 F -> Quaternion F -> Vector3 F;
  (* QuaternionHelper.multiplyWithVector3(q, v) *)
  multiplyWithVector3 : Quaternion F -> Vector3 F -> Vector3 F;
  (* QuaternionHelper.fromToRotation(from, to) *)
  fromToRotation : Vector3 F -> Vector3 F -> Quaternion F;
  (* node.getWorldMatrix().decompose(_, q, _): the rotation q *)
  worldMatrixRotation : Scene -> nodeId -> Quaternion F;
  (* Quaternion.FromRotationMatrix(node.getWorldMatrix().getRotationMatrix()) *)
  worldRotationMatrixQuaternion : Scene -> nodeId -> Quaternion F;
  (* the rotation that decompose returns for
     Compose(scaling of node, q, position of node) * inverse(world matrix of
     the parent of node) *)
  rotationInParentFrame : Scene -> nodeId -> Quaternion F -> Quaternion F
}.

End Scene.

Arguments TransformNode F : clear implicits.
Arguments Scene F : clear implicits.
Arguments SphereCollider F : clear implicits.
Arguments Engine F : clear implicits.

(** ** vrm-spring-bone-logic.ts *)

Module VRMSpringBoneLogic.
Section Logic.
Context {F : Type} {N : JSNumber F} {E : Engine F}.
Local Open Scope num_scope.

(** The fields of a [VRMSpringBoneLogic].  A vector field holds the value of
    the object it refers to: no method writes in place to an object that a
    field refers to (every in-place write of the class goes to an object made
    in the same call), so a field changes only by assignment. *)
Record t : Type := mk {
  radius : F;
  transform : nodeId;
  localRotation : Quaternion F;
  boneAxis : Vector3 F;
  boneLength : F;
  centerAbsolutePos : Vector3 F;
  currentTail : Vector3 F;
  prevTail : Vector3 F
}.

(** Assignment to the fields that [update] writes. *)
Definition set_frame_and_tails (this : t)
  (centerAbsolutePos currentTail prevTail : Vector3 F) : t :=
  mk (radius this) (transform this) (localRotation this) (boneAxis this)
     (boneLength this) centerAbsolutePos currentTail prevTail.

(** [getCenterTranslatedWorldPos(pos)] and [getCenterTranslatedPos(pos)], given
    the value of [this.centerAbsolutePos].  Both test the field first; it
    always refers to an object, so the test always succeeds. *)
Definition getCenterTranslatedWorldPos (centerAbsolutePos : Vector3 F)
  (pos : operand F) : M F ref :=
  Vector3_add centerAbsolutePos pos.

Definition getCenterTranslatedPos (centerAbsolutePos : Vector3 F)
  (pos : operand F) : M F ref :=
  Vector3_subtract pos centerAbsolutePos.

(** [center ? center.getAbsolutePosition() : new Vector3(0, 0, 0)] *)
Definition centerPosition (w : Scene F) (center : option nodeId) : M F (Vector3 F) :=
  match center with
  | Some c => ret (getAbsolutePosition w c)
  | None => z <- Vector3_new (num_lit 0) (num_lit 0) (num_lit 0) ;; load z
  end.

(** [getAbsoluteRotationQuaternion(node)]: the identity when [node] is null. *)
Definition getAbsoluteRotationQuaternion (w : Scene F) (node : option nodeId)
  : Quaternion F :=
  match node with
  | Some n => worldMatrixRotation w n
  | None => Quaternion_Identity
  end.

(** [setAbsoluteRotationQuaternion(node, quatRotation)] *)
Definition setAbsoluteRotationQuaternion (w : Scene F) (node : nodeId)
  (quatRotation : Quaternion F) : Scene F :=
  match parent (w node) with
  | Some _ =>
      let quatRotationNew := rotationInParentFrame w node quatRotation in
      match rotationQuaternion (w node) with
      | Some _ => setNode w node (set_rotationQuaternion (w node) (Some quatRotationNew))
      | None => setNode w node (set_rotation (w node) (toEulerAngles quatRotationNew))
      end
  | None => setNode w node (set_rotationQuaternion (w node) (Some quatRotation))
  end.

(** The quaternion a node has after the first lines of the constructor: the
    one it had, or the one made from its Euler angles. *)
Definition initializedQuaternion (o : TransformNode F) : Quaternion F :=
  match rotationQuaternion o with
  | Some q => q
  | None => toQuaternion (rotation o)
  end.

(** The first lines of the constructor: the node and its parent get a
    [rotationQuaternion] when they have none. *)
Definition initRotationQuaternions (transform : nodeId) (w : Scene F) : Scene F :=
  (* Initialize rotationQuaternion when not initialized *)
  let w :=
    match rotationQuaternion (w transform) with
    | None => setNode w transform
                (set_rotationQuaternion (w transform)
                   (Some (toQuaternion (rotation (w transform)))))
    | Some _ => w
    end in
  match parent (w transform) with
  | Some p =>
      match rotationQuaternion (w p) with
      | None => setNode w p
                  (set_rotationQuaternion (w p) (Some (toQuaternion (rotation (w p)))))
      | Some _ => w
      end
  | None => w
  end.

(** The constructor.  [None] stands for the TypeError that
    [transform.rotationQuaternion.clone()] raises on a null quaternion. *)
Definition constructor (center : option nodeId) (radius : F) (transform : nodeId)
  (localChildPosition : Vector3 F) (w : Scene F) : option (t * Scene F) :=
  let w := initRotationQuaternions transform w in
  match rotationQuaternion (w transform) with
  | None => None
  | Some q =>
      Some (run (
        worldChildPosition <-
          Vector3_add (getAbsolutePosition w transform) localChildPosition ;;
        centerAbsolutePos <- centerPosition w center ;;
        currentTail <- getCenterTranslatedPos centerAbsolutePos (Obj worldChildPosition) ;;
        (* this.prevTail = this.currentTail: one object *)
        let prevTail := currentTail in
        let localRotation := q in
        boneAxis <- Vector3_Normalize localChildPosition ;;
        boneLength <- Vector3_length localChildPosition ;;
        currentTail <- load currentTail ;;
        prevTail <- load prevTail ;;
        boneAxis <- load boneAxis ;;
        ret (mk radius transform localRotation boneAxis boneLength
                centerAbsolutePos currentTail prevTail)), w)
  end.

(** [collide(colliders, nextTail)]: the [forEach] callback assigns to the
    captured variable [nextTail], which the loop below carries along. *)
Fixpoint collide (this : t) (w : Scene F) (colliders : list (SphereCollider F))
  (nextTail : ref) : M F ref :=
  match colliders with
  | [] => ret nextTail
  | collider :: rest =>
      let r := radius this + collider_radius collider in
      axis <- Vector3_subtract (Obj nextTail) (collider_position collider) ;;
      axisLengthSquared <- Vector3_lengthSquared (Obj axis) ;;
      nextTail <-
        (if axisLengthSquared <=? (r * r) - num_0_02 then
           (* hit: push out along the radius of the collider *)
           n <- Vector3_normalize axis ;;
           m <- multiplyByFloat (Obj n) r ;;
           posFromCollider <- Vector3_add (collider_position collider) (Obj m) ;;
           (* force the length to boneLength *)
           let absPos := absolutePosition (w (transform this)) in
           d <- Vector3_subtractInPlace posFromCollider absPos ;;
           d <- Vector3_normalize d ;;
           s <- multiplyByFloat (Obj d) (boneLength this) ;;
           Vector3_add absPos (Obj s)
         else ret nextTail) ;;
      collide this w rest nextTail
  end.

(** [collide] called on an object of value [tail]: the value of the object
    it returns. *)
Definition collideFrom (this : t) (w : Scene F) (colliders : list (SphereCollider F))
  (tail : Vector3 F) : Vector3 F :=
  run (nextTail <- alloc tail ;;
       result <- collide this w colliders nextTail ;;
       load result).

(** [transformToRotation(nextTail)] *)
Definition transformToRotation (this : t) (w : Scene F) (nextTail : ref)
  : M F (Quaternion F) :=
  let rotation :=
    Quaternion_multiply
      (getAbsoluteRotationQuaternion w (parent (w (transform this))))
      (localRotation this) in
  let fromAxis := multiplyWithVector3 rotation (boneAxis this) in
  toAxis <- Vector3_subtract (Obj nextTail) (absolutePosition (w (transform this))) ;;
  toAxis <- Vector3_normalize toAxis ;;
  toAxis <- load toAxis ;;
  let result := fromToRotation fromAxis toAxis in
  (* result.multiplyInPlace(rotation) *)
  ret (Quaternion_multiply result rotation).

(** [update(center, stiffnessForce, dragForce, external, colliders)] *)
Definition update_body (this : t) (center : option nodeId)
  (stiffnessForce dragForce : F) (external : Vector3 F)
  (colliders : list (SphereCollider F)) (w : Scene F) : M F (t * Scene F) :=
  let absPos := getAbsolutePosition w (transform this) in
  if num_isNaN (vx absPos) then
    (* Do not update when absolute position is invalid *)
    ret (this, w)
  else
    centerAbsolutePos <- centerPosition w center ;;
    currentTail <- getCenterTranslatedWorldPos centerAbsolutePos (currentTail this) ;;
    prevTail <- getCenterTranslatedWorldPos centerAbsolutePos (prevTail this) ;;
    (* let nextTail = currentTail: the same object under a second name *)
    let nextTail := currentTail in
    let attenuation := num_lit 1 - dragForce in
    d <- Vector3_subtract (Obj currentTail) (Obj prevTail) ;;
    delta <- multiplyByFloat (Obj d) attenuation ;;
    Vector3_addInPlace nextTail (Obj delta) ;;;
    let rotation :=
      Quaternion_multiply
        (getAbsoluteRotationQuaternion w (parent (w (transform this))))
        (localRotation this) in
    let rotatedVec := multiplyWithVector3 rotation (boneAxis this) in
    stiffedVec <- multiplyByFloat rotatedVec stiffnessForce ;;
    Vector3_addInPlace nextTail (Obj stiffedVec) ;;;
    Vector3_addInPlace nextTail external ;;;
    (* force the length to boneLength *)
    normalized <- Vector3_subtract (Obj nextTail) absPos ;;
    normalized <- Vector3_normalize normalized ;;
    scaled <- multiplyByFloat (Obj normalized) (boneLength this) ;;
    nextTail <- Vector3_add absPos (Obj scaled) ;;
    nextTail <- collide this w colliders nextTail ;;
    prevTail' <- getCenterTranslatedPos centerAbsolutePos (Obj currentTail) ;;
    prevTail' <- load prevTail' ;;
    currentTail' <- getCenterTranslatedPos centerAbsolutePos (Obj nextTail) ;;
    currentTail' <- load currentTail' ;;
    q <- transformToRotation this w nextTail ;;
    ret (set_frame_and_tails this centerAbsolutePos currentTail' prevTail',
         setAbsoluteRotationQuaternion w (transform this) q).

Definition update (this : t) (center : option nodeId)
  (stiffnessForce dragForce : F) (external : Vector3 F)
  (colliders : list (SphereCollider F)) (w : Scene F) : t * Scene F :=
  run (update_body this center stiffnessForce dragForce external colliders w).

(** The tail in world space: [currentTail] translated by the centre. *)
Definition worldTail (this : t) : Vector3 F :=
  vadd (centerAbsolutePos this) (currentTail this).

End Logic.

Arguments t F : clear implicits.

End VRMSpringBoneLogic.

(** ** The second copy of vrm-spring-bone-logic.ts (tails in centre space) *)

Module VRMSpringBoneLogicCS.
Section Logic.
Context {F : Type} {N : JSNumber F} {E : Engine F}.
Local Open Scope num_scope.

(** [this.centerAbsolutePos] is assigned [center.absolutePosition], the
    position object of the centre node itself, or a vector of its own: read
    later, it shows the position the node has then. *)
Inductive PositionRef : Type :=
| NodePosition (n : nodeId)
| OwnVector (v : Vector3 F).

Definition deref (w : Scene F) (p : PositionRef) : Vector3 F :=
  match p with
  | NodePosition n => absolutePosition (w n)
  | OwnVector v => v
  end.

(** The fields.  As in the first copy no method writes in place to an object
    that a vector field refers to, and the other vector fields hold values. *)
Record t : Type := mk {
  center : option nodeId;
  radius : F;
  transform : nodeId;
  localChildPosition : Vector3 F;
  localPosition : Vector3 F;
  localRotation : Quaternion F;
  boneAxis : Vector3 F;
  boneLength : F;
  centerAbsolutePos : PositionRef;
  centerSpacePosition : Vector3 F;
  parentAbsolutePos : Vector3 F;
  currentTail : Vector3 F;
  prevTail : Vector3 F;
  worldParentQuaternion : Quaternion F
}.

(** Assignments to the fields that [update] writes. *)
Definition set_frame (this : t) (centerAbsolutePos : PositionRef)
  (centerSpacePosition parentAbsolutePos : Vector3 F)
  (worldParentQuaternion : Quaternion F) : t :=
  mk (center this) (radius this) (transform this) (localChildPosition this)
     (localPosition this) (localRotation this) (boneAxis this) (boneLength this)
     centerAbsolutePos centerSpacePosition parentAbsolutePos
     (currentTail this) (prevTail this) worldParentQuaternion.

Definition set_tails (this : t) (currentTail prevTail : Vector3 F) : t :=
  mk (center this) (radius this) (transform this) (localChildPosition this)
     (localPosition this) (localRotation this) (boneAxis this) (boneLength this)
     (centerAbsolutePos this) (centerSpacePosition this) (parentAbsolutePos this)
     currentTail prevTail (worldParentQuaternion this).

Definition mirrorY (v : Vector3 F) : Vector3 F :=
  mkVector3 (vx v) (- vy v) (vz v).

(** [v.rotateByQuaternionToRef(q, result)] writes the rotated vector to the
    object [result]. *)
Definition Vector3_rotateByQuaternionToRef (v : operand F) (q : Quaternion F)
  (result : ref) : M F unit :=
  vv <- read v ;; store result (rotateByQuaternion vv q).

(** [transform.parent ? parent.absolutePosition : new Vector3(0, 0, 0)] *)
Definition parentPosition (w : Scene F) (transform : nodeId) : M F (Vector3 F) :=
  match parent (w transform) with
  | Some p => ret (absolutePosition (w p))
  | None => z <- Vector3_new (num_lit 0) (num_lit 0) (num_lit 0) ;; load z
  end.

(** [localToWorld(pos)], given [this.worldParentQuaternion] and the node. *)
Definition localToWorld (worldParentQuaternion : Quaternion F) (o : TransformNode F)
  (rotationQuaternion : Quaternion F) (pos : Vector3 F) : M F ref :=
  rotatedPos <- Vector3_clone pos ;;
  Vector3_rotateByQuaternionToRef pos
    (Quaternion_multiply worldParentQuaternion rotationQuaternion) rotatedPos ;;;
  Vector3_addInPlace rotatedPos (absolutePosition o) ;;;
  ret rotatedPos.

(** [init()].  [None] stands for the TypeError that
    [this.transform.rotationQuaternion!.clone()] raises on a null quaternion. *)
Definition init (center : option nodeId) (radius : F) (transform : nodeId)
  (localChildPosition : Vector3 F) (w : Scene F) : option t :=
  match rotationQuaternion (w transform) with
  | None => None
  | Some q =>
      Some (run (
        centerAbsolutePos <-
          match center with
          | Some c => ret (NodePosition c)
          | None => z <- Vector3_new (num_lit 0) (num_lit 0) (num_lit 0) ;;
                    z <- load z ;; ret (OwnVector z)
          end ;;
        centerSpacePosition <-
          Vector3_subtract (absolutePosition (w transform)) (deref w centerAbsolutePos) ;;
        centerSpacePosition <- load centerSpacePosition ;;
        parentAbsolutePos <- parentPosition w transform ;;
        let worldParentQuaternion := Quaternion_Identity in
        localPosition <- Vector3_clone (position (w transform)) ;;
        localPosition <- load localPosition ;;
        let localPosition := mirrorY localPosition in
        let localRotation := q in
        world <- localToWorld worldParentQuaternion (w transform) q localChildPosition ;;
        currentTail <- Vector3_subtract (Obj world) (deref w centerAbsolutePos) ;;
        prevTail <- Vector3_clone (Obj currentTail) ;;
        boneAxis <- Vector3_Normalize localChildPosition ;;
        boneLength <- Vector3_length localChildPosition ;;
        currentTail <- load currentTail ;;
        prevTail <- load prevTail ;;
        boneAxis <- load boneAxis ;;
        ret (mk center radius transform localChildPosition localPosition
                localRotation boneAxis boneLength centerAbsolutePos
                centerSpacePosition parentAbsolutePos currentTail prevTail
                worldParentQuaternion)))
  end.

(** The constructor: the same first lines as in the first copy, then [init()]. *)
Definition constructor (center : option nodeId) (radius : F) (transform : nodeId)
  (localChildPosition : Vector3 F) (w : Scene F) : option (t * Scene F) :=
  let w := VRMSpringBoneLogic.initRotationQuaternions transform w in
  match init center radius transform localChildPosition w with
  | None => None
  | Some this => Some (this, w)
  end.

(** [collide(colliders, nextTail)]; [centerAbsolutePos] is the value read
    from [this.centerAbsolutePos]. *)
Fixpoint collide (this : t) (centerAbsolutePos : Vector3 F)
  (colliders : list (SphereCollider F)) (nextTail : ref) : M F ref :=
  match colliders with
  | [] => ret nextTail
  | collider :: rest =>
      (* Collider position passed in are actually AbsPos *)
      colliderCenterSpacePosition <-
        Vector3_subtract (collider_position collider) centerAbsolutePos ;;
      (* Manual parenting *)
      Vector3_addInPlace colliderCenterSpacePosition (centerSpacePosition this) ;;;
      let r := radius this + collider_radius collider in
      axis <- Vector3_subtract (Obj nextTail) (Obj colliderCenterSpacePosition) ;;
      axisLengthSquared <- Vector3_lengthSquared (Obj axis) ;;
      nextTail <-
        (if axisLengthSquared <=? (r * r) - num_0_02 then
           (* hit: push out along the radius of the collider *)
           n <- Vector3_normalize axis ;;
           n <- Vector3_scaleInPlace n r ;;
           posFromCollider <- Vector3_add (Obj colliderCenterSpacePosition) (Obj n) ;;
           (* force the length to boneLength *)
           d <- Vector3_subtractInPlace posFromCollider (centerSpacePosition this) ;;
           d <- Vector3_normalize d ;;
           d <- Vector3_scaleInPlace d (boneLength this) ;;
           Vector3_addInPlace d (centerSpacePosition this)
         else ret nextTail) ;;
      collide this centerAbsolutePos rest nextTail
  end.

(** [collide] called on an object of value [tail]: the value of the object
    it returns. *)
Definition collideFrom (this : t) (centerAbsolutePos : Vector3 F)
  (colliders : list (SphereCollider F)) (tail : Vector3 F) : Vector3 F :=
  run (nextTail <- alloc tail ;;
       result <- collide this centerAbsolutePos colliders nextTail ;;
       load result).

(** [transformToRotationLocal(nextTail)] *)
Definition transformToRotationLocal (this : t) (centerAbsolutePos : Vector3 F)
  (nextTail : ref) : M F (Quaternion F) :=
  let initialCenterSpaceQuaternionR1 := Quaternion_Inverse (localRotation this) in
  let initialCenterSpaceQuaternionR2 := Quaternion_Inverse (worldParentQuaternion this) in
  fromAxis <- Vector3_clone (boneAxis this) ;;
  toAxis <- Vector3_new (num_lit 0) (num_lit 0) (num_lit 0) ;;
  a <- Vector3_add (Obj nextTail) centerAbsolutePos ;;
  a <- Vector3_subtract (Obj a) (parentAbsolutePos this) ;;
  Vector3_rotateByQuaternionToRef (Obj a) initialCenterSpaceQuaternionR2 toAxis ;;;
  b <- Vector3_subtract (Obj toAxis) (localPosition this) ;;
  Vector3_rotateByQuaternionToRef (Obj b) initialCenterSpaceQuaternionR1 toAxis ;;;
  Vector3_normalize toAxis ;;;
  fromAxis <- load fromAxis ;;
  toAxis <- load toAxis ;;
  ret (fromToRotation fromAxis toAxis).

(** [update(center, stiffnessForce, dragForce, external, colliders)] *)
Definition update_body (this : t) (center : option nodeId)
  (stiffnessForce dragForce : F) (external : Vector3 F)
  (colliders : list (SphereCollider F)) (w : Scene F) : M F (t * Scene F) :=
  let absPos := absolutePosition (w (transform this)) in
  if num_isNaN (vx absPos) then
    (* Do not update when absolute position is invalid *)
    ret (this, w)
  else
    let centerAbsolutePosRef :=
      match center with
      | Some c => NodePosition c
      | None => centerAbsolutePos this
      end in
    let centerAbsolutePos := deref w centerAbsolutePosRef in
    centerSpacePosition <- Vector3_subtract absPos centerAbsolutePos ;;
    centerSpacePosition <- load centerSpacePosition ;;
    parentAbsolutePos <- parentPosition w (transform this) ;;
    let worldParentQuaternion :=
      match parent (w (transform this)) with
      | Some p => worldRotationMatrixQuaternion w p
      | None => Quaternion_Identity
      end in
    let this := set_frame this centerAbsolutePosRef centerSpacePosition
                  parentAbsolutePos worldParentQuaternion in
    (* const currentTail = this.currentTail; const prevTail = this.prevTail *)
    let currentTail := currentTail this in
    let prevTail := prevTail this in
    nextTail <- Vector3_clone currentTail ;;
    (* Momentum/Drag *)
    delta <- Vector3_subtract currentTail prevTail ;;
    delta <- Vector3_scaleInPlace delta (num_lit 1 - dragForce) ;;
    Vector3_addInPlace nextTail (Obj delta) ;;;
    let rotation1 := localRotation this in
    let rotation2 := worldParentQuaternion in
    rotatedVec <- Vector3_new (num_lit 0) (num_lit 0) (num_lit 0) ;;
    Vector3_rotateByQuaternionToRef (boneAxis this) rotation1 rotatedVec ;;;
    Vector3_addInPlace rotatedVec (localPosition this) ;;;
    Vector3_rotateByQuaternionToRef (Obj rotatedVec) rotation2 rotatedVec ;;;
    Vector3_addInPlace rotatedVec parentAbsolutePos ;;;
    Vector3_subtractInPlace rotatedVec absPos ;;;
    Vector3_normalize rotatedVec ;;;
    stiffedVec <- Vector3_scale (Obj rotatedVec) stiffnessForce ;;
    Vector3_addInPlace nextTail (Obj stiffedVec) ;;;
    Vector3_addInPlace nextTail external ;;;
    (* force the length to boneLength *)
    diff <- Vector3_subtract (Obj nextTail) centerSpacePosition ;;
    Vector3_normalize diff ;;;
    Vector3_scaleInPlace diff (boneLength this) ;;;
    nextTail <- Vector3_add centerSpacePosition (Obj diff) ;;
    nextTail <- collide this centerAbsolutePos colliders nextTail ;;
    let prevTail' := currentTail in
    currentTail' <- load nextTail ;;
    r <- transformToRotationLocal this centerAbsolutePos nextTail ;;
    let q := Quaternion_multiply (localRotation this) r in
    ret (set_tails this currentTail' prevTail',
         setNode w (transform this)
           (set_rotationQuaternion (w (transform this)) (Some q))).

Definition update (this : t) (center : option nodeId)
  (stiffnessForce dragForce : F) (external : Vector3 F)
  (colliders : list (SphereCollider F)) (w : Scene F) : t * Scene F :=
  run (update_body this center stiffnessForce dragForce external colliders w).

(** The tail in world space: [currentTail] translated by the centre. *)
Definition worldTail (this : t) (w : Scene F) : Vector3 F :=
  vadd (currentTail this) (deref w (centerAbsolutePos this)).

End Logic.

Arguments PositionRef F : clear implicits.
Arguments t F : clear implicits.

End VRMSpringBoneLogicCS.

(** ** spring-bone-controller.ts *)

Module SpringBoneController.
Section Controller.
Context {F : Type} {N : JSNumber F}.
Local Open Scope num_scope.

(** Modelled from the spec: the configuration schema of its section 6
    ([IVRMSecondaryAnimation] of vrm-interfaces.ts, which is not among the
    sources), with the fields the controller reads.  A node index is a
    number; [boneGroups], [colliderGroups], [bones] are optional, as the
    controller tests them before use. *)
Record IVRMSecondaryAnimationCollider : Type := mkCollider {
  offset : Vector3 F;
  collider_cfg_radius : F
}.

Record IVRMSecondaryAnimationColliderGroup : Type := mkColliderGroupCfg {
  node : Z;
  colliders : list IVRMSecondaryAnimationCollider
}.

Record IVRMSecondaryAnimationSpring : Type := mkSpringCfg {
  comment : string;
  stiffiness : F;
  gravityPower : F;
  gravityDir : Vector3 F;
  dragForce : F;
  center : Z;
  hitRadius : F;
  bones : option (list Z);
  spring_colliderGroups : option (list Z)
}.

Record IVRMSecondaryAnimation : Type := mkSecondaryAnimation {
  boneGroups : option (list IVRMSecondaryAnimationSpring);
  colliderGroups : option (list IVRMSecondaryAnimationColliderGroup)
}.

(** [ConstructSpringsOptions]: every field is optional. *)
Record ConstructSpringsOptions : Type := mkOptions {
  opt_stiffness : option F;
  opt_gravityPower : option F;
  opt_gravityDir : option (Vector3 F);
  opt_dragForce : option F;
  opt_hitRadius : option F
}.

(** Modelled from the spec: [ColliderGroup] of collider-group.ts, which is not
    among the sources: "owner node reference + ordered list of Colliders";
    [addCollider(offset, radius)] "appends one collider". *)
Record ColliderGroup : Type := mkColliderGroup {
  cg_transform : option nodeId;
  cg_colliders : list (Vector3 F * F)
}.

Definition ColliderGroup_new (bone : option nodeId) : ColliderGroup :=
  mkColliderGroup bone [].

Definition addCollider (g : ColliderGroup) (offset : Vector3 F) (radius : F)
  : ColliderGroup :=
  mkColliderGroup (cg_transform g) (cg_colliders g ++ [(offset, radius)]).

(** Modelled from the spec: [VRMSpringBone] of vrm-spring-bone.ts, which is
    not among the sources: "name/comment, stiffness, gravityPower, gravityDir,
    dragForce, hitRadius, optional center-node reference", its root bones and
    "list of referenced ColliderGroups".  The object is taken to be what the
    controller passes to [new VRMSpringBone(...)], argument by argument; an
    array element that is [null] or [undefined] is [None]. *)
Record VRMSpringBone : Type := mkVRMSpringBone {
  sb_comment : string;
  sb_stiffness : F;
  sb_gravityPower : F;
  sb_gravityDir : Vector3 F;
  sb_dragForce : F;
  sb_center : option nodeId;
  sb_hitRadius : F;
  sb_bones : list (option nodeId);
  sb_colliderGroups : list (option ColliderGroup)
}.

(** [type getBone = (nodeIndex: number) => Nullable<TransformNode>] *)
Definition getBone : Type := Z -> option nodeId.

(** [list || []] *)
Definition orEmpty {A} (o : option (list A)) : list A :=
  match o with
  | Some l => l
  | None => []
  end.

(** [cond ? a : b] on an optional number, [options?.field ? options.field : b]:
    an absent field is [undefined], which is falsy. *)
Definition overrideNumber (o : option F) (authored : F) : F :=
  match o with
  | Some v => if truthy v then v else authored
  | None => authored
  end.

(** The same on an optional object: an object is truthy. *)
Definition overrideObject {A} (o : option A) (authored : A) : A :=
  match o with
  | Some v => v
  | None => authored
  end.

(** [options?.field] *)
Definition optField {A} (options : option ConstructSpringsOptions)
  (field : ConstructSpringsOptions -> option A) : option A :=
  match options with
  | Some o => field o
  | None => None
  end.

(** [array[g]] for a number [g]: [undefined] outside the array. *)
Definition index {A} (l : list A) (g : Z) : option A :=
  if (g <? 0)%Z then None else nth_error l (Z.to_nat g).

(** [constructColliderGroups(getBone)] *)
Definition constructColliderGroups (ext : IVRMSecondaryAnimation) (getBone : getBone)
  : list ColliderGroup :=
  match colliderGroups ext with
  | None => []
  | Some [] => []
  | Some groups =>
      fold_left
        (fun colliderGroups colliderGroup =>
           let bone := getBone (node colliderGroup) in
           let g := ColliderGroup_new bone in
           let g :=
             fold_left
               (fun g collider =>
                  addCollider g
                    (* X and Z are negated: conversion from Unity's axes *)
                    (mkVector3 (- vx (offset collider)) (vy (offset collider))
                               (- vz (offset collider)))
                    (collider_cfg_radius collider))
               (colliders colliderGroup) g in
           colliderGroups ++ [g])
        groups []
  end.

(** [constructSprings(getBone, colliderGroups, options)] *)
Definition constructSprings (ext : IVRMSecondaryAnimation) (getBone : getBone)
  (colliderGroups : list ColliderGroup) (options : option ConstructSpringsOptions)
  : list VRMSpringBone :=
  match boneGroups ext with
  | None => []
  | Some [] => []
  | Some groups =>
      fold_left
        (fun springs spring =>
           let rootBones :=
             map (fun bone => getBone bone)
                 (orEmpty (bones spring)) in
           let springColliders :=
             map (fun g => index colliderGroups g)
                 (orEmpty (spring_colliderGroups spring)) in
           springs ++
           [mkVRMSpringBone
              (comment spring)
              (overrideNumber (optField options opt_stiffness) (stiffiness spring))
              (overrideNumber (optField options opt_gravityPower) (gravityPower spring))
              (overrideObject (optField options opt_gravityDir)
                 (* X and Z are negated: conversion from Unity's axes *)
                 (vnormalize (mkVector3 (- vx (gravityDir spring))
                                        (vy (gravityDir spring))
                                        (- vz (gravityDir spring)))))
              (overrideNumber (optField options opt_dragForce) (dragForce spring))
              (getBone (center spring))
              (overrideNumber (optField options opt_hitRadius) (hitRadius spring))
              rootBones
              springColliders])
        groups []
  end.

(** The controller object: the configuration and the spring list. *)
Record t : Type := mk {
  ext : IVRMSecondaryAnimation;
  springs : list VRMSpringBone
}.

Definition constructor (ext : IVRMSecondaryAnimation) (getBone : getBone)
  (options : option ConstructSpringsOptions) : t :=
  let colliderGroups := constructColliderGroups ext getBone in
  mk ext (constructSprings ext getBone colliderGroups options).

Definition dispose (this : t) : t := mk (ext this) [].

(** Modelled from the spec: [VRMSpringBone.update(deltaTime, boneOptions)] and
    [VRMSpringBone.setup(force)] of vrm-spring-bone.ts, which is not among the
    sources: "for each SpringNode in root-to-leaf order, call its per-node
    update", with "no true suspension" inside.  They are taken as functions
    on the spring and the scene it writes to. *)
Variable spring_update :
  F -> option ConstructSpringsOptions -> VRMSpringBone -> Scene F
  -> VRMSpringBone * Scene F.
Variable spring_setup : bool -> VRMSpringBone -> Scene F -> VRMSpringBone * Scene F.

(** [this.springs.forEach] / [this.springs.map] with a callback that works on
    the spring and the scene. *)
Fixpoint forEachSpring (f : VRMSpringBone -> Scene F -> VRMSpringBone * Scene F)
  (springs : list VRMSpringBone) (w : Scene F) : list VRMSpringBone * Scene F :=
  match springs with
  | [] => ([], w)
  | spring :: rest =>
      let (spring', w') := f spring w in
      let (rest', w'') := forEachSpring f rest w' in
      (spring' :: rest', w'')
  end.

(** [setup(force = false)] *)
Definition setup (this : t) (force : bool) (w : Scene F) : t * Scene F :=
  let (springs', w') := forEachSpring (spring_setup force) (springs this) w in
  (mk (ext this) springs', w').

(** The step that [update] passes on:
    [Math.max(0.0, Math.min(125, deltaTime)) / 1000]. *)
Definition clampDeltaTime (deltaTime : F) : F :=
  num_max (num_lit 0) (num_min (num_lit 125) deltaTime) / num_lit 1000.

(** [update(deltaTime, boneOptions)] *)
Definition update (this : t) (deltaTime : F)
  (boneOptions : option ConstructSpringsOptions) (w : Scene F) : t * Scene F :=
  let deltaTime := clampDeltaTime deltaTime in
  let (springs', w') :=
    forEachSpring (fun spring => spring_update deltaTime boneOptions spring)
                  (springs this) w in
  (mk (ext this) springs', w').

End Controller.

Arguments IVRMSecondaryAnimationCollider F : clear implicits.
Arguments IVRMSecondaryAnimationColliderGroup F : clear implicits.
Arguments IVRMSecondaryAnimationSpring F : clear implicits.
Arguments IVRMSecondaryAnimation F : clear implicits.
Arguments ConstructSpringsOptions F : clear implicits.
Arguments ColliderGroup F : clear implicits.
Arguments VRMSpringBone F : clear implicits.
Arguments t F : clear implicits.

End SpringBoneController.

(** ** spring-bone-controller.ts with what can go wrong in it

    The constructor and [update] once more, on the values they meet at run
    time.  The configuration is an object of the parsed glTF JSON: a
    property that the controller reads without a test ([colliders], [offset],
    [gravityDir]) may be absent, and reading a property of [undefined] is a
    TypeError.  [ColliderGroup] and [VRMSpringBone] are the classes of
    collider-group.ts and vrm-spring-bone.ts, which are not among the
    sources: their constructors, [addCollider] and [update] are parameters,
    and the first three may throw.  What they throw ends the constructor of
    the controller. *)

Module SpringBoneControllerJS.
Section Controller.
Context {F : Type} {N : JSNumber F}.
Local Open Scope num_scope.

Record Collider : Type := mkCollider {
  offset : option (Vector3 F);
  radius : F
}.

Record ColliderGroupConfig : Type := mkColliderGroupConfig {
  node : Z;
  colliders : option (list Collider)
}.

Record Spring : Type := mkSpring {
  comment : string;
  stiffiness : F;
  gravityPower : F;
  gravityDir : option (Vector3 F);
  dragForce : F;
  center : Z;
  hitRadius : F;
  bones : option (list Z);
  spring_colliderGroups : option (list Z)
}.

Record SecondaryAnimation : Type := mkSecondaryAnimation {
  boneGroups : option (list Spring);
  colliderGroups : option (list ColliderGroupConfig)
}.

(** What is thrown: the TypeError of the controller's own property reads,
    or what a method of the two classes throws. *)
Variable Thrown : Type.
Variable TypeError : Thrown.

Variable ColliderGroup : Type.
Variable VRMSpringBone : Type.
(* new ColliderGroup(bone) *)
Variable ColliderGroup_new : option nodeId -> Thrown + ColliderGroup.
(* g.addCollider(offset, radius): the group afterwards *)
Variable addCollider : ColliderGroup -> Vector3 F -> F -> Thrown + ColliderGroup.
(* new VRMSpringBone(comment, stiffness, gravityPower, gravityDir, dragForce,
   center, hitRadius, bones, colliderGroups) *)
Variable VRMSpringBone_new :
  string -> F -> F -> Vector3 F -> F -> option nodeId -> F ->
  list (option nodeId) -> list (option ColliderGroup) -> Thrown + VRMSpringBone.

(** [array.forEach(callback)] with a callback that may throw: what is thrown
    ends the loop. *)
Fixpoint forEach {A B : Type} (callback : B -> A -> Thrown + B) (array : list A)
  (state : B) : Thrown + B :=
  match array with
  | [] => inr state
  | a :: rest =>
      match callback state a with
      | inl e => inl e
      | inr state' => forEach callback rest state'
      end
  end.

(** The inner loop of [constructColliderGroups]: [colliderGroup.colliders]
    is read after the group was made. *)
Definition addColliders (colliders : option (list Collider)) (g : ColliderGroup)
  : Thrown + ColliderGroup :=
  match colliders with
  | None => inl TypeError
  | Some colliders =>
      forEach
        (fun g collider =>
           match offset collider with
           | None => inl TypeError
           | Some o =>
               addCollider g
                 (* X and Z are negated: conversion from Unity's axes *)
                 (mkVector3 (- vx o) (vy o) (- vz o))
                 (radius collider)
           end)
        colliders g
  end.

(** [constructColliderGroups(getBone)] *)
Definition constructColliderGroups (ext : SecondaryAnimation)
  (getBone : SpringBoneController.getBone) : Thrown + list ColliderGroup :=
  match colliderGroups ext with
  | None => inr []
  | Some [] => inr []
  | Some groups =>
      forEach
        (fun colliderGroups colliderGroup =>
           let bone := getBone (node colliderGroup) in
           match ColliderGroup_new bone with
           | inl e => inl e
           | inr g =>
               match addColliders (colliders colliderGroup) g with
               | inl e => inl e
               | inr g => inr (colliderGroups ++ [g])
               end
           end)
        groups []
  end.

(** The gravity direction that [constructSprings] passes on; the authored
    direction is read only without an override. *)
Definition gravityDirOf (options : option (SpringBoneController.ConstructSpringsOptions F))
  (spring : Spring) : Thrown + Vector3 F :=
  match SpringBoneController.optField options (@SpringBoneController.opt_gravityDir F) with
  | Some d => inr d
  | None =>
      match gravityDir spring with
      | None => inl TypeError
      | Some d =>
          (* X and Z are negated: conversion from Unity's axes *)
          inr (vnormalize (mkVector3 (- vx d) (vy d) (- vz d)))
      end
  end.

(** The spring that [constructSprings] makes for a bone group. *)
Definition springOf (getBone : SpringBoneController.getBone)
  (colliderGroups : list ColliderGroup)
  (options : option (SpringBoneController.ConstructSpringsOptions F))
  (spring : Spring) : Thrown + VRMSpringBone :=
  let rootBones :=
    map (fun bone => getBone bone) (SpringBoneController.orEmpty (bones spring)) in
  let springColliders :=
    map (fun g => SpringBoneController.index colliderGroups g)
        (SpringBoneController.orEmpty (spring_colliderGroups spring)) in
  match gravityDirOf options spring with
  | inl e => inl e
  | inr dir =>
      VRMSpringBone_new
        (comment spring)
        (SpringBoneController.overrideNumber
           (SpringBoneController.optField options (@SpringBoneController.opt_stiffness F))
           (stiffiness spring))
        (SpringBoneController.overrideNumber
           (SpringBoneController.optField options (@SpringBoneController.opt_gravityPower F))
           (gravityPower spring))
        dir
        (SpringBoneController.overrideNumber
           (SpringBoneController.optField options (@SpringBoneController.opt_dragForce F))
           (dragForce spring))
        (getBone (center spring))
        (SpringBoneController.overrideNumber
           (SpringBoneController.optField options (@SpringBoneController.opt_hitRadius F))
           (hitRadius spring))
        rootBones
        springColliders
  end.

(** [constructSprings(getBone, colliderGroups, options)] *)
Definition constructSprings (ext : SecondaryAnimation)
  (getBone : SpringBoneController.getBone) (colliderGroups : list ColliderGroup)
  (options : option (SpringBoneController.ConstructSpringsOptions F))
  : Thrown + list VRMSpringBone :=
  match boneGroups ext with
  | None => inr []
  | Some [] => inr []
  | Some groups =>
      forEach
        (fun springs spring =>
           match springOf getBone colliderGroups options spring with
           | inl e => inl e
           | inr s => inr (springs ++ [s])
           end)
        groups []
  end.

(** The controller object. *)
Record t : Type := mk {
  ext : SecondaryAnimation;
  springs : list VRMSpringBone
}.

Definition constructor (ext : SecondaryAnimation)
  (getBone : SpringBoneController.getBone)
  (options : option (SpringBoneController.ConstructSpringsOptions F)) : Thrown + t :=
  match constructColliderGroups ext getBone with
  | inl e => inl e
  | inr colliderGroups =>
      match constructSprings ext getBone colliderGroups options with
      | inl e => inl e
      | inr springs => inr (mk ext springs)
      end
  end.

(** Modelled from the spec: [VRMSpringBone.update(deltaTime, boneOptions)], as
    in [SpringBoneController]: a function on the spring and the scene. *)
Variable spring_update :
  F -> option (SpringBoneController.ConstructSpringsOptions F) -> VRMSpringBone ->
  Scene F -> VRMSpringBone * Scene F.

(** [this.springs.map(callback)] with a callback that works on the spring and
    the scene. *)
Fixpoint mapSprings (callback : VRMSpringBone -> Scene F -> VRMSpringBone * Scene F)
  (springs : list VRMSpringBone) (w : Scene F) : list VRMSpringBone * Scene F :=
  match springs with
  | [] => ([], w)
  | spring :: rest =>
      let (spring', w') := callback spring w in
      let (rest', w'') := mapSprings callback rest w' in
      (spring' :: rest', w'')
  end.

(** [update(deltaTime, boneOptions)] *)
Definition update (this : t) (deltaTime : F)
  (boneOptions : option (SpringBoneController.ConstructSpringsOptions F))
  (w : Scene F) : t * Scene F :=
  let deltaTime := SpringBoneController.clampDeltaTime deltaTime in
  let (springs', w') :=
    mapSprings (fun spring => spring_update deltaTime boneOptions spring)
               (springs this) w in
  (mk (ext this) springs', w').

End Controller.

Arguments Collider F : clear implicits.
Arguments ColliderGroupConfig F : clear implicits.
Arguments Spring F : clear implicits.
Arguments SecondaryAnimation F : clear implicits.
Arguments t F : clear implicits.

End SpringBoneControllerJS.

(** ** Concrete scenes *)

(** The engine functions on a scene at rest: no node is rotated, so every
    quaternion the engine hands out is the identity, and rotating by it
    returns the vector.  The concrete scenes below are at rest and use no
    stiffness force, so the tails they compute do not depend on these
    functions. *)
Definition restEngine {F} {N : JSNumber F} : Engine F := {|
  toQuaternion := fun _ => Quaternion_Identity;
  toEulerAngles := fun _ => Vector3_Zero;
  Quaternion_multiply := fun _ _ => Quaternion_Identity;
  Quaternion_Inverse := fun _ => Quaternion_Identity;
  rotateByQuaternion := fun v _ => v;
  multiplyWithVector3 := fun _ v => v;
  fromToRotation := fun _ _ => Quaternion_Identity;
  worldMatrixRotation := fun _ _ => Quaternion_Identity;
  worldRotationMatrixQuaternion := fun _ _ => Quaternion_Identity;
  rotationInParentFrame := fun _ _ q => q
|}.

Definition vec {F} {N : JSNumber F} (x y z : Z) : Vector3 F :=
  mkVector3 (num_lit x) (num_lit y) (num_lit z).

(** A scene whose nodes all sit at [p], unrotated and without a parent. *)
Definition sceneAt {F} {N : JSNumber F} (p : Vector3 F) : Scene F :=
  fun _ => mkTransformNode Vector3_Zero None Vector3_Zero None p.

(** ** The values the spring bone computes *)

(** What the statements of [update] compute, as values: the store is gone,
    each vector is the value the object has when it is read.  The lemmas
    [update_value] below prove that [update] computes these. *)
Module Values.
Section Values.
Context {F : Type} {N : JSNumber F} {E : Engine F}.
Local Open Scope num_scope.

(** Step by [boneLength] from [origin] towards [p]:
    [origin + normalize(p - origin) * boneLength]. *)
Definition rigid (origin : Vector3 F) (boneLength : F) (p : Vector3 F) : Vector3 F :=
  vadd origin (vscale (vnormalize (vsub p origin)) boneLength).

(** The same with the sum the other way round, as the centre-space copy
    writes it in [collide]. *)
Definition rigid' (origin : Vector3 F) (boneLength : F) (p : Vector3 F) : Vector3 F :=
  vadd (vscale (vnormalize (vsub p origin)) boneLength) origin.

(** The collision test of a sphere at [centre] against the tail. *)
Definition hit (r : F) (centre tail : Vector3 F) : bool :=
  vlengthSquared (vsub tail centre) <=? (r * r) - num_0_02.

(** The point at distance [r] from [centre] towards the tail. *)
Definition pushed (r : F) (centre tail : Vector3 F) : Vector3 F :=
  vadd centre (vscale (vnormalize (vsub tail centre)) r).

(** *** vrm-spring-bone-logic.ts *)

Definition centerOf (w : Scene F) (center : option nodeId) : Vector3 F :=
  match center with
  | Some c => absolutePosition (w c)
  | None => mkVector3 (num_lit 0) (num_lit 0) (num_lit 0)
  end.

(** [rotation * boneAxis] of [update] and [transformToRotation]. *)
Definition restRotation (this : VRMSpringBoneLogic.t F) (w : Scene F) : Quaternion F :=
  Quaternion_multiply
    (VRMSpringBoneLogic.getAbsoluteRotationQuaternion w
       (parent (w (VRMSpringBoneLogic.transform this))))
    (VRMSpringBoneLogic.localRotation this).

Definition restAxis (this : VRMSpringBoneLogic.t F) (w : Scene F) : Vector3 F :=
  multiplyWithVector3 (restRotation this w) (VRMSpringBoneLogic.boneAxis this).

(** The object named both [currentTail] and [nextTail], after inertia,
    stiffness and the external force were added to it in place. *)
Definition freeTail (this : VRMSpringBoneLogic.t F) (center : option nodeId)
  (stiffnessForce dragForce : F) (external : Vector3 F) (w : Scene F) : Vector3 F :=
  let c := centerOf w center in
  let currentTail := vadd c (VRMSpringBoneLogic.currentTail this) in
  let prevTail := vadd c (VRMSpringBoneLogic.prevTail this) in
  vadd (vadd (vadd currentTail
                   (vscale (vsub currentTail prevTail) (num_lit 1 - dragForce)))
             (vscale (restAxis this w) stiffnessForce))
       external.

(** One collider of [collide]. *)
Definition collideStep (this : VRMSpringBoneLogic.t F) (w : Scene F)
  (nextTail : Vector3 F) (collider : SphereCollider F) : Vector3 F :=
  let r := VRMSpringBoneLogic.radius this + collider_radius collider in
  if hit r (collider_position collider) nextTail then
    rigid (absolutePosition (w (VRMSpringBoneLogic.transform this)))
          (VRMSpringBoneLogic.boneLength this)
          (pushed r (collider_position collider) nextTail)
  else nextTail.

Definition collideAll (this : VRMSpringBoneLogic.t F) (w : Scene F)
  (colliders : list (SphereCollider F)) (nextTail : Vector3 F) : Vector3 F :=
  fold_left (collideStep this w) colliders nextTail.

(** [nextTail] after the length was forced and the colliders were applied. *)
Definition finalTail (this : VRMSpringBoneLogic.t F) (center : option nodeId)
  (stiffnessForce dragForce : F) (external : Vector3 F)
  (colliders : list (SphereCollider F)) (w : Scene F) : Vector3 F :=
  let absPos := absolutePosition (w (VRMSpringBoneLogic.transform this)) in
  collideAll this w colliders
    (rigid absPos (VRMSpringBoneLogic.boneLength this)
       (freeTail this center stiffnessForce dragForce external w)).

(** *** The centre-space copy *)

(** The centre of the test sphere of a collider: its position, minus the
    centre position, plus the centre-space position of the node. *)
Definition testCentreCS (centerAbsolutePos centerSpacePosition : Vector3 F)
  (collider : SphereCollider F) : Vector3 F :=
  vadd (vsub (collider_position collider) centerAbsolutePos) centerSpacePosition.

Definition collideStepCS (this : VRMSpringBoneLogicCS.t F) (centerAbsolutePos : Vector3 F)
  (nextTail : Vector3 F) (collider : SphereCollider F) : Vector3 F :=
  let centre := testCentreCS centerAbsolutePos
                  (VRMSpringBoneLogicCS.centerSpacePosition this) collider in
  let r := VRMSpringBoneLogicCS.radius this + collider_radius collider in
  if hit r centre nextTail then
    rigid' (VRMSpringBoneLogicCS.centerSpacePosition this)
           (VRMSpringBoneLogicCS.boneLength this)
           (pushed r centre nextTail)
  else nextTail.

Definition collideAllCS (this : VRMSpringBoneLogicCS.t F) (centerAbsolutePos : Vector3 F)
  (colliders : list (SphereCollider F)) (nextTail : Vector3 F) : Vector3 F :=
  fold_left (collideStepCS this centerAbsolutePos) colliders nextTail.

(** The fields that [update] assigns before it moves the tail. *)
Definition frameCS (this : VRMSpringBoneLogicCS.t F) (center : option nodeId)
  (w : Scene F) : VRMSpringBoneLogicCS.t F :=
  let tr := VRMSpringBoneLogicCS.transform this in
  let centerRef :=
    match center with
    | Some c => VRMSpringBoneLogicCS.NodePosition c
    | None => VRMSpringBoneLogicCS.centerAbsolutePos this
    end in
  VRMSpringBoneLogicCS.set_frame this centerRef
    (vsub (absolutePosition (w tr)) (VRMSpringBoneLogicCS.deref w centerRef))
    (match parent (w tr) with
     | Some p => absolutePosition (w p)
     | None => mkVector3 (num_lit 0) (num_lit 0) (num_lit 0)
     end)
    (match parent (w tr) with
     | Some p => worldRotationMatrixQuaternion w p
     | None => Quaternion_Identity
     end).

(** The normalized direction the stiffness force pulls in. *)
Definition restDirectionCS (this : VRMSpringBoneLogicCS.t F) (w : Scene F) : Vector3 F :=
  let absPos := absolutePosition (w (VRMSpringBoneLogicCS.transform this)) in
  vnormalize
    (vsub (vadd (rotateByQuaternion
                   (vadd (rotateByQuaternion (VRMSpringBoneLogicCS.boneAxis this)
                            (VRMSpringBoneLogicCS.localRotation this))
                         (VRMSpringBoneLogicCS.localPosition this))
                   (VRMSpringBoneLogicCS.worldParentQuaternion this))
                (VRMSpringBoneLogicCS.parentAbsolutePos this))
          absPos).

(** [nextTail] after inertia, stiffness and the external force; [this] has
    the fields of [frameCS]. *)
Definition freeTailCS (this : VRMSpringBoneLogicCS.t F)
  (stiffnessForce dragForce : F) (external : Vector3 F) (w : Scene F) : Vector3 F :=
  let currentTail := VRMSpringBoneLogicCS.currentTail this in
  let prevTail := VRMSpringBoneLogicCS.prevTail this in
  vadd (vadd (vadd currentTail
                   (vscale (vsub currentTail prevTail) (num_lit 1 - dragForce)))
             (vscale (restDirectionCS this w) stiffnessForce))
       external.

Definition finalTailCS (this : VRMSpringBoneLogicCS.t F) (center : option nodeId)
  (stiffnessForce dragForce : F) (external : Vector3 F)
  (colliders : list (SphereCollider F)) (w : Scene F) : Vector3 F :=
  let this := frameCS this center w in
  collideAllCS this
    (VRMSpringBoneLogicCS.deref w (VRMSpringBoneLogicCS.centerAbsolutePos this))
    colliders
    (rigid (VRMSpringBoneLogicCS.centerSpacePosition this)
           (VRMSpringBoneLogicCS.boneLength this)
           (freeTailCS this stiffnessForce dragForce external w)).

(** The rotation that [transformToRotationLocal] returns for a tail. *)
Definition rotationCS (this : VRMSpringBoneLogicCS.t F) (centerAbsolutePos : Vector3 F)
  (tail : Vector3 F) : Quaternion F :=
  let toAxis :=
    rotateByQuaternion
      (vsub (vadd tail centerAbsolutePos) (VRMSpringBoneLogicCS.parentAbsolutePos this))
      (Quaternion_Inverse (VRMSpringBoneLogicCS.worldParentQuaternion this)) in
  let toAxis :=
    rotateByQuaternion
      (vsub toAxis (VRMSpringBoneLogicCS.localPosition this))
      (Quaternion_Inverse (VRMSpringBoneLogicCS.localRotation this)) in
  fromToRotation (VRMSpringBoneLogicCS.boneAxis this) (vnormalize toAxis).

End Values.
End Values.

(** A unit bone along the Y axis under node 0, at rest: the state the
    constructor makes for [localChildPosition = (0, 1, 0)] and no centre when
    the node is at the origin. *)
Definition unitBone {F} {N : JSNumber F} : VRMSpringBoneLogic.t F :=
  VRMSpringBoneLogic.mk (num_lit 0) 0 Quaternion_Identity
    (vec 0 1 0) (num_lit 1) (vec 0 0 0) (vec 0 1 0) (vec 0 1 0).


(** The unit bone of the centre-space copy under node 0 at (10, 0, 0). *)
Definition unitBoneCS {F} {N : JSNumber F} : VRMSpringBoneLogicCS.t F :=
  VRMSpringBoneLogicCS.mk None (num_lit 0) 0 (vec 0 1 0)
    (VRMSpringBoneLogicCS.mirrorY Vector3_Zero) Quaternion_Identity
    (vec 0 1 0) (num_lit 1)
    (VRMSpringBoneLogicCS.OwnVector (vec 0 0 0)) (vec 10 0 0) (vec 0 0 0)
    (vec 10 1 0) (vec 10 1 0) Quaternion_Identity.

(** A configuration with one bone group and one collider group whose node
    indices the resolver does not know. *)
Definition danglingConfig : SpringBoneController.IVRMSecondaryAnimation float :=
  SpringBoneController.mkSecondaryAnimation
    (Some [SpringBoneController.mkSpringCfg "hair" (num_lit 1) (num_lit 0)
             (vec 0 (-1) 0) (num_lit 0) (-1) (num_lit 0) (Some [7%Z]) (Some [0%Z])])
    (Some [SpringBoneController.mkColliderGroupCfg 9
             [SpringBoneController.mkCollider (vec 0 0 0) (num_lit 1)]]).

Definition noBone : SpringBoneController.getBone := fun _ => None.

(** The same configuration as the controller reads it at run time, and one
    whose collider group has no [colliders]. *)
Definition danglingConfigJS : SpringBoneControllerJS.SecondaryAnimation float :=
  SpringBoneControllerJS.mkSecondaryAnimation
    (Some [SpringBoneControllerJS.mkSpring "hair" (num_lit 1) (num_lit 0)
             (Some (vec 0 (-1) 0)) (num_lit 0) (-1) (num_lit 0) (Some [7%Z])
             (Some [0%Z])])
    (Some [SpringBoneControllerJS.mkColliderGroupConfig 9
             (Some [SpringBoneControllerJS.mkCollider (Some (vec 0 0 0)) (num_lit 1)])]).

Definition incompleteConfigJS : SpringBoneControllerJS.SecondaryAnimation float :=
  SpringBoneControllerJS.mkSecondaryAnimation None
    (Some [SpringBoneControllerJS.mkColliderGroupConfig 9 None]).

(** A collider group and a spring bone that are what their constructors
    were given: the owner and the colliders added, the root bones and the
    collider groups. *)
Definition GivenColliderGroup : Type := option nodeId * list (Vector3 float * float).
Definition GivenSpringBone : Type :=
  list (option nodeId) * list (option GivenColliderGroup).

(** The constructor of the controller with these two classes, which throw
    nothing. *)
Definition constructGiven (ext : SpringBoneControllerJS.SecondaryAnimation float)
  (getBone : SpringBoneController.getBone)
  : unit + SpringBoneControllerJS.t float GivenSpringBone :=
  SpringBoneControllerJS.constructor tt
    (fun bone => inr (bone, []))
    (fun g offset radius => inr (fst g, (snd g ++ [(offset, radius)])%list))
    (fun _ _ _ _ _ _ _ bones colliderGroups => inr (bones, colliderGroups))
    ext getBone None.

(** Options that override the gravity direction with the zero vector. *)
Definition zeroGravityOptions : SpringBoneController.ConstructSpringsOptions float :=
  SpringBoneController.mkOptions None None (Some (vec 0 0 0)) None None.

(** A controller with one spring, and a spring update that records the step
    it is given in the stiffness field. *)
Definition oneSpring : SpringBoneController.t float :=
  SpringBoneController.constructor danglingConfig noBone None.

Definition recordStep (deltaTime : float)
  (o : option (SpringBoneController.ConstructSpringsOptions float))
  (s : SpringBoneController.VRMSpringBone float) (w : Scene float)
  : SpringBoneController.VRMSpringBone float * Scene float :=
  (SpringBoneController.mkVRMSpringBone
     (SpringBoneController.sb_comment s) deltaTime
     (SpringBoneController.sb_gravityPower s) (SpringBoneController.sb_gravityDir s)
     (SpringBoneController.sb_dragForce s) (SpringBoneController.sb_center s)
     (SpringBoneController.sb_hitRadius s) (SpringBoneController.sb_bones s)
     (SpringBoneController.sb_colliderGroups s), w).

(** * The manager of a loaded model

    The rest of this file embeds the code around the spring bones:
    [VRMManager] (vrm-manager.ts), which finds the nodes and meshes of a
    model in the scene and hands [findTransformNode] to the spring-bone
    controller as its resolver, and [HumanoidBone] (humanoid-bone.ts). *)

From Stdlib Require Import Ascii.

(** ** JavaScript strings and [parseInt] *)

(** A string is a sequence of code units; the pointers and names the manager
    reads are ASCII, and the characters of a Rocq string stand for the code
    units 0 to 255. *)
Module JSString.

Fixpoint drop (n : nat) (s : string) : string :=
  match n, s with
  | O, _ => s
  | S n', String _ s' => drop n' s'
  | S _, EmptyString => EmptyString
  end.

Fixpoint take (n : nat) (s : string) : string :=
  match n, s with
  | O, _ => EmptyString
  | S n', String c s' => String c (take n' s')
  | S _, EmptyString => EmptyString
  end.

(** [s.startsWith(prefix)] *)
Definition startsWith (s prefix : string) : bool := String.prefix prefix s.

(** [s.substring(start)] for a start that is a natural number. *)
Definition substring (s : string) (start : nat) : string := drop start s.

Fixpoint takeWhile (p : ascii -> bool) (s : string) : string :=
  match s with
  | EmptyString => EmptyString
  | String c s' => if p c then String c (takeWhile p s') else EmptyString
  end.

Fixpoint dropWhile (p : ascii -> bool) (s : string) : string :=
  match s with
  | EmptyString => EmptyString
  | String c s' => if p c then dropWhile p s' else s
  end.

(** The class [\d] of a regular expression, and the digits of [parseInt]
    with radix 10. *)
Definition isDigit (c : ascii) : bool :=
  (48 <=? nat_of_ascii c)%nat && (nat_of_ascii c <=? 57)%nat.

Definition digitValue (c : ascii) : Z := Z.of_nat (nat_of_ascii c - 48).

(** The line terminators among the code units below 256: LF and CR.  The
    class [.] of a regular expression is every other code unit. *)
Definition isLineTerminator (c : ascii) : bool :=
  (nat_of_ascii c =? 10)%nat || (nat_of_ascii c =? 13)%nat.

Definition isNotLineTerminator (c : ascii) : bool := negb (isLineTerminator c).

(** The white space that [parseInt] skips, among the code units below 256:
    TAB, LF, VT, FF, CR, SP and NBSP. *)
Definition isWhiteSpace (c : ascii) : bool :=
  let n := nat_of_ascii c in
  ((9 <=? n)%nat && (n <=? 13)%nat) || (n =? 32)%nat || (n =? 160)%nat.

(** Every code unit of the string is in the class. *)
Fixpoint all (p : ascii -> bool) (s : string) : bool :=
  match s with
  | EmptyString => true
  | String c s' => p c && all p s'
  end.

(** The integer that a string of digits denotes. *)
Fixpoint digitsValue (acc : Z) (digits : string) : Z :=
  match digits with
  | EmptyString => acc
  | String c rest => digitsValue (10 * acc + digitValue c) rest
  end.

(** A number of this part of the code: a node or mesh index, which
    [parseInt] reads from a pointer.  It is an integer among the numbers
    (binary64), infinite, or NaN; [Int 0] stands for both zeros, which are
    one key of an object and equal to each other. *)
Inductive number : Type :=
| Int (z : Z)
| Infinity (negative : bool)
| NaN.

Definition number_eqb (a b : number) : bool :=
  match a, b with
  | Int x, Int y => (x =? y)%Z
  | Infinity x, Infinity y => Bool.eqb x y
  | NaN, NaN => true
  | _, _ => false
  end.

(** The number nearest to an integer, ties to even.  An integer below 2^53
    in absolute value is a number; a larger one keeps its 53 leading bits,
    and from [2^1024 - 2^970] on the nearest number is infinite. *)
Definition roundToNumber (z : Z) : number :=
  let a := Z.abs z in
  if (a <? 2 ^ 53)%Z then Int z
  else
    let e := (Z.log2 a - 52)%Z in
    let q := Z.shiftr a e in
    let r := (a - Z.shiftl q e)%Z in
    let half := Z.shiftl 1 (e - 1) in
    let q' := if ((r <? half) || ((r =? half) && Z.even q))%Z then q else (q + 1)%Z in
    let v := Z.shiftl q' e in
    if (2 ^ 1024 <=? v)%Z then Infinity (z <? 0)%Z
    else Int (if (z <? 0)%Z then (- v)%Z else v).

(** [parseInt(s, 10)]: skip the leading white space, read a sign, then the
    longest run of digits; NaN when there is no digit, and else the number
    nearest to the integer that the digits denote. *)
Definition parseInt (s : string) : number :=
  let s := dropWhile isWhiteSpace s in
  let (negative, s) :=
    match s with
    | String "-"%char rest => (true, rest)
    | String "+"%char rest => (false, rest)
    | _ => (false, s)
    end in
  match takeWhile isDigit s with
  | EmptyString => NaN
  | digits =>
      roundToNumber (if negative then - digitsValue 0 digits else digitsValue 0 digits)
  end.

(** *** [Number.prototype.toString]

    The string that a number is as the key of an object. *)

(** The decimal digits of a natural number, in front of [acc]. *)
Fixpoint decimalDigits (fuel : nat) (a : Z) (acc : string) : string :=
  let acc := String (ascii_of_nat (48 + Z.to_nat (a mod 10))) acc in
  match fuel with
  | O => acc
  | S fuel' => if (a <? 10)%Z then acc else decimalDigits fuel' (a / 10) acc
  end.

Definition decimal (a : Z) : string :=
  decimalDigits (Z.to_nat (Z.log2 a)) a EmptyString.

(** The integer with the fewest significant decimal digits that reads as
    the number [v]: for k = 1, 2, ... (the step [p] is 10^(n-k), where [v]
    has n digits) the two multiples of [p] around [v] are tried; of two
    that fit the nearer one is taken, and the one with the even digit when
    they are as near.  Seventeen digits are enough for every number. *)
Fixpoint shortestFrom (count : nat) (p : Z) (v : Z) : Z :=
  match count with
  | O => v
  | S count' =>
      let low := (v / p * p)%Z in
      let high := (low + p)%Z in
      let lowFits := number_eqb (roundToNumber low) (Int v) in
      let highFits := number_eqb (roundToNumber high) (Int v) in
      if lowFits
         && (negb highFits || (v - low <? high - v)%Z
             || ((v - low =? high - v)%Z && Z.even (v / p)))
      then low
      else if highFits then high
      else shortestFrom count' (p / 10) v
  end.

(** Below 2^53 every integer is a number, and no other integer reads as
    it. *)
Definition shortest (v : Z) : Z :=
  if (v <? 2 ^ 53)%Z then v
  else shortestFrom 17 (10 ^ (Z.of_nat (String.length (decimal v)) - 1)) v.

Fixpoint dropRight (p : ascii -> bool) (s : string) : string :=
  match s with
  | EmptyString => EmptyString
  | String c s' =>
      match dropRight p s' with
      | EmptyString => if p c then EmptyString else String c EmptyString
      | kept => String c kept
      end
  end.

(** [String(x)] of a number that is an integer, infinite or NaN: up to
    21 digits are written out, the digits after the significant ones being
    zeros; a longer integer is written with an exponent, as in [1e+21] and
    [1.2e+21]. *)
Definition Number_toString (x : number) : string :=
  match x with
  | NaN => "NaN"%string
  | Infinity negative => if negative then "-Infinity"%string else "Infinity"%string
  | Int z =>
      let digits := decimal (shortest (Z.abs z)) in
      ((if (z <? 0)%Z then "-" else "")
       ++ (if (String.length digits <=? 21)%nat then digits
           else
             let significant := dropRight (Ascii.eqb "0"%char) digits in
             take 1 significant
             ++ (if (1 <? String.length significant)%nat
                 then "." ++ drop 1 significant else "")
             ++ "e+" ++ decimal (Z.of_nat (String.length digits) - 1)))%string
  end.

(** *** The regular expressions of the manager

    A pattern anchored at both ends ([^] ... [$]) that is a sequence of
    literals and of greedy [+] repetitions of a character class, one of them
    in a capture group.  A repetition first takes the longest run it can and
    gives characters back, one at a time, while the rest of the pattern
    does not match. *)
Inductive atom : Type :=
| Literal (s : string)
| Plus (class : ascii -> bool) (captured : bool).

(** The capture groups of the match, or [None] when there is no match. *)
Fixpoint matchAnchored (pattern : list atom) (s : string) : option (list string) :=
  match pattern with
  | [] => match s with EmptyString => Some [] | _ => None end
  | Literal l :: rest =>
      if startsWith s l then matchAnchored rest (drop (String.length l) s) else None
  | Plus class captured :: rest =>
      (fix backtrack (n : nat) : option (list string) :=
         match n with
         | O => None
         | S n' =>
             match matchAnchored rest (drop n s) with
             | Some groups => Some (if captured then take n s :: groups else groups)
             | None => backtrack n'
             end
         end) (String.length (takeWhile class s))
  end.

(** [s.toLowerCase()], among the code units below 256: the letters A to Z
    and the capital letters of Latin-1 (192 to 222, without the
    multiplication sign 215) move up by 32. *)
Definition lowerCase (c : ascii) : ascii :=
  let n := nat_of_ascii c in
  if ((65 <=? n)%nat && (n <=? 90)%nat)
     || ((192 <=? n)%nat && (n <=? 222)%nat && negb (n =? 215)%nat)
  then ascii_of_nat (n + 32)
  else c.

Fixpoint toLowerCase (s : string) : string :=
  match s with
  | EmptyString => EmptyString
  | String c s' => String (lowerCase c) (toLowerCase s')
  end.

End JSString.

(** ** JavaScript objects used as maps

    An object that the code uses as a map from keys to values: its own
    properties, in the order they were created.  Assigning to a key that
    exists replaces the value and keeps the place of the key. *)
Module JSObject.
Section Object.
Variables K V : Type.
Variable key_eqb : K -> K -> bool.
(** The array index that a key is, when it is one: [Object.keys] and
    [Object.entries] list those keys first, in ascending order. *)
Variable arrayIndex : K -> option Z.

Definition t : Type := list (K * V).

(** [o[k]]: [None] is [undefined]. *)
Fixpoint get (o : t) (k : K) : option V :=
  match o with
  | [] => None
  | (k', v) :: rest => if key_eqb k' k then Some v else get rest k
  end.

(** [o[k] = v] *)
Fixpoint set (o : t) (k : K) (v : V) : t :=
  match o with
  | [] => [(k, v)]
  | (k', v') :: rest =>
      if key_eqb k' k then (k', v) :: rest else (k', v') :: set rest k v
  end.

Fixpoint insertByIndex (i : Z) (e : K * V) (l : list (Z * (K * V)))
  : list (Z * (K * V)) :=
  match l with
  | [] => [(i, e)]
  | (j, e') :: rest =>
      if (i <? j)%Z then (i, e) :: l else (j, e') :: insertByIndex i e rest
  end.

(** [Object.entries(o)]: the array-index keys in ascending order, then the
    other keys in the order they were created. *)
Definition entries (o : t) : list (K * V) :=
  map snd
    (fold_left
       (fun sorted e =>
          match arrayIndex (fst e) with
          | Some i => insertByIndex i e sorted
          | None => sorted
          end) o [])
  ++ filter (fun e => match arrayIndex (fst e) with Some _ => false | None => true end) o.

(** [Object.keys(o)] *)
Definition keys (o : t) : list K := map fst (entries o).

End Object.
End JSObject.

(** The array index that a number used as a key is: an integer from 0 to
    2^32 - 2. *)
Definition numberArrayIndex (k : JSString.number) : option Z :=
  match k with
  | JSString.Int z => if ((0 <=? z) && (z <? 4294967295))%Z then Some z else None
  | JSString.Infinity _ => None
  | JSString.NaN => None
  end.

(** The array index that a string used as a key is: the canonical decimal
    form of such an integer. *)
Definition stringArrayIndex (k : string) : option Z :=
  match k with
  | EmptyString => None
  | String c rest =>
      if String.eqb (JSString.takeWhile JSString.isDigit k) k
         && (negb (Ascii.eqb c "0"%char) || String.eqb rest EmptyString)
         && (JSString.digitsValue 0 k <? 4294967295)%Z
      then Some (JSString.digitsValue 0 k) else None
  end.

(** ** humanoid-bone.ts *)

Module HumanoidBone.
Local Open Scope string_scope.

(** [TransformNodeMap]: the node of each bone name. *)
Definition TransformNodeMap : Type := JSObject.t string nodeId.

(** [nodeMap[name]] *)
Definition lookup (nodeMap : TransformNodeMap) (name : string) : option nodeId :=
  JSObject.get String.eqb nodeMap name.

(** What a getter can throw: the [BoneNotFoundError] of errors.ts, made with
    the name of the bone, and the TypeError of reading a property of
    [null]. *)
Inductive Error : Type :=
| BoneNotFoundError (name : string)
| TypeError.

(** The object: [_nodeMap] is the map the constructor was given, and [null]
    after [dispose()]. *)
Record t : Type := mk { _nodeMap : option TransformNodeMap }.

Definition nodeMap (this : t) : option TransformNodeMap := _nodeMap this.

Definition constructor (nodeMap : TransformNodeMap) : t := mk (Some nodeMap).

Definition dispose (this : t) : t := mk None.

(** [getMandatoryBone(name)] *)
Definition getMandatoryBone (this : t) (name : string) : Error + nodeId :=
  match nodeMap this with
  | None => inl TypeError
  | Some m =>
      match lookup m name with
      | None => inl (BoneNotFoundError name)
      | Some node => inr node
      end
  end.

(** [getOptionalBone(name)]: [this.nodeMap && this.nodeMap[name] || null] *)
Definition getOptionalBone (this : t) (name : string) : option nodeId :=
  match nodeMap this with
  | None => None
  | Some m => lookup m name
  end.

(** The getters of the mandatory bones. *)
Definition hips (this : t) : Error + nodeId := getMandatoryBone this "hips".
Definition leftUpperLeg (this : t) : Error + nodeId := getMandatoryBone this "leftUpperLeg".
Definition rightUpperLeg (this : t) : Error + nodeId := getMandatoryBone this "rightUpperLeg".
Definition leftLowerLeg (this : t) : Error + nodeId := getMandatoryBone this "leftLowerLeg".
Definition rightLowerLeg (this : t) : Error + nodeId := getMandatoryBone this "rightLowerLeg".
Definition leftFoot (this : t) : Error + nodeId := getMandatoryBone this "leftFoot".
Definition rightFoot (this : t) : Error + nodeId := getMandatoryBone this "rightFoot".
Definition spine (this : t) : Error + nodeId := getMandatoryBone this "spine".
Definition chest (this : t) : Error + nodeId := getMandatoryBone this "chest".
Definition neck (this : t) : Error + nodeId := getMandatoryBone this "neck".
Definition head (this : t) : Error + nodeId := getMandatoryBone this "head".
Definition leftShoulder (this : t) : Error + nodeId := getMandatoryBone this "leftShoulder".
Definition rightShoulder (this : t) : Error + nodeId := getMandatoryBone this "rightShoulder".
Definition leftUpperArm (this : t) : Error + nodeId := getMandatoryBone this "leftUpperArm".
Definition rightUpperArm (this : t) : Error + nodeId := getMandatoryBone this "rightUpperArm".
Definition leftLowerArm (this : t) : Error + nodeId := getMandatoryBone this "leftLowerArm".
Definition rightLowerArm (this : t) : Error + nodeId := getMandatoryBone this "rightLowerArm".
Definition leftHand (this : t) : Error + nodeId := getMandatoryBone this "leftHand".
Definition rightHand (this : t) : Error + nodeId := getMandatoryBone this "rightHand".

(** The getters of the optional bones. *)
Definition leftToes (this : t) : option nodeId := getOptionalBone this "leftToes".
Definition rightToes (this : t) : option nodeId := getOptionalBone this "rightToes".
Definition leftEye (this : t) : option nodeId := getOptionalBone this "leftEye".
Definition rightEye (this : t) : option nodeId := getOptionalBone this "rightEye".
Definition jaw (this : t) : option nodeId := getOptionalBone this "jaw".
Definition leftThumbProximal (this : t) : option nodeId := getOptionalBone this "leftThumbProximal".
Definition leftThumbIntermediate (this : t) : option nodeId := getOptionalBone this "leftThumbIntermediate".
Definition leftThumbDistal (this : t) : option nodeId := getOptionalBone this "leftThumbDistal".
Definition leftIndexProximal (this : t) : option nodeId := getOptionalBone this "leftIndexProximal".
Definition leftIndexIntermediate (this : t) : option nodeId := getOptionalBone this "leftIndexIntermediate".
Definition leftIndexDistal (this : t) : option nodeId := getOptionalBone this "leftIndexDistal".
Definition leftMiddleProximal (this : t) : option nodeId := getOptionalBone this "leftMiddleProximal".
Definition leftMiddleIntermediate (this : t) : option nodeId := getOptionalBone this "leftMiddleIntermediate".
Definition leftMiddleDistal (this : t) : option nodeId := getOptionalBone this "leftMiddleDistal".
Definition leftRingProximal (this : t) : option nodeId := getOptionalBone this "leftRingProximal".
Definition leftRingIntermediate (this : t) : option nodeId := getOptionalBone this "leftRingIntermediate".
Definition leftRingDistal (this : t) : option nodeId := getOptionalBone this "leftRingDistal".
Definition leftLittleProximal (this : t) : option nodeId := getOptionalBone this "leftLittleProximal".
Definition leftLittleIntermediate (this : t) : option nodeId := getOptionalBone this "leftLittleIntermediate".
Definition leftLittleDistal (this : t) : option nodeId := getOptionalBone this "leftLittleDistal".
Definition rightThumbProximal (this : t) : option nodeId := getOptionalBone this "rightThumbProximal".
Definition rightThumbIntermediate (this : t) : option nodeId := getOptionalBone this "rightThumbIntermediate".
Definition rightThumbDistal (this : t) : option nodeId := getOptionalBone this "rightThumbDistal".
Definition rightIndexProximal (this : t) : option nodeId := getOptionalBone this "rightIndexProximal".
Definition rightIndexIntermediate (this : t) : option nodeId := getOptionalBone this "rightIndexIntermediate".
Definition rightIndexDistal (this : t) : option nodeId := getOptionalBone this "rightIndexDistal".
Definition rightMiddleProximal (this : t) : option nodeId := getOptionalBone this "rightMiddleProximal".
Definition rightMiddleIntermediate (this : t) : option nodeId := getOptionalBone this "rightMiddleIntermediate".
Definition rightMiddleDistal (this : t) : option nodeId := getOptionalBone this "rightMiddleDistal".
Definition rightRingProximal (this : t) : option nodeId := getOptionalBone this "rightRingProximal".
Definition rightRingIntermediate (this : t) : option nodeId := getOptionalBone this "rightRingIntermediate".
Definition rightRingDistal (this : t) : option nodeId := getOptionalBone this "rightRingDistal".
Definition rightLittleProximal (this : t) : option nodeId := getOptionalBone this "rightLittleProximal".
Definition rightLittleIntermediate (this : t) : option nodeId := getOptionalBone this "rightLittleIntermediate".
Definition rightLittleDistal (this : t) : option nodeId := getOptionalBone this "rightLittleDistal".
Definition upperChest (this : t) : option nodeId := getOptionalBone this "upperChest".

End HumanoidBone.

(** ** vrm-manager.ts *)

Module VRMManager.
Section Manager.
Context {F : Type} {N : JSNumber F}.
Import JSString.
Local Open Scope string_scope.
Local Open Scope num_scope.

(** *** The scene that the manager reads

    Nodes and meshes are objects with an identity ([Mesh] extends
    [TransformNode]).  [metadata.gltf.pointers] is where the glTF loader
    records the JSON pointers of the node or mesh; each level can be
    missing. *)
Record GltfMetadata : Type := mkGltfMetadata { pointers : option (list string) }.
Record Metadata : Type := mkMetadata { gltf : option GltfMetadata }.

Record NodeInfo : Type := mkNodeInfo {
  info_id : string;                  (* node.id *)
  info_name : string;                (* node.name *)
  info_metadata : option Metadata    (* node.metadata *)
}.

Record BabylonScene : Type := mkBabylonScene {
  transformNodes : list nodeId;      (* scene.transformNodes *)
  meshes : list nodeId;              (* scene.meshes *)
  info : nodeId -> NodeInfo
}.

(** What the manager reads and writes of a mesh. *)
Record MeshState : Type := mkMeshState {
  skeleton : option nat;                  (* Nullable<Skeleton> *)
  morphTargetManager : option (list nat); (* its targets, by index *)
  receiveShadows : bool
}.

(** What can go wrong: the TypeError of reading a property of [undefined],
    and the [Error] that a method throws itself. *)
Inductive Exception : Type :=
| TypeError
| Error (message : string).

(** [array[index]] for [index = from, from + 1, ..., array.length - 1], as
    the two cache loops read it: [undefined] below zero. *)
Definition elementsFrom {A} (from : Z) (array : list A) : list (option A) :=
  repeat None (Z.to_nat (- from)) ++ map Some (skipn (Z.to_nat from) array).

(** The pointers of a node that passes the test
    [!node.metadata || !node.metadata.gltf || !node.metadata.gltf.pointers
     || node.metadata.gltf.pointers.length === 0]. *)
Definition registeredPointers (i : NodeInfo) : option (list string) :=
  match info_metadata i with
  | None => None
  | Some m =>
      match gltf m with
      | None => None
      | Some g =>
          match pointers g with
          | None => None
          | Some [] => None
          | Some ps => Some ps
          end
      end
  end.

(** *** The caches *)

Definition TransformNodeCache : Type := JSObject.t number nodeId.
Definition MeshCache : Type := JSObject.t number (list nodeId).

(** The loop over the pointers of a transform node: the index of the first
    pointer that starts with [/nodes/]. *)
Fixpoint firstNodePointer (ps : list string) : option number :=
  match ps with
  | [] => None
  | pointer :: rest =>
      if startsWith pointer "/nodes/" then Some (parseInt (substring pointer 7))
      else firstNodePointer rest
  end.

(** The index under which the loop body of [constructTransformNodeCache]
    registers a node, if it registers it. *)
Definition nodeIndexOf (i : NodeInfo) : option number :=
  match registeredPointers i with
  | None => None
  | Some ps => firstNodePointer ps
  end.

(** [constructTransformNodeCache()] *)
Definition constructTransformNodeCache (scene : BabylonScene) (transformNodesFrom : Z)
  : TransformNodeCache :=
  fold_left
    (fun cache element =>
       match element with
       | None => cache
       | Some node =>
           match registeredPointers (info scene node) with
           | None => cache
           | Some ps =>
               match firstNodePointer ps with
               | Some nodeIndex => JSObject.set number_eqb cache nodeIndex node
               | None => cache
               end
           end
       end)
    (elementsFrom transformNodesFrom (transformNodes scene)) [].

(** [findTransformNode(nodeIndex)]: [this.transformNodeCache[nodeIndex] || null] *)
Definition findTransformNode (transformNodeCache : TransformNodeCache)
  (nodeIndex : number) : option nodeId :=
  JSObject.get number_eqb transformNodeCache nodeIndex.

(** [indexOfTransformNode(node)]: the first entry of the cache, in the
    order of [Object.entries], that holds the node.  The key of the entry is
    the string of the number it was stored under, and [parseInt(k, 10)]
    reads the index from it. *)
Definition indexOfTransformNode (transformNodeCache : TransformNodeCache)
  (node : option nodeId) : number :=
  match
    find (fun entry =>
            match node with
            | Some n => Nat.eqb n (snd entry)
            | None => false
            end)
         (JSObject.entries numberArrayIndex transformNodeCache)
  with
  | Some (k, _) => parseInt (Number_toString k)
  | None => Int (-1)
  end.

(** [/^\/meshes\/(\d+).+$/] *)
Definition meshPattern : list atom :=
  [Literal "/meshes/"; Plus isDigit true; Plus isNotLineTerminator false].

(** The loop over the pointers of a mesh: the index in the first pointer
    that matches. *)
Fixpoint firstMeshPointer (ps : list string) : option number :=
  match ps with
  | [] => None
  | pointer :: rest =>
      match matchAnchored meshPattern pointer with
      | Some groups => Some (parseInt (nth 0 groups EmptyString))
      | None => firstMeshPointer rest
      end
  end.

(** The index under which the loop body of [constructMeshCache] registers a
    mesh that is not the root mesh, if it registers it. *)
Definition meshIndexOf (i : NodeInfo) : option number :=
  match registeredPointers i with
  | None => None
  | Some ps => firstMeshPointer ps
  end.

(** [constructMeshCache()]: the cache and [this._rootMesh], which no mesh
    has been assigned to before.  Reading [mesh.id] of an element below
    index zero is a TypeError. *)
Definition constructMeshCache (scene : BabylonScene) (meshesFrom : Z)
  : Exception + (MeshCache * option nodeId) :=
  fold_left
    (fun state element =>
       match state with
       | inl e => inl e
       | inr (cache, rootMesh) =>
           match element with
           | None => inl TypeError
           | Some mesh =>
               if String.eqb (info_id (info scene mesh)) "__root__"
               then inr (cache, Some mesh)
               else
                 match registeredPointers (info scene mesh) with
                 | None => inr (cache, rootMesh)
                 | Some ps =>
                     match firstMeshPointer ps with
                     | Some nodeIndex =>
                         inr (JSObject.set number_eqb cache nodeIndex
                                (SpringBoneController.orEmpty
                                   (JSObject.get number_eqb cache nodeIndex)
                                 ++ [mesh])%list,
                              rootMesh)
                     | None => inr (cache, rootMesh)
                     end
                 end
           end
       end)
    (elementsFrom meshesFrom (meshes scene)) (inr ([], None)).

(** [findMeshes(meshIndex)]: [this.meshCache[meshIndex] || null] *)
Definition findMeshes (meshCache : MeshCache) (meshIndex : number)
  : option (list nodeId) :=
  JSObject.get number_eqb meshCache meshIndex.

(** *** The configuration

    [IVRM] of vrm-interfaces.ts, which is not among the sources: the fields
    that the manager reads, optional where it tests them before use. *)
Record IVRMBlendShapeBind : Type := mkBind {
  bind_mesh : Z;
  bind_index : Z;
  bind_weight : F
}.

Record IVRMBlendShapeGroup : Type := mkGroup {
  group_name : string;
  presetName : option string;
  binds : option (list IVRMBlendShapeBind)
}.

Record IVRMBlendShapeMaster : Type := mkBlendShapeMaster {
  blendShapeGroups : option (list IVRMBlendShapeGroup)
}.

Record IVRMHumanoidBone : Type := mkHumanoidBone {
  bone : string;
  bone_node : Z
}.

Record IVRMFirstPerson : Type := mkFirstPerson {
  firstPersonBone : Z;
  firstPersonBoneOffset : Vector3 F
}.

Record IVRM : Type := mkIVRM {
  blendShapeMaster : option IVRMBlendShapeMaster;
  humanBones : list IVRMHumanoidBone;        (* ext.humanoid.humanBones *)
  firstPerson : IVRMFirstPerson;
  secondaryAnimation : SpringBoneController.IVRMSecondaryAnimation F
}.

(** *** Morph targets *)

(** [MorphTargetSetting]; [target] is [undefined] when the morph target
    manager has no target at the index of the bind. *)
Record MorphTargetSetting : Type := mkSetting {
  target : option nat;
  weight : F
}.

Definition MorphTargetMap : Type := JSObject.t string (list MorphTargetSetting).

(** [morphingTargetProperty]: [label] and [_value] (the third field refers
    back to the manager). *)
Record morphingTargetProperty : Type := mkProperty {
  label : string;
  _value : F
}.

Definition MorphTargetPropertyMap : Type := JSObject.t string morphingTargetProperty.

(** The three maps that [constructMorphTargetMap] fills. *)
Record MorphMaps : Type := mkMorphMaps {
  morphTargetMap : MorphTargetMap;
  presetMorphTargetMap : MorphTargetMap;
  propertyMap : MorphTargetPropertyMap      (* this.MorphTargetPropertyMap *)
}.

(** The maps are plain objects ([{}]), which inherit the properties of
    [Object.prototype]: reading [map[key]] for a key that is not an own
    property and is one of these names gives the inherited value, a
    function (for [__proto__], the prototype itself), which is truthy and
    has neither [push] nor [forEach]. *)
Definition objectPrototypeMembers : list string :=
  ["constructor"; "__defineGetter__"; "__defineSetter__"; "hasOwnProperty";
   "__lookupGetter__"; "__lookupSetter__"; "isPrototypeOf";
   "propertyIsEnumerable"; "toString"; "valueOf"; "__proto__";
   "toLocaleString"].

Definition inherited (key : string) : bool :=
  existsb (String.eqb key) objectPrototypeMembers.

(** [map[key] = map[key] || []; map[key].push(setting)]: for an inherited
    key the first statement assigns the inherited value, and calling its
    [push] is a TypeError.  (Assigning to [__proto__] does not create a
    property either.) *)
Definition pushSetting (map : MorphTargetMap) (key : string)
  (setting : MorphTargetSetting) : Exception + MorphTargetMap :=
  match JSObject.get String.eqb map key with
  | Some settings => inr (JSObject.set String.eqb map key (settings ++ [setting])%list)
  | None =>
      if inherited key then inl TypeError
      else inr (JSObject.set String.eqb map key [setting])
  end.

(** A string in a condition: the empty string is falsy (and so is
    [undefined], a [presetName] that is absent). *)
Definition truthyString (s : string) : bool := negb (String.eqb s EmptyString).

(** [array.forEach(callback)] on a state that the callback updates or
    throws from; an exception ends the loop. *)
Fixpoint forEach {A S : Type} (callback : S -> A -> Exception + S) (array : list A)
  (state : S) : Exception + S :=
  match array with
  | [] => inr state
  | a :: rest =>
      match callback state a with
      | inl e => inl e
      | inr state' => forEach callback rest state'
      end
  end.

(** The body of the innermost loop of [constructMorphTargetMap], for a
    mesh with a morph target manager: the setting is pushed to the map of
    the names, the property of the name is assigned, and the setting is
    pushed to the map of the presets when the group has a preset name. *)
Definition registerSetting (g : IVRMBlendShapeGroup) (setting : MorphTargetSetting)
  (maps : MorphMaps) : Exception + MorphMaps :=
  match pushSetting (morphTargetMap maps) (group_name g) setting with
  | inl e => inl e
  | inr named =>
      let properties :=
        JSObject.set String.eqb (propertyMap maps) (group_name g)
          (mkProperty (group_name g) (num_lit 0)) in
      match presetName g with
      | Some preset =>
          if truthyString preset
          then
            match pushSetting (presetMorphTargetMap maps) preset setting with
            | inl e => inl e
            | inr presets => inr (mkMorphMaps named presets properties)
            end
          else inr (mkMorphMaps named (presetMorphTargetMap maps) properties)
      | None => inr (mkMorphMaps named (presetMorphTargetMap maps) properties)
      end
  end.

(** [constructMorphTargetMap()]; [morphTargetManager.getTarget(index)] is
    the element of the target array at that index. *)
Definition constructMorphTargetMap (ext : IVRM) (meshCache : MeshCache)
  (meshState : nodeId -> MeshState) (maps : MorphMaps) : Exception + MorphMaps :=
  match blendShapeMaster ext with
  | None => inr maps
  | Some master =>
      match blendShapeGroups master with
      | None => inr maps
      | Some groups =>
          forEach
            (fun maps g =>
               match binds g with
               | None => inr maps
               | Some bs =>
                   forEach
                     (fun maps b =>
                        match findMeshes meshCache (Int (bind_mesh b)) with
                        | None => inr maps
                        | Some meshes =>
                            forEach
                              (fun maps mesh =>
                                 match morphTargetManager (meshState mesh) with
                                 | None => inr maps
                                 | Some targets =>
                                     let target :=
                                       SpringBoneController.index targets (bind_index b) in
                                     registerSetting g
                                       (mkSetting target (bind_weight b)) maps
                                 end)
                              meshes maps
                        end)
                     bs maps
               end)
            groups maps
      end
  end.

(** The influence that [morphing] gives a target:
    [Math.max(0, Math.min(1, value)) * (setting.weight / 100)]. *)
Definition influenceOf (value : F) (setting : MorphTargetSetting) : F :=
  num_max (num_lit 0) (num_min (num_lit 1) value) * (weight setting / num_lit 100).

(** The [forEach] of [morphing] over the settings of a label, on the store
    of the influences of the morph targets.  Assigning to [influence] of an
    [undefined] target is a TypeError, which ends the loop; what was
    assigned before stays. *)
Fixpoint setInfluences (settings : list MorphTargetSetting) (value : F)
  (influence : nat -> F) : option Exception * (nat -> F) :=
  match settings with
  | [] => (None, influence)
  | setting :: rest =>
      match target setting with
      | None => (Some TypeError, influence)
      | Some t =>
          setInfluences rest value
            (fun n => if Nat.eqb n t then influenceOf value setting else influence n)
      end
  end.

(** [morphing(label, value)] and [morphingPreset(label, value)]: nothing
    is done when [map[label]] is falsy; for a label that is not an own
    property and is inherited, [map[label].forEach] is not a function, a
    TypeError. *)
Definition morphingIn (map : MorphTargetMap) (label : string) (value : F)
  (influence : nat -> F) : option Exception * (nat -> F) :=
  match JSObject.get String.eqb map label with
  | Some settings => setInfluences settings value influence
  | None => if inherited label then (Some TypeError, influence) else (None, influence)
  end.

Definition morphing (maps : MorphMaps) (label : string) (value : F)
  (influence : nat -> F) : option Exception * (nat -> F) :=
  morphingIn (morphTargetMap maps) label value influence.

Definition morphingPreset (maps : MorphMaps) (label : string) (value : F)
  (influence : nat -> F) : option Exception * (nat -> F) :=
  morphingIn (presetMorphTargetMap maps) label value influence.

(** [getMorphingList()] *)
Definition getMorphingList (maps : MorphMaps) : list string :=
  JSObject.keys stringArrayIndex (morphTargetMap maps).

(** The setter of [morphingTargetProperty.value]: the clamped value is
    kept, and the manager morphs with the value as given. *)
Definition set_value (this : morphingTargetProperty) (value : F) (maps : MorphMaps)
  (influence : nat -> F)
  : morphingTargetProperty * (option Exception * (nat -> F)) :=
  (mkProperty (label this) (num_max (num_lit 0) (num_min (num_lit 1) value)),
   morphing maps (label this) value influence).

(** *** Bones *)

(** [getFirstPersonBone()] *)
Definition getFirstPersonBone (ext : IVRM) (transformNodeCache : TransformNodeCache)
  : option nodeId :=
  findTransformNode transformNodeCache (Int (firstPersonBone (firstPerson ext))).

(** [getFirstPersonCameraPosition()] *)
Definition getFirstPersonCameraPosition (ext : IVRM)
  (transformNodeCache : TransformNodeCache) (w : Scene F) : option (Vector3 F) :=
  match getFirstPersonBone ext transformNodeCache with
  | None => None
  | Some firstPersonBone =>
      let basePos := getAbsolutePosition w firstPersonBone in
      let offsetPos := firstPersonBoneOffset (firstPerson ext) in
      Some (mkVector3 (vx basePos + vx offsetPos)
                      (vy basePos + vy offsetPos)
                      (vz basePos + vz offsetPos))
  end.

(** The loop of [constructTransformNodeMap()] that fills
    [this.transformNodeMap]: a bone whose node is not found is left out. *)
Definition fillTransformNodeMap (ext : IVRM) (transformNodeCache : TransformNodeCache)
  (transformNodeMap : HumanoidBone.TransformNodeMap) : HumanoidBone.TransformNodeMap :=
  fold_left
    (fun map b =>
       match findTransformNode transformNodeCache (Int (bone_node b)) with
       | None => map
       | Some node => JSObject.set String.eqb map (bone b) node
       end)
    (humanBones ext) transformNodeMap.

(** *** The tree of the humanoid bones *)

(** [TransformNodeTreeNode].  [children] of an item is the array
    [childOf[id]] of [hierarchy], held by reference: it is read from the
    object [childOf] that [hierarchy] leaves. *)
Record TransformNodeTreeNode : Type := mkTreeNode {
  tree_id : Z;
  tree_name : string;
  tree_parent : number
}.

Definition ChildOf : Type := JSObject.t number (list TransformNodeTreeNode).

(** [a != b] of a node that may be [null] and a mesh that may be
    [undefined]: [null] and [undefined] are equal, objects are equal when
    they are the same object. *)
Definition differentNodes (a b : option nodeId) : bool :=
  match a, b with
  | Some x, Some y => negb (Nat.eqb x y)
  | None, None => false
  | _, _ => true
  end.

(** [hierarchy(data)], with the object [childOf] it has filled.  [parentOf]
    is [parent] of the nodes of the scene.  The parent of an item is a
    number, never [null]; reading [parent] of
    [this.transformNodeCache[parent]] is a TypeError when the cache has no
    node for it. *)
Definition hierarchy (transformNodeCache : TransformNodeCache)
  (parentOf : nodeId -> option nodeId) (rootMesh : option nodeId)
  (data : list TransformNodeTreeNode)
  : Exception + (list TransformNodeTreeNode * ChildOf) :=
  fold_left
    (fun state item =>
       match state with
       | inl e => inl e
       | inr (tree, childOf) =>
           let id := Int (tree_id item) in
           let parent := tree_parent item in
           let childOf :=
             JSObject.set number_eqb childOf id
               (SpringBoneController.orEmpty (JSObject.get number_eqb childOf id)) in
           match JSObject.get number_eqb transformNodeCache parent with
           | None => inl TypeError
           | Some parentNode =>
               if differentNodes (parentOf parentNode) rootMesh
                  && negb (String.eqb (toLowerCase (tree_name item)) "hips")
               then
                 inr (tree,
                      JSObject.set number_eqb childOf parent
                        (SpringBoneController.orEmpty
                           (JSObject.get number_eqb childOf parent) ++ [item])%list)
               else inr ((tree ++ [item])%list, childOf)
           end
       end)
    data (inr ([], [])).

(** [constructTransformNodeMap()] of the newer manager: the map of the
    bones, and the root of the tree with the object [childOf], or what is
    thrown. *)
Definition constructTransformNodeMap (ext : IVRM)
  (transformNodeCache : TransformNodeCache) (parentOf : nodeId -> option nodeId)
  (rootMesh : option nodeId) (transformNodeMap : HumanoidBone.TransformNodeMap)
  : HumanoidBone.TransformNodeMap * (Exception + (TransformNodeTreeNode * ChildOf)) :=
  let filled :=
    fold_left
      (fun state b =>
         match findTransformNode transformNodeCache (Int (bone_node b)) with
         | None => state
         | Some node =>
             (JSObject.set String.eqb (fst state) (bone b) node,
              (snd state
               ++ [mkTreeNode (bone_node b) (bone b)
                     (indexOfTransformNode transformNodeCache (parentOf node))])%list)
         end)
      (humanBones ext) (transformNodeMap, []) in
  (fst filled,
   match hierarchy transformNodeCache parentOf rootMesh (snd filled) with
   | inl e => inl e
   | inr (tree, childOf) =>
       match tree with
       | [] => inl (Error "Failed to construct bone hierarchy tree!")
       | root :: _ => inr (root, childOf)
       end
   end).

(** The resolver that the manager gives to the spring-bone controller:
    [this.findTransformNode.bind(this)]. *)
Definition getBone (transformNodeCache : TransformNodeCache)
  : SpringBoneController.getBone :=
  fun nodeIndex => findTransformNode transformNodeCache (Int nodeIndex).

(** *** Meshes *)

(** [setShadowEnabled(enabled)].  [meshes] of a key of the cache is an
    array; iterating over [undefined] would be a TypeError. *)
Definition setShadowEnabled (meshCache : MeshCache) (enabled : bool)
  (meshState : nodeId -> MeshState) : option Exception * (nodeId -> MeshState) :=
  fold_left
    (fun state nodeIndex =>
       match state with
       | (Some e, _) => state
       | (None, meshState) =>
           match JSObject.get number_eqb meshCache nodeIndex with
           | None => (Some TypeError, meshState)
           | Some meshes =>
               (None,
                fold_left
                  (fun meshState mesh =>
                     fun m =>
                       if Nat.eqb m mesh
                       then mkMeshState (skeleton (meshState m))
                              (morphTargetManager (meshState m)) enabled
                       else meshState m)
                  meshes meshState)
           end
       end)
    (JSObject.keys numberArrayIndex meshCache) (None, meshState).

(** *** Skeletons *)

(** [mesh.skeleton = skeleton] *)
Definition setSkeleton (meshState : nodeId -> MeshState) (mesh : nodeId)
  (kept : nat) : nodeId -> MeshState :=
  fun m =>
    if Nat.eqb m mesh
    then mkMeshState (Some kept) (morphTargetManager (meshState m))
           (receiveShadows (meshState m))
    else meshState m.

(** The loop of [removeDuplicateSkeletons()] over the keys of the mesh
    cache, on the state of the meshes and the skeletons that were disposed,
    in order.  [current] is the local variable [skeleton]; [bones] gives the
    names of the bones of a skeleton: with a [_rootMesh], the name of the
    first bone of the skeleton that is kept is read, a TypeError when the
    skeleton has no bone. *)
Fixpoint removeDuplicateSkeletonsFrom (meshCache : MeshCache)
  (rootMesh : option nodeId) (bones : nat -> list string) (keys : list number)
  (current : option nat) (meshState : nodeId -> MeshState) (disposed : list nat)
  {struct keys} : option Exception * ((nodeId -> MeshState) * list nat) :=
  match keys with
  | [] => (None, (meshState, disposed))
  | nodeIndex :: rest =>
      match JSObject.get number_eqb meshCache nodeIndex with
      | None => (Some TypeError, (meshState, disposed))
      | Some [] =>
          removeDuplicateSkeletonsFrom meshCache rootMesh bones rest current
            meshState disposed
      | Some (first :: others) =>
          match skeleton (meshState first) with
          | None =>
              removeDuplicateSkeletonsFrom meshCache rootMesh bones rest current
                meshState disposed
          | Some firstSkeleton =>
              match current with
              | None =>
                  match rootMesh, bones firstSkeleton with
                  | Some _, [] => (Some TypeError, (meshState, disposed))
                  | _, _ =>
                      removeDuplicateSkeletonsFrom meshCache rootMesh bones rest
                        (Some firstSkeleton) meshState disposed
                  end
              | Some kept =>
                  removeDuplicateSkeletonsFrom meshCache rootMesh bones rest
                    (Some kept)
                    (fold_left (fun state mesh => setSkeleton state mesh kept)
                       (first :: others) meshState)
                    (disposed ++ [firstSkeleton])%list
              end
          end
      end
  end.

(** [removeDuplicateSkeletons()] *)
Definition removeDuplicateSkeletons (meshCache : MeshCache)
  (rootMesh : option nodeId) (bones : nat -> list string)
  (meshState : nodeId -> MeshState) (disposed : list nat)
  : option Exception * ((nodeId -> MeshState) * list nat) :=
  removeDuplicateSkeletonsFrom meshCache rootMesh bones
    (JSObject.keys numberArrayIndex meshCache) None meshState disposed.

End Manager.

Arguments NodeInfo : clear implicits.
Arguments IVRMBlendShapeBind F : clear implicits.
Arguments IVRMBlendShapeGroup F : clear implicits.
Arguments IVRMBlendShapeMaster F : clear implicits.
Arguments IVRMFirstPerson F : clear implicits.
Arguments IVRM F : clear implicits.
Arguments MorphTargetSetting F : clear implicits.
Arguments MorphTargetMap F : clear implicits.
Arguments morphingTargetProperty F : clear implicits.
Arguments MorphTargetPropertyMap F : clear implicits.
Arguments MorphMaps F : clear implicits.

End VRMManager.

(** * The loader extension (vrm-extension.ts) *)

Module VRMLoaderExtension.

Local Open Scope Z_scope.

(** The two positions that the extension hands to the manager. *)
Record t : Type := mk {
  meshesFrom : Z;
  transformNodesFrom : Z
}.

(** The constructor, on the scene of the loader: the loader has added the
    root mesh before, so the meshes start one position earlier. *)
Definition constructor (babylonScene : VRMManager.BabylonScene) : t :=
  mk (Z.of_nat (List.length (VRMManager.meshes babylonScene)) - 1)
     (Z.of_nat (List.length (VRMManager.transformNodes babylonScene))).

(** The two caches that the manager of [onReady] starts with: the
    constructor of the manager is given the scene of the loader as it is
    then, and the two positions. *)
Definition onReady (this : t) (babylonScene : VRMManager.BabylonScene)
  : (VRMManager.Exception + (VRMManager.MeshCache * option nodeId))
    * VRMManager.TransformNodeCache :=
  (VRMManager.constructMeshCache babylonScene (meshesFrom this),
   VRMManager.constructTransformNodeCache babylonScene (transformNodesFrom this)).

End VRMLoaderExtension.

(** A scene whose nodes all sit at [p] with the identity as quaternion. *)
Definition sceneWithQuaternions {F} {N : JSNumber F} (p : Vector3 F) : Scene F :=
  fun _ => mkTransformNode Vector3_Zero (Some Quaternion_Identity) Vector3_Zero None p.

(** The unit bone of the centre-space copy under node 0 at the origin. *)
Definition originBoneCS {F} {N : JSNumber F} : VRMSpringBoneLogicCS.t F :=
  VRMSpringBoneLogicCS.mk None (num_lit 0) 0 (vec 0 1 0)
    (vec 0 0 0) Quaternion_Identity
    (vec 0 1 0) (num_lit 1)
    (VRMSpringBoneLogicCS.OwnVector (vec 0 0 0)) (vec 0 0 0) (vec 0 0 0)
    (vec 0 1 0) (vec 0 1 0) Quaternion_Identity.

(** A configuration with one bone group whose authored gravity direction,
    (0, -2, 0), is not of unit length. *)
Definition gravityConfig {F} {N : JSNumber F}
  : SpringBoneController.IVRMSecondaryAnimation F :=
  SpringBoneController.mkSecondaryAnimation
    (Some [SpringBoneController.mkSpringCfg "skirt" (num_lit 1) (num_lit 1)
             (vec 0 (-2) 0) (num_lit 0) 0 (num_lit 0) (Some [1%Z]) None])
    None.

(** A scene with a model loaded after one older transform node: the
    transform nodes 1 (older), 2 and 3 (pointers [/nodes/0] and [/nodes/1])
    and 4 (no metadata), and the meshes 10 (the root mesh), 11 and 12 (two
    primitives of mesh 0) and 13 (mesh 1). *)
Definition modelScene : VRMManager.BabylonScene :=
  let registered (name pointer : string) :=
    VRMManager.mkNodeInfo name name
      (Some (VRMManager.mkMetadata
               (Some (VRMManager.mkGltfMetadata (Some [pointer]))))) in
  VRMManager.mkBabylonScene [1; 2; 3; 4] [10; 11; 12; 13]
    (fun n =>
       match n with
       | 1 => registered "old" "/nodes/0"
       | 2 => registered "hips" "/nodes/0"
       | 3 => registered "head" "/nodes/1"
       | 10 => VRMManager.mkNodeInfo "__root__" "__root__" None
       | 11 => registered "Face_0" "/meshes/0/primitives/0"
       | 12 => registered "Face_1" "/meshes/0/primitives/1"
       | 13 => registered "Body" "/meshes/1/primitives/0"
       | _ => VRMManager.mkNodeInfo "" "" None
       end)%string.

(** The meshes of the face have the morph targets 7 and 8; the body has no
    morph target manager. *)
Definition modelMeshes : nodeId -> VRMManager.MeshState :=
  fun n =>
    match n with
    | 11 => VRMManager.mkMeshState (Some 0) (Some [7; 8]) false
    | 12 => VRMManager.mkMeshState (Some 1) (Some [9]) false
    | 13 => VRMManager.mkMeshState (Some 1) None false
    | _ => VRMManager.mkMeshState None None false
    end.

(** A configuration with the blend shape group [smile] (preset [joy]) bound
    to target 0 of mesh 0 with weight 50, and the humanoid bones [hips] and
    [head]. *)
Definition modelConfig {F} {N : JSNumber F} : VRMManager.IVRM F :=
  VRMManager.mkIVRM
    (Some (VRMManager.mkBlendShapeMaster
             (Some [VRMManager.mkGroup "smile" (Some "joy"%string)
                      (Some [VRMManager.mkBind 0 0 (num_lit 50)])])))
    [VRMManager.mkHumanoidBone "hips" 0; VRMManager.mkHumanoidBone "head" 1;
     VRMManager.mkHumanoidBone "jaw" 9]
    (VRMManager.mkFirstPerson 1 (vec 0 0 0))
    gravityConfig.

(** The morph maps that the manager makes for this model. *)
Definition modelMaps {F} {N : JSNumber F} : VRMManager.MorphMaps F :=
  match VRMManager.constructMeshCache modelScene 0 with
  | inr (meshCache, _) =>
      match
        VRMManager.constructMorphTargetMap modelConfig meshCache modelMeshes
          (VRMManager.mkMorphMaps [] [] [])
      with
      | inr maps => maps
      | inl _ => VRMManager.mkMorphMaps [] [] []
      end
  | inl _ => VRMManager.mkMorphMaps [] [] []
  end.

(** * Proofs *)

Unset Implicit Arguments.

(** ** The store *)

Section StoreFacts.
Context {F : Type} {N : JSNumber F}.

Lemma next_empty : next (emptyHeap (F:=F)) = 0.
Proof. reflexivity. Qed.

Lemma next_push (h : Heap F) (v : Vector3 F) : next (push h v) = S (next h).
Proof. reflexivity. Qed.

Lemma next_put (h : Heap F) (r : ref) (v : Vector3 F) : next (put h r v) = next h.
Proof. reflexivity. Qed.

Lemma cell_push (h : Heap F) (v : Vector3 F) (r : ref) :
  cell (push h v) r = if Nat.eqb r (next h) then v else cell h r.
Proof. reflexivity. Qed.

Lemma cell_put (h : Heap F) (a : ref) (v : Vector3 F) (r : ref) :
  cell (put h a v) r = if Nat.eqb r a then v else cell h r.
Proof. reflexivity. Qed.

Lemma eqb_below (a n : nat) : a < n -> Nat.eqb a n = false.
Proof. intro H. apply Nat.eqb_neq. lia. Qed.

Lemma eqb_above (a n : nat) : a < n -> Nat.eqb n a = false.
Proof. intro H. apply Nat.eqb_neq. lia. Qed.

(** One statement of a computation. *)
Lemma bind_run {A B} (m : M F A) (k : A -> M F B) (h h' : Heap F) (a : A) :
  m h = (a, h') -> bind m k h = k a h'.
Proof. intro H. unfold bind. rewrite H. reflexivity. Qed.

Lemma bind_bind_run {A B C} (m : M F A) (f : A -> M F B) (g : B -> M F C)
  (h : Heap F) :
  bind (bind m f) g h = bind m (fun x => bind (f x) g) h.
Proof. unfold bind. destruct (m h) as [a h1]. reflexivity. Qed.

Lemma ret_run {A} (a : A) (h : Heap F) : ret a h = (a, h).
Proof. reflexivity. Qed.

Lemma load_run (r : ref) (h : Heap F) : load r h = (cell h r, h).
Proof. reflexivity. Qed.

Lemma alloc_run (v : Vector3 F) (h : Heap F) : alloc v h = (next h, push h v).
Proof. reflexivity. Qed.

Lemma store_run (r : ref) (v : Vector3 F) (h : Heap F) : store r v h = (tt, put h r v).
Proof. reflexivity. Qed.

Lemma read_run (a : operand F) (h : Heap F) : read a h = (valueOf a h, h).
Proof. destruct a; reflexivity. Qed.

Lemma Vector3_new_run (x y z : F) (h : Heap F) :
  Vector3_new x y z h = (next h, push h (mkVector3 x y z)).
Proof. reflexivity. Qed.

Lemma Vector3_clone_run (a : operand F) (h : Heap F) :
  Vector3_clone a h = (next h, push h (valueOf a h)).
Proof. destruct a; reflexivity. Qed.

Lemma Vector3_add_run (a b : operand F) (h : Heap F) :
  Vector3_add a b h = (next h, push h (vadd (valueOf a h) (valueOf b h))).
Proof. destruct a, b; reflexivity. Qed.

Lemma Vector3_subtract_run (a b : operand F) (h : Heap F) :
  Vector3_subtract a b h = (next h, push h (vsub (valueOf a h) (valueOf b h))).
Proof. destruct a, b; reflexivity. Qed.

Lemma Vector3_scale_run (a : operand F) (s : F) (h : Heap F) :
  Vector3_scale a s h = (next h, push h (vscale (valueOf a h) s)).
Proof. destruct a; reflexivity. Qed.

Lemma multiplyByFloat_run (a : operand F) (s : F) (h : Heap F) :
  multiplyByFloat a s h = (next h, push h (vscale (valueOf a h) s)).
Proof. destruct a; reflexivity. Qed.

Lemma Vector3_addInPlace_run (a : ref) (b : operand F) (h : Heap F) :
  Vector3_addInPlace a b h = (a, put h a (vadd (cell h a) (valueOf b h))).
Proof. destruct b; reflexivity. Qed.

Lemma Vector3_subtractInPlace_run (a : ref) (b : operand F) (h : Heap F) :
  Vector3_subtractInPlace a b h = (a, put h a (vsub (cell h a) (valueOf b h))).
Proof. destruct b; reflexivity. Qed.

Lemma Vector3_scaleInPlace_run (a : ref) (s : F) (h : Heap F) :
  Vector3_scaleInPlace a s h = (a, put h a (vscale (cell h a) s)).
Proof. reflexivity. Qed.

Lemma Vector3_normalize_run (a : ref) (h : Heap F) :
  Vector3_normalize a h = (a, put h a (vnormalize (cell h a))).
Proof. reflexivity. Qed.

Lemma Vector3_length_run (a : operand F) (h : Heap F) :
  Vector3_length a h = (vlength (valueOf a h), h).
Proof. destruct a; reflexivity. Qed.

Lemma Vector3_lengthSquared_run (a : operand F) (h : Heap F) :
  Vector3_lengthSquared a h = (vlengthSquared (valueOf a h), h).
Proof. destruct a; reflexivity. Qed.

Lemma Vector3_Normalize_run (a : operand F) (h : Heap F) :
  Vector3_Normalize a h
  = (next h, put (push h (valueOf a h)) (next h) (vnormalize (valueOf a h))).
Proof.
  unfold Vector3_Normalize.
  erewrite bind_run by apply Vector3_clone_run.
  rewrite Vector3_normalize_run, cell_push, Nat.eqb_refl. reflexivity.
Qed.

End StoreFacts.

(** Tests on addresses: closed ones are computed, the others follow from the
    order of allocation. *)
Ltac eqb_closed :=
  match goal with
  | |- context [Nat.eqb ?a ?b] =>
      let v := eval cbv in (Nat.eqb a b) in
      match v with
      | true => change (Nat.eqb a b) with true
      | false => change (Nat.eqb a b) with false
      end
  end.

Ltac heap_eqb :=
  repeat first
    [ eqb_closed
    | rewrite Nat.eqb_refl
    | rewrite eqb_below by lia
    | rewrite eqb_above by lia ].

Ltac heap_simp :=
  repeat (progress
    (rewrite ?next_push, ?next_put, ?next_empty, ?cell_push, ?cell_put;
     cbn [valueOf]; heap_eqb; cbv iota)).

(** The pair that the statement at the head of a computation returns. *)
Ltac op_run :=
  lazymatch goal with
  | |- ret _ _ = _ => apply ret_run
  | |- load _ _ = _ => apply load_run
  | |- alloc _ _ = _ => apply alloc_run
  | |- store _ _ _ = _ => apply store_run
  | |- read _ _ = _ => apply read_run
  | |- Vector3_new _ _ _ _ = _ => apply Vector3_new_run
  | |- Vector3_clone _ _ = _ => apply Vector3_clone_run
  | |- Vector3_add _ _ _ = _ => apply Vector3_add_run
  | |- Vector3_subtract _ _ _ = _ => apply Vector3_subtract_run
  | |- Vector3_scale _ _ _ = _ => apply Vector3_scale_run
  | |- multiplyByFloat _ _ _ = _ => apply multiplyByFloat_run
  | |- Vector3_addInPlace _ _ _ = _ => apply Vector3_addInPlace_run
  | |- Vector3_subtractInPlace _ _ _ = _ => apply Vector3_subtractInPlace_run
  | |- Vector3_scaleInPlace _ _ _ = _ => apply Vector3_scaleInPlace_run
  | |- Vector3_normalize _ _ = _ => apply Vector3_normalize_run
  | |- Vector3_length _ _ = _ => apply Vector3_length_run
  | |- Vector3_lengthSquared _ _ = _ => apply Vector3_lengthSquared_run
  | |- Vector3_Normalize _ _ = _ => apply Vector3_Normalize_run
  end.

(** Run the first statement of the computation in the goal. *)
Ltac mstep :=
  first
    [ rewrite bind_bind_run
    | erewrite bind_run by op_run
    | rewrite ret_run | rewrite load_run | rewrite Vector3_add_run
    | rewrite Vector3_addInPlace_run ];
  cbv beta; heap_simp.

(** After [collide] is run on a store: the facts about what it returns. *)
Ltac run_collide lem :=
  lazymatch goal with
  | |- context [bind (VRMSpringBoneLogic.collide ?t ?w ?cs ?a) _ ?h] =>
      let nt := fresh "nt" in let h' := fresh "h" in
      let Heq := fresh "Heq" in let Hlt := fresh "Hlt" in let Hle := fresh "Hle" in
      let Hval := fresh "Hval" in let Hframe := fresh "Hframe" in
      edestruct (lem t w cs a h) as (nt & h' & Heq & Hlt & Hle & Hval & Hframe);
      [ heap_simp; reflexivity | lia | heap_simp; reflexivity
      | erewrite bind_run by exact Heq; cbv beta ]
  | |- context [bind (VRMSpringBoneLogicCS.collide ?t ?c ?cs ?a) _ ?h] =>
      let nt := fresh "nt" in let h' := fresh "h" in
      let Heq := fresh "Heq" in let Hlt := fresh "Hlt" in let Hle := fresh "Hle" in
      let Hval := fresh "Hval" in let Hframe := fresh "Hframe" in
      edestruct (lem t c cs a h) as (nt & h' & Heq & Hlt & Hle & Hval & Hframe);
      [ heap_simp; reflexivity | lia | heap_simp; reflexivity
      | erewrite bind_run by exact Heq; cbv beta ]
  end.

(** ** What the updates compute *)

Section UpdateValues.
Context {F : Type} {N : JSNumber F} {E : Engine F}.
Import Values.

(** [collide] returns an object whose value is [collideAll] of the value of
    the object it is given, and writes to no object that existed before. *)
Lemma collide_value (this : VRMSpringBoneLogic.t F) (w : Scene F)
  (colliders : list (SphereCollider F)) (nt : ref) (h : Heap F)
  (n : nat) (v : Vector3 F) :
  next h = n -> nt < n -> cell h nt = v ->
  exists nt' h',
    VRMSpringBoneLogic.collide this w colliders nt h = (nt', h')
    /\ nt' < next h' /\ n <= next h'
    /\ cell h' nt' = collideAll this w colliders v
    /\ (forall a, a < n -> cell h' a = cell h a).
Proof.
  revert nt h n v. induction colliders as [|c cs IH]; intros nt h n v Hn Hnt Hv.
  - exists nt, h. cbn. subst. repeat split; auto.
  - cbn [VRMSpringBoneLogic.collide collideAll fold_left].
    unfold collideStep at 2. unfold hit, pushed, rigid.
    do 2 mstep. rewrite Hv.
    destruct (num_le _ _) eqn:Hhit; cbv iota; repeat mstep;
      match goal with |- context [VRMSpringBoneLogic.collide this w cs ?a ?b] =>
        edestruct (IH a b) as (nt' & h' & Heq & Hlt & Hle & Hval & Hframe);
          [ heap_simp; reflexivity | lia
          | heap_simp; try rewrite Hv; reflexivity |] end;
      exists nt', h'; rewrite Heq;
      (repeat split; auto; try lia;
       intros a Ha; rewrite Hframe by lia; heap_simp; reflexivity).
Qed.

Lemma collideCS_value (this : VRMSpringBoneLogicCS.t F) (c : Vector3 F)
  (colliders : list (SphereCollider F)) (nt : ref) (h : Heap F)
  (n : nat) (v : Vector3 F) :
  next h = n -> nt < n -> cell h nt = v ->
  exists nt' h',
    VRMSpringBoneLogicCS.collide this c colliders nt h = (nt', h')
    /\ nt' < next h' /\ n <= next h'
    /\ cell h' nt' = collideAllCS this c colliders v
    /\ (forall a, a < n -> cell h' a = cell h a).
Proof.
  revert nt h n v. induction colliders as [|cl cs IH]; intros nt h n v Hn Hnt Hv.
  - exists nt, h. cbn. subst. repeat split; auto.
  - cbn [VRMSpringBoneLogicCS.collide collideAllCS fold_left].
    unfold collideStepCS at 2. unfold hit, pushed, rigid', testCentreCS.
    do 4 mstep. rewrite Hv.
    destruct (num_le _ _) eqn:Hhit; cbv iota; repeat mstep;
      match goal with |- context [VRMSpringBoneLogicCS.collide this c cs ?a ?b] =>
        edestruct (IH a b) as (nt' & h' & Heq & Hlt & Hle & Hval & Hframe);
          [ heap_simp; reflexivity | lia
          | heap_simp; try rewrite Hv; reflexivity |] end;
      exists nt', h'; rewrite Heq;
      (repeat split; auto; try lia;
       intros a Ha; rewrite Hframe by lia; heap_simp; reflexivity).
Qed.

Lemma collideFrom_value (this : VRMSpringBoneLogic.t F) (w : Scene F)
  (colliders : list (SphereCollider F)) (tail : Vector3 F) :
  VRMSpringBoneLogic.collideFrom this w colliders tail
  = collideAll this w colliders tail.
Proof.
  unfold VRMSpringBoneLogic.collideFrom, run.
  mstep. run_collide collide_value. mstep. rewrite Hval. reflexivity.
Qed.

Lemma collideFromCS_value (this : VRMSpringBoneLogicCS.t F) (c : Vector3 F)
  (colliders : list (SphereCollider F)) (tail : Vector3 F) :
  VRMSpringBoneLogicCS.collideFrom this c colliders tail
  = collideAllCS this c colliders tail.
Proof.
  unfold VRMSpringBoneLogicCS.collideFrom, run.
  mstep. run_collide collideCS_value. mstep. rewrite Hval. reflexivity.
Qed.

(** What [update] of vrm-spring-bone-logic.ts computes when the guard lets it
    run. *)
Lemma update_value (this : VRMSpringBoneLogic.t F) (center : option nodeId)
  (stiffnessForce dragForce : F) (external : Vector3 F)
  (colliders : list (SphereCollider F)) (w : Scene F) :
  num_isNaN (vx (absolutePosition (w (VRMSpringBoneLogic.transform this)))) = false ->
  let c := centerOf w center in
  let absPos := absolutePosition (w (VRMSpringBoneLogic.transform this)) in
  let tail := finalTail this center stiffnessForce dragForce external colliders w in
  VRMSpringBoneLogic.update this center stiffnessForce dragForce external colliders w
  = (VRMSpringBoneLogic.set_frame_and_tails this c
       (vsub tail c)
       (vsub (freeTail this center stiffnessForce dragForce external w) c),
     VRMSpringBoneLogic.setAbsoluteRotationQuaternion w
       (VRMSpringBoneLogic.transform this)
       (Quaternion_multiply
          (fromToRotation (restAxis this w) (vnormalize (vsub tail absPos)))
          (restRotation this w))).
Proof.
  intros Hnan c absPos tail.
  unfold VRMSpringBoneLogic.update, run, VRMSpringBoneLogic.update_body.
  unfold getAbsolutePosition. rewrite Hnan.
  subst c absPos tail. unfold finalTail, freeTail, centerOf, restAxis, restRotation, rigid.
  unfold VRMSpringBoneLogic.getCenterTranslatedWorldPos,
    VRMSpringBoneLogic.getCenterTranslatedPos, VRMSpringBoneLogic.centerPosition,
    VRMSpringBoneLogic.transformToRotation.
  destruct center as [cn|]; repeat mstep; run_collide collide_value;
    repeat mstep; rewrite ?Hval; rewrite ?Hframe by lia; heap_simp; reflexivity.
Qed.

(** What [update] of the centre-space copy computes when the guard lets it
    run. *)
Lemma updateCS_value (this : VRMSpringBoneLogicCS.t F) (center : option nodeId)
  (stiffnessForce dragForce : F) (external : Vector3 F)
  (colliders : list (SphereCollider F)) (w : Scene F) :
  num_isNaN (vx (absolutePosition (w (VRMSpringBoneLogicCS.transform this)))) = false ->
  let this' := frameCS this center w in
  let c := VRMSpringBoneLogicCS.deref w (VRMSpringBoneLogicCS.centerAbsolutePos this') in
  let tail := finalTailCS this center stiffnessForce dragForce external colliders w in
  VRMSpringBoneLogicCS.update this center stiffnessForce dragForce external colliders w
  = (VRMSpringBoneLogicCS.set_tails this' tail (VRMSpringBoneLogicCS.currentTail this),
     setNode w (VRMSpringBoneLogicCS.transform this)
       (set_rotationQuaternion (w (VRMSpringBoneLogicCS.transform this))
          (Some (Quaternion_multiply (VRMSpringBoneLogicCS.localRotation this)
                   (rotationCS this' c tail))))).
Proof.
  intros Hnan this' c tail.
  unfold VRMSpringBoneLogicCS.update, run, VRMSpringBoneLogicCS.update_body.
  rewrite Hnan.
  subst c tail this'.
  unfold finalTailCS, freeTailCS, restDirectionCS, rotationCS, frameCS, rigid.
  unfold VRMSpringBoneLogicCS.parentPosition,
    VRMSpringBoneLogicCS.transformToRotationLocal,
    VRMSpringBoneLogicCS.Vector3_rotateByQuaternionToRef.
  destruct (parent (w (VRMSpringBoneLogicCS.transform this))) as [p|];
    cbn [VRMSpringBoneLogicCS.set_frame VRMSpringBoneLogicCS.centerSpacePosition
         VRMSpringBoneLogicCS.boneLength VRMSpringBoneLogicCS.currentTail
         VRMSpringBoneLogicCS.prevTail VRMSpringBoneLogicCS.boneAxis
         VRMSpringBoneLogicCS.localRotation VRMSpringBoneLogicCS.localPosition
         VRMSpringBoneLogicCS.worldParentQuaternion
         VRMSpringBoneLogicCS.parentAbsolutePos
         VRMSpringBoneLogicCS.centerAbsolutePos];
    repeat mstep; run_collide collideCS_value;
    repeat mstep; rewrite ?Hval; heap_simp; reflexivity.
Qed.

(** When the guard stops it, [update] changes nothing. *)
Lemma update_skipped (this : VRMSpringBoneLogic.t F) (center : option nodeId)
  (stiffnessForce dragForce : F) (external : Vector3 F)
  (colliders : list (SphereCollider F)) (w : Scene F) :
  num_isNaN (vx (absolutePosition (w (VRMSpringBoneLogic.transform this)))) = true ->
  VRMSpringBoneLogic.update this center stiffnessForce dragForce external colliders w
  = (this, w).
Proof.
  intro Hnan.
  unfold VRMSpringBoneLogic.update, run, VRMSpringBoneLogic.update_body.
  unfold getAbsolutePosition. rewrite Hnan. reflexivity.
Qed.

Lemma updateCS_skipped (this : VRMSpringBoneLogicCS.t F) (center : option nodeId)
  (stiffnessForce dragForce : F) (external : Vector3 F)
  (colliders : list (SphereCollider F)) (w : Scene F) :
  num_isNaN (vx (absolutePosition (w (VRMSpringBoneLogicCS.transform this)))) = true ->
  VRMSpringBoneLogicCS.update this center stiffnessForce dragForce external colliders w
  = (this, w).
Proof.
  intro Hnan.
  unfold VRMSpringBoneLogicCS.update, run, VRMSpringBoneLogicCS.update_body.
  rewrite Hnan. reflexivity.
Qed.

End UpdateValues.

(** ** Construction *)

Section Construction.
Context {F : Type} {N : JSNumber F} {E : Engine F}.
Local Open Scope num_scope.

Lemma setNode_same (w : Scene F) (n : nodeId) (o : TransformNode F) :
  setNode w n o n = o.
Proof. unfold setNode. now rewrite Nat.eqb_refl. Qed.

Lemma setNode_other (w : Scene F) (n m : nodeId) (o : TransformNode F) :
  m <> n -> setNode w n o m = w m.
Proof. intro H. unfold setNode. apply Nat.eqb_neq in H. now rewrite H. Qed.

(** After the first lines of the constructor the node has a quaternion: the
    one it had, or the one made from its Euler angles. *)
Lemma initRotationQuaternions_node (transform : nodeId) (w : Scene F) :
  rotationQuaternion (VRMSpringBoneLogic.initRotationQuaternions transform w transform)
  = Some (VRMSpringBoneLogic.initializedQuaternion (w transform)).
Proof.
  unfold VRMSpringBoneLogic.initRotationQuaternions,
    VRMSpringBoneLogic.initializedQuaternion.
  destruct (rotationQuaternion (w transform)) as [q|] eqn:Hq.
  - destruct (parent (w transform)) as [p|]; [|exact Hq].
    destruct (rotationQuaternion (w p)) as [qp|] eqn:Hp; [exact Hq|].
    destruct (Nat.eq_dec transform p) as [->|Hne]; [congruence|].
    rewrite setNode_other by assumption. exact Hq.
  - rewrite setNode_same. cbn [parent set_rotationQuaternion].
    destruct (parent (w transform)) as [p|]; [|now rewrite setNode_same].
    destruct (Nat.eq_dec p transform) as [->|Hne].
    + rewrite setNode_same. cbn [rotationQuaternion set_rotationQuaternion].
      now rewrite setNode_same.
    + rewrite (setNode_other w _ _ _ Hne).
      destruct (rotationQuaternion (w p)) as [qp|] eqn:Hp.
      * now rewrite setNode_same.
      * rewrite setNode_other by auto. now rewrite setNode_same.
Qed.

(** And so has its parent, if it has one. *)
Lemma initRotationQuaternions_parent (transform p : nodeId) (w : Scene F) :
  parent (w transform) = Some p ->
  rotationQuaternion (VRMSpringBoneLogic.initRotationQuaternions transform w p)
  = Some (VRMSpringBoneLogic.initializedQuaternion (w p)).
Proof.
  intro Hp.
  destruct (Nat.eq_dec p transform) as [->|Hne];
    [apply initRotationQuaternions_node|].
  unfold VRMSpringBoneLogic.initRotationQuaternions,
    VRMSpringBoneLogic.initializedQuaternion.
  destruct (rotationQuaternion (w transform)) as [q|] eqn:Hq.
  - rewrite Hp. destruct (rotationQuaternion (w p)) as [qp|] eqn:Hqp; [exact Hqp|].
    now rewrite setNode_same.
  - rewrite setNode_same. cbn [parent set_rotationQuaternion]. rewrite Hp.
    rewrite (setNode_other w _ _ _ Hne).
    destruct (rotationQuaternion (w p)) as [qp|] eqn:Hqp.
    + rewrite setNode_other by assumption. exact Hqp.
    + now rewrite setNode_same.
Qed.

(** The first lines write to no other field of any node. *)
Lemma initRotationQuaternions_fields (transform n : nodeId) (w : Scene F) :
  let w' := VRMSpringBoneLogic.initRotationQuaternions transform w in
  rotation (w' n) = rotation (w n) /\ position (w' n) = position (w n)
  /\ parent (w' n) = parent (w n) /\ absolutePosition (w' n) = absolutePosition (w n).
Proof.
  unfold VRMSpringBoneLogic.initRotationQuaternions.
  assert (Hset : forall (v : Scene F) m q k,
    rotation (setNode v m (set_rotationQuaternion (v m) q) k) = rotation (v k)
    /\ position (setNode v m (set_rotationQuaternion (v m) q) k) = position (v k)
    /\ parent (setNode v m (set_rotationQuaternion (v m) q) k) = parent (v k)
    /\ absolutePosition (setNode v m (set_rotationQuaternion (v m) q) k)
       = absolutePosition (v k)).
  { intros v m q k. unfold setNode. destruct (Nat.eqb_spec k m) as [->|Hne]; auto. }
  cbv zeta.
  destruct (rotationQuaternion (w transform)) as [q|] eqn:Hq.
  - destruct (parent (w transform)) as [p|]; auto.
    destruct (rotationQuaternion (w p)); auto.
  - set (w1 := setNode w transform _).
    assert (H1 : rotation (w1 n) = rotation (w n) /\ position (w1 n) = position (w n)
      /\ parent (w1 n) = parent (w n) /\ absolutePosition (w1 n) = absolutePosition (w n))
      by apply Hset.
    destruct (parent (w1 transform)) as [p|]; auto.
    destruct (rotationQuaternion (w1 p)); auto.
    destruct (Hset w1 p (Some (toQuaternion (rotation (w1 p)))) n) as (A & B & C & D).
    destruct H1 as (A' & B' & C' & D').
    repeat split; congruence.
Qed.

(** C9.  Right after construction [prevTail] equals [currentTail], [boneAxis]
    is the normalized [localChildPosition] and [boneLength] is its Euclidean
    length, in both copies of the class; the constructor always returns. *)
Theorem constructor_rest_state (center : option nodeId) (radius : F)
  (transform : nodeId) (localChildPosition : Vector3 F) (w : Scene F) :
  (exists this w',
     VRMSpringBoneLogic.constructor center radius transform localChildPosition w
     = Some (this, w')
     /\ VRMSpringBoneLogic.prevTail this = VRMSpringBoneLogic.currentTail this
     /\ VRMSpringBoneLogic.boneAxis this = vnormalize localChildPosition
     /\ VRMSpringBoneLogic.boneLength this
        = num_sqrt (vx localChildPosition * vx localChildPosition
                    + vy localChildPosition * vy localChildPosition
                    + vz localChildPosition * vz localChildPosition))
  /\ (exists this w',
     VRMSpringBoneLogicCS.constructor center radius transform localChildPosition w
     = Some (this, w')
     /\ VRMSpringBoneLogicCS.prevTail this = VRMSpringBoneLogicCS.currentTail this
     /\ VRMSpringBoneLogicCS.boneAxis this = vnormalize localChildPosition
     /\ VRMSpringBoneLogicCS.boneLength this
        = num_sqrt (vx localChildPosition * vx localChildPosition
                    + vy localChildPosition * vy localChildPosition
                    + vz localChildPosition * vz localChildPosition)).
Proof.
  split.
  - unfold VRMSpringBoneLogic.constructor.
    rewrite initRotationQuaternions_node.
    eexists. eexists. split; [reflexivity|].
    unfold run, VRMSpringBoneLogic.centerPosition,
      VRMSpringBoneLogic.getCenterTranslatedPos.
    destruct center; repeat mstep; cbn [fst]; repeat split; reflexivity.
  - unfold VRMSpringBoneLogicCS.constructor, VRMSpringBoneLogicCS.init.
    rewrite initRotationQuaternions_node.
    eexists. eexists. split; [reflexivity|].
    unfold run, VRMSpringBoneLogicCS.parentPosition, VRMSpringBoneLogicCS.localToWorld,
      VRMSpringBoneLogicCS.Vector3_rotateByQuaternionToRef.
    destruct center;
      destruct (parent (VRMSpringBoneLogic.initRotationQuaternions transform w transform));
      repeat mstep; cbn [fst]; repeat split; reflexivity.
Qed.

(** C10.  The constructor of either copy always returns, and in the scene it
    leaves the node has a quaternion, the one it had or the one made from its
    Euler angles, and so has the parent of the node if there is one; no other
    field of any node is written. *)
Theorem constructor_initializes_rotationQuaternion (center : option nodeId)
  (radius : F) (transform : nodeId) (localChildPosition : Vector3 F) (w : Scene F) :
  let initialized (w' : Scene F) :=
    rotationQuaternion (w' transform) <> None
    /\ rotationQuaternion (w' transform)
       = Some (VRMSpringBoneLogic.initializedQuaternion (w transform))
    /\ (forall p, parent (w transform) = Some p ->
          rotationQuaternion (w' p) <> None
          /\ rotationQuaternion (w' p)
             = Some (VRMSpringBoneLogic.initializedQuaternion (w p)))
    /\ (forall n, rotation (w' n) = rotation (w n) /\ position (w' n) = position (w n)
                  /\ parent (w' n) = parent (w n)
                  /\ absolutePosition (w' n) = absolutePosition (w n)) in
  (exists this w',
     VRMSpringBoneLogic.constructor center radius transform localChildPosition w
     = Some (this, w') /\ initialized w')
  /\ (exists this w',
     VRMSpringBoneLogicCS.constructor center radius transform localChildPosition w
     = Some (this, w') /\ initialized w').
Proof.
  intro initialized.
  assert (Hinit : initialized (VRMSpringBoneLogic.initRotationQuaternions transform w)).
  { unfold initialized. split; [|split; [|split]].
    - rewrite initRotationQuaternions_node. discriminate.
    - apply initRotationQuaternions_node.
    - intros p Hp. rewrite (initRotationQuaternions_parent _ _ _ Hp).
      split; [discriminate | reflexivity].
    - intro n. apply initRotationQuaternions_fields. }
  split.
  - unfold VRMSpringBoneLogic.constructor.
    rewrite initRotationQuaternions_node.
    eexists. eexists. split; [reflexivity | exact Hinit].
  - unfold VRMSpringBoneLogicCS.constructor, VRMSpringBoneLogicCS.init.
    rewrite initRotationQuaternions_node.
    eexists. eexists. split; [reflexivity | exact Hinit].
Qed.

End Construction.

(** ** The validity guard and the two tails *)

Section Update.
Context {F : Type} {N : JSNumber F} {E : Engine F}.
Import Values.

(** C4, as amended.  When the x component of the absolute position of the
    node is NaN, [update] of either copy returns without a change: the object
    and the scene, with [currentTail], [prevTail] and every rotation, are
    what they were. *)
Theorem update_skipped_when_x_is_NaN
  (this : VRMSpringBoneLogic.t F) (thisCS : VRMSpringBoneLogicCS.t F)
  (center : option nodeId) (stiffnessForce dragForce : F) (external : Vector3 F)
  (colliders : list (SphereCollider F)) (w : Scene F) :
  num_isNaN (vx (absolutePosition (w (VRMSpringBoneLogic.transform this)))) = true ->
  num_isNaN (vx (absolutePosition (w (VRMSpringBoneLogicCS.transform thisCS)))) = true ->
  VRMSpringBoneLogic.update this center stiffnessForce dragForce external colliders w
  = (this, w)
  /\ VRMSpringBoneLogicCS.update thisCS center stiffnessForce dragForce external colliders w
  = (thisCS, w).
Proof.
  intros H1 H2. split.
  - apply update_skipped. exact H1.
  - apply updateCS_skipped. exact H2.
Qed.



End Update.

(** The skipped update at a node whose x is NaN. *)
Lemma update_skipped_when_x_is_NaN_witness :
  VRMSpringBoneLogic.update (E:=restEngine) unitBone None (num_lit 0) (num_lit 0)
    (vec 1 0 0) [] (sceneAt (mkVector3 nan 0 0)%float)
  = (unitBone, sceneAt (mkVector3 nan 0 0)%float)
  /\ VRMSpringBoneLogicCS.update (E:=restEngine) unitBoneCS None (num_lit 0) (num_lit 0)
    (vec 1 0 0) [] (sceneAt (mkVector3 nan 0 0)%float)
  = (unitBoneCS, sceneAt (mkVector3 nan 0 0)%float).
Proof.
  apply (@update_skipped_when_x_is_NaN float float_number restEngine);
    reflexivity.
Defined.

(** ** Geometry in exact arithmetic *)

Ltac numR :=
  cbn [num_lit num_0_02 num_add num_sub num_mul num_div num_neg num_sqrt
       num_isNaN num_eq num_le num_max num_min real_number] in *.

Section RealGeometry.
Import Values.
Local Open Scope R_scope.

Let V := Vector3 R.

Lemma Req_bool_true (a b : R) : a = b -> Req_bool a b = true.
Proof. intro H. unfold Req_bool. destruct (Req_dec_T a b); congruence. Qed.

Lemma Req_bool_false (a b : R) : a <> b -> Req_bool a b = false.
Proof. intro H. unfold Req_bool. destruct (Req_dec_T a b); congruence. Qed.

Lemma Rle_bool_true (a b : R) : a <= b -> Rle_bool a b = true.
Proof. intro H. unfold Rle_bool. destruct (Rle_dec a b); tauto. Qed.

Lemma vlengthSquared_nonneg (v : V) : 0 <= vlengthSquared v.
Proof. destruct v as [x y z]. unfold vlengthSquared. cbn. nra. Qed.

Lemma vlength_nonneg (v : V) : 0 <= vlength v.
Proof. unfold vlength. cbn. apply sqrt_pos. Qed.

Lemma vlength_sqr (v : V) : vlength v * vlength v = vlengthSquared v.
Proof. unfold vlength. cbn. apply sqrt_sqrt. apply vlengthSquared_nonneg. Qed.

Lemma vlength_zero (v : V) : vlength v = 0 -> v = mkVector3 0 0 0.
Proof.
  intro H. pose proof (vlength_sqr v) as Hs. rewrite H in Hs.
  destruct v as [x y z]. unfold vlengthSquared in Hs. cbn in Hs.
  assert (x = 0) by nra. assert (y = 0) by nra. assert (z = 0) by nra.
  subst. reflexivity.
Qed.

Lemma vlength_scale (v : V) (s : R) : 0 <= s -> vlength (vscale v s) = vlength v * s.
Proof.
  intro Hs.
  assert (H : vlengthSquared (vscale v s) = vlengthSquared v * (s * s)).
  { destruct v as [x y z]. unfold vlengthSquared, vscale. cbn. ring. }
  unfold vlength. cbn [num_sqrt real_number]. rewrite H.
  rewrite sqrt_mult; [| apply vlengthSquared_nonneg | nra].
  rewrite sqrt_square by assumption. reflexivity.
Qed.

(** A normalized vector has length one, unless it is the zero vector, which
    [normalize()] leaves as it is. *)
Lemma vnormalize_length (v : V) : v <> mkVector3 0 0 0 -> vlength (vnormalize v) = 1.
Proof.
  intro Hv. unfold vnormalize, vnormalizeFromLength. numR.
  assert (Hl : vlength v <> 0) by (intro H; apply Hv, vlength_zero, H).
  rewrite (Req_bool_false _ _ Hl). cbn [orb].
  unfold Req_bool. destruct (Req_dec_T (vlength v) 1) as [H1|H1]; [exact H1|].
  rewrite vlength_scale.
  - field. exact Hl.
  - pose proof (vlength_nonneg v). apply Rlt_le. apply Rdiv_lt_0_compat; lra.
Qed.

Lemma vnormalize_zero : vnormalize (mkVector3 0 0 0 : V) = mkVector3 0 0 0.
Proof.
  assert (H : vlength (mkVector3 0 0 0 : V) = 0).
  { unfold vlength, vlengthSquared. cbn.
    replace (0 * 0 + 0 * 0 + 0 * 0) with 0 by ring. apply sqrt_0. }
  unfold vnormalize, vnormalizeFromLength. numR.
  rewrite H. rewrite (Req_bool_true _ _ (eq_refl 0)). reflexivity.
Qed.

(** A vector of length one is normalized already. *)
Lemma vnormalize_unit (v : V) : vlengthSquared v = 1 -> vnormalize v = v.
Proof.
  intro H. unfold vnormalize, vnormalizeFromLength, vlength. numR.
  rewrite H, sqrt_1. rewrite (Req_bool_true _ _ (eq_refl 1)).
  rewrite orb_true_r. reflexivity.
Qed.

Lemma vsub_self (p : V) : vsub p p = mkVector3 0 0 0.
Proof. destruct p. unfold vsub. cbn. f_equal; ring. Qed.

Lemma vsub_zero_eq (p q : V) : vsub p q = mkVector3 0 0 0 -> p = q.
Proof.
  destruct p as [a b c], q as [d e f]. unfold vsub. cbn. intro H.
  injection H as H1 H2 H3. f_equal; lra.
Qed.

Lemma vadd_vsub (o s : V) : vsub (vadd o s) o = s.
Proof. destruct o, s. unfold vsub, vadd. cbn. f_equal; ring. Qed.





Lemma V_eq_dec (p q : V) : p = q \/ p <> q.
Proof.
  destruct p as [a b c], q as [d e f].
  destruct (Req_dec_T a d) as [->|H]; [|right; intro K; injection K; auto].
  destruct (Req_dec_T b e) as [->|H]; [|right; intro K; injection K; auto].
  destruct (Req_dec_T c f) as [->|H]; [|right; intro K; injection K; auto].
  left. reflexivity.
Qed.

(** The point [rigid origin L p] is at distance [L] from [origin] when [p]
    is not [origin], and is [origin] itself when [p] is. *)
Lemma rigid_distance (o : V) (L : R) (p : V) :
  0 <= L -> p <> o -> vlength (vsub (rigid o L p) o) = L.
Proof.
  intros HL Hp. unfold rigid. rewrite vadd_vsub.
  rewrite vlength_scale by assumption.
  rewrite vnormalize_length; [ring|].
  intro H. apply Hp. apply vsub_zero_eq. exact H.
Qed.

Lemma rigid_collapse (o : V) (L : R) : rigid o L o = o.
Proof.
  unfold rigid. rewrite vsub_self, vnormalize_zero.
  destruct o. unfold vadd, vscale. cbn. f_equal; ring.
Qed.

Lemma rigid_cases (o : V) (L : R) (p : V) :
  0 <= L -> vlength (vsub (rigid o L p) o) = L \/ rigid o L p = o.
Proof.
  intro HL. destruct (V_eq_dec p o) as [->|Hne].
  - right. apply rigid_collapse.
  - left. apply rigid_distance; assumption.
Qed.

(** The pushed point is at distance [r] from the centre of the sphere when
    the tail is not at the centre. *)
Lemma pushed_distance (r : R) (centre tail : V) :
  0 <= r -> tail <> centre -> vlength (vsub (pushed r centre tail) centre) = r.
Proof. intros. apply (rigid_distance centre r tail); assumption. Qed.


End RealGeometry.

(** ** The tail that an update leaves *)

Section Rigidity.
Context {F : Type} {N : JSNumber F} {E : Engine F}.
Import Values.
Local Open Scope num_scope.




End Rigidity.
(** ** Rigidity *)

Section RigidityClaims.
Import Values.



End RigidityClaims.

(** ** The updates on binary64 numbers *)

(** The unit bones are what the constructors make. *)
Lemma unitBone_constructed :
  option_map fst
    (VRMSpringBoneLogic.constructor (E:=restEngine) None (num_lit 0) 0 (vec 0 1 0)
       (sceneAt (F:=float) (vec 0 0 0)))
  = Some unitBone
  /\ option_map fst
    (VRMSpringBoneLogicCS.constructor (E:=restEngine) None (num_lit 0) 0 (vec 0 1 0)
       (sceneAt (F:=float) (vec 10 0 0)))
  = Some unitBoneCS.
Proof. split; vm_compute; reflexivity. Qed.


(** C2: the code falls short of the claim in vrm-spring-bone-logic.ts.  The
    unit bone at the origin, at rest, with the external force (1, 0, 0):
    [currentTail] is (0, 1, 0) before the update, and [prevTail] is (1, 1, 0)
    after it, the value of the object that [currentTail] and [nextTail] both
    name once the force was added to it in place.  The centre-space copy,
    which clones [currentTail], has the old [currentTail] in [prevTail]. *)
Theorem update_prevTail_is_the_moved_tail :
  let this' :=
    fst (VRMSpringBoneLogic.update (E:=restEngine) (unitBone (F:=float)) None
           (num_lit 0) (num_lit 0) (vec 1 0 0) [] (sceneAt (vec 0 0 0))) in
  let thisCS' :=
    fst (VRMSpringBoneLogicCS.update (E:=restEngine) (unitBoneCS (F:=float)) None
           (num_lit 0) (num_lit 0) (vec 1 0 0) [] (sceneAt (vec 10 0 0))) in
  VRMSpringBoneLogic.currentTail (unitBone (F:=float)) = vec 0 1 0
  /\ VRMSpringBoneLogic.prevTail this' = vec 1 1 0
  /\ VRMSpringBoneLogicCS.prevTail thisCS'
     = VRMSpringBoneLogicCS.currentTail (unitBoneCS (F:=float)).
Proof. vm_compute. repeat split; reflexivity. Qed.

(** C4 is refuted.  The unit bones under a node whose absolute position has
    a NaN in y, and under one with an infinite x: the update is not skipped.
    In vrm-spring-bone-logic.ts [prevTail] changes from (0, 1, 0) to
    (1, 1, 0); in the centre-space copy [currentTail] changes from (10, 1, 0)
    to NaNs. *)
Lemma update_runs_on_other_non_finite_positions :
  let update w :=
    fst (VRMSpringBoneLogic.update (E:=restEngine) unitBone None (num_lit 0) (num_lit 0)
           (vec 1 0 0) [] w) in
  let updateCS w :=
    fst (VRMSpringBoneLogicCS.update (E:=restEngine) unitBoneCS None (num_lit 0)
           (num_lit 0) (vec 1 0 0) [] w) in
  VRMSpringBoneLogic.prevTail (unitBone (F:=float)) = vec 0 1 0
  /\ VRMSpringBoneLogic.prevTail (update (sceneAt (mkVector3 0 nan 0)%float)) = vec 1 1 0
  /\ VRMSpringBoneLogic.prevTail (update (sceneAt (mkVector3 infinity 0 0)%float))
     = vec 1 1 0
  /\ VRMSpringBoneLogicCS.currentTail (unitBoneCS (F:=float)) = vec 10 1 0
  /\ VRMSpringBoneLogicCS.currentTail (updateCS (sceneAt (mkVector3 10 nan 0)%float))
     = mkVector3 nan nan nan
  /\ VRMSpringBoneLogicCS.currentTail (updateCS (sceneAt (mkVector3 infinity 0 0)%float))
     = mkVector3 nan nan nan.
Proof. vm_compute. repeat split; reflexivity. Qed.

(** C7: the code falls short of the claim in the centre-space copy, whose
    [collide] carries the comment that the collider positions passed in are
    absolute positions and yet shifts them.  The unit bone under a node at
    (10, 0, 0), tail at (10, 1, 0), and a collider of radius 1 at
    (10.5, 1, 0): the squared distance between the tail and the position of
    the collider passes the test of the claim, yet [collide] tests against
    (20.5, 1, 0) and leaves the tail where it is; vrm-spring-bone-logic.ts
    moves it. *)
Theorem centre_space_collide_misses_the_collider :
  let ball := mkSphereCollider (mkVector3 10.5 1 0)%float 1%float in
  let w := sceneAt (F:=float) (vec 10 0 0) in
  let tail colliders :=
    VRMSpringBoneLogicCS.currentTail
      (fst (VRMSpringBoneLogicCS.update (E:=restEngine) unitBoneCS None (num_lit 0)
              (num_lit 0) (vec 0 0 0) colliders w)) in
  let tailWS :=
    VRMSpringBoneLogic.currentTail
      (fst (VRMSpringBoneLogic.update (E:=restEngine)
              (VRMSpringBoneLogic.mk (num_lit 0) 0 Quaternion_Identity (vec 0 1 0)
                 (num_lit 1) (vec 0 0 0) (vec 10 1 0) (vec 10 1 0))
              None (num_lit 0) (num_lit 0) (vec 0 0 0) [ball] w)) in
  tail [] = vec 10 1 0
  /\ Values.hit (num_add (VRMSpringBoneLogicCS.radius unitBoneCS) (collider_radius ball))
       (collider_position ball) (tail []) = true
  /\ tail [ball] = vec 10 1 0
  /\ Values.testCentreCS (vec 0 0 0) (vec 10 0 0) ball = (mkVector3 20.5 1 0)%float
  /\ PrimFloat.ltb (vx tailWS) 10 = true.
Proof. vm_compute. repeat split; reflexivity. Qed.


(** ** The order of binary64 numbers *)

Section FloatOrder.

Lemma SFcompare_antisym (x y : spec_float) :
  SFcompare y x = option_map CompOpp (SFcompare x y).
Proof.
  destruct x as [sx|sx| |sx mx ex], y as [sy|sy| |sy my ey]; simpl;
    try destruct sx; try destruct sy; simpl; try reflexivity.
  - rewrite (Z.compare_antisym ex ey).
    destruct (Z.compare ex ey); simpl; try reflexivity.
    rewrite (Pos.compare_cont_antisym mx my Eq). simpl. reflexivity.
  - rewrite (Z.compare_antisym ex ey).
    destruct (Z.compare ex ey); simpl; try reflexivity.
    rewrite (Pos.compare_cont_antisym mx my Eq). simpl.
    destruct (Pos.compare_cont Eq mx my); reflexivity.
Qed.

Lemma SFcompare_nan (x y : spec_float) :
  SFcompare x y = None -> SFcompare x x = None \/ SFcompare y y = None.
Proof.
  destruct x as [sx|sx| |sx mx ex], y as [sy|sy| |sy my ey]; simpl;
    try destruct sx; try destruct sy; simpl; auto; discriminate.
Qed.

Lemma is_nan_false (x : float) :
  PrimFloat.is_nan x = false -> SFcompare (Prim2SF x) (Prim2SF x) <> None.
Proof.
  unfold PrimFloat.is_nan. rewrite FloatAxioms.eqb_spec. unfold SFeqb.
  destruct (SFcompare (Prim2SF x) (Prim2SF x)); simpl; congruence.
Qed.

Lemma ltb_leb (x y : float) : PrimFloat.ltb x y = true -> PrimFloat.leb x y = true.
Proof.
  rewrite FloatAxioms.ltb_spec, FloatAxioms.leb_spec. unfold SFltb, SFleb.
  destruct (SFcompare (Prim2SF x) (Prim2SF y)) as [[]|]; congruence.
Qed.

Lemma not_ltb_leb (x y : float) :
  PrimFloat.is_nan x = false -> PrimFloat.is_nan y = false ->
  PrimFloat.ltb x y = false -> PrimFloat.leb y x = true.
Proof.
  intros Hx Hy. apply is_nan_false in Hx. apply is_nan_false in Hy.
  rewrite FloatAxioms.ltb_spec, FloatAxioms.leb_spec. unfold SFltb, SFleb.
  rewrite (SFcompare_antisym (Prim2SF x) (Prim2SF y)).
  destruct (SFcompare (Prim2SF x) (Prim2SF y)) as [[]|] eqn:Hc; simpl; try congruence.
  destruct (SFcompare_nan _ _ Hc); contradiction.
Qed.

Lemma leb_not_ltb (x y : float) : PrimFloat.leb x y = true -> PrimFloat.ltb y x = false.
Proof.
  rewrite FloatAxioms.ltb_spec, FloatAxioms.leb_spec. unfold SFltb, SFleb.
  rewrite (SFcompare_antisym (Prim2SF x) (Prim2SF y)).
  destruct (SFcompare (Prim2SF x) (Prim2SF y)) as [[]|]; simpl; congruence.
Qed.

Lemma not_ltb_eqb (x y : float) :
  PrimFloat.is_nan x = false -> PrimFloat.is_nan y = false ->
  PrimFloat.ltb x y = false -> PrimFloat.ltb y x = false -> PrimFloat.eqb x y = true.
Proof.
  intros Hx Hy. apply is_nan_false in Hx. apply is_nan_false in Hy.
  rewrite !FloatAxioms.ltb_spec, FloatAxioms.eqb_spec. unfold SFltb, SFeqb.
  rewrite (SFcompare_antisym (Prim2SF x) (Prim2SF y)).
  destruct (SFcompare (Prim2SF x) (Prim2SF y)) as [[]|] eqn:Hc; simpl; try congruence.
  destruct (SFcompare_nan _ _ Hc); contradiction.
Qed.

(** [Math.max(0, Math.min(125, dt))] lies in [0, 125] unless [dt] is NaN, and
    is [dt] when [dt] lies there. *)
Lemma clamp_range (dt : float) :
  PrimFloat.is_nan dt = false ->
  let c := float_max 0 (float_min 125 dt) in
  PrimFloat.leb 0 c = true /\ PrimFloat.leb c 125 = true
  /\ (PrimFloat.leb 0 dt = true -> PrimFloat.leb dt 125 = true ->
      PrimFloat.eqb c dt = true).
Proof.
  intros Hn c. subst c.
  assert (H125 : PrimFloat.is_nan 125 = false) by reflexivity.
  assert (H0 : PrimFloat.is_nan 0 = false) by reflexivity.
  unfold float_min. rewrite H125, Hn. cbn [orb].
  assert (Hz : is_neg_zero 125 = false) by reflexivity. rewrite Hz.
  assert (Hm : exists m, (if PrimFloat.ltb 125 dt then 125%float
                          else if PrimFloat.ltb dt 125 then dt else dt) = m
               /\ PrimFloat.is_nan m = false /\ PrimFloat.leb m 125 = true
               /\ (PrimFloat.leb dt 125 = true -> m = dt)).
  { destruct (PrimFloat.ltb 125 dt) eqn:H1.
    - exists 125%float. repeat split; auto.
      intro H. apply leb_not_ltb in H. congruence.
    - exists dt. repeat split; auto;
        try (destruct (PrimFloat.ltb dt 125); reflexivity).
      apply not_ltb_leb; auto. }
  destruct Hm as (m & -> & Hmn & Hm125 & Hmdt).
  unfold float_max. rewrite H0, Hmn. cbn [orb].
  assert (Hz0 : is_neg_zero 0 = false) by reflexivity. rewrite Hz0.
  destruct (PrimFloat.ltb 0 m) eqn:H2.
  - repeat split; auto.
    + apply ltb_leb; exact H2.
    + intros _ H. rewrite (Hmdt H). unfold PrimFloat.is_nan in Hn.
      destruct (PrimFloat.eqb dt dt); simpl in Hn; congruence.
  - assert (Hc : (if PrimFloat.ltb m 0 then 0%float else 0%float) = 0%float)
      by (destruct (PrimFloat.ltb m 0); reflexivity).
    rewrite Hc. repeat split; try reflexivity.
    intros Hd0 Hd. rewrite (Hmdt Hd) in H2.
    apply not_ltb_eqb; auto. apply leb_not_ltb. exact Hd0.
Qed.

End FloatOrder.

(** ** The controller *)

Section ControllerFacts.
Context {F : Type} {N : JSNumber F}.
Import SpringBoneController.

Lemma fold_left_push {A B} (f : A -> B) (l : list A) (acc : list B) :
  fold_left (fun acc x => acc ++ [f x]) l acc = acc ++ map f l.
Proof.
  revert acc. induction l as [|a l IH]; intro acc; simpl.
  - now rewrite app_nil_r.
  - rewrite IH. rewrite <- app_assoc. reflexivity.
Qed.

(** [constructSprings] makes one spring for each bone group, in order. *)
Lemma constructSprings_map (ext : IVRMSecondaryAnimation F) (gb : getBone)
  (cgs : list (ColliderGroup F)) (options : option (ConstructSpringsOptions F)) :
  exists f,
    constructSprings ext gb cgs options = map f (orEmpty (boneGroups ext))
    /\ forall s,
        sb_comment (f s) = comment s
        /\ sb_stiffness (f s)
           = overrideNumber (optField options (@opt_stiffness F)) (stiffiness s)
        /\ sb_gravityPower (f s)
           = overrideNumber (optField options (@opt_gravityPower F)) (gravityPower s)
        /\ sb_gravityDir (f s)
           = overrideObject (optField options (@opt_gravityDir F))
               (vnormalize (mkVector3 (num_neg (vx (gravityDir s))) (vy (gravityDir s))
                                      (num_neg (vz (gravityDir s)))))
        /\ sb_dragForce (f s)
           = overrideNumber (optField options (@opt_dragForce F)) (dragForce s)
        /\ sb_center (f s) = gb (center s)
        /\ sb_hitRadius (f s)
           = overrideNumber (optField options (@opt_hitRadius F)) (hitRadius s)
        /\ sb_bones (f s) = map gb (orEmpty (bones s))
        /\ sb_colliderGroups (f s)
           = map (index cgs) (orEmpty (spring_colliderGroups s)).
Proof.
  eexists. split.
  - unfold constructSprings. destruct (boneGroups ext) as [[|g gs]|]; simpl; try reflexivity.
    rewrite (fold_left_push _ gs). simpl. reflexivity.
  - intro s. simpl. repeat split; reflexivity.
Qed.

(** [constructColliderGroups] makes one group for each configured group, in
    order, owned by whatever the resolver returns. *)
Lemma constructColliderGroups_map (ext : IVRMSecondaryAnimation F) (gb : getBone) :
  exists f,
    constructColliderGroups ext gb = map f (orEmpty (colliderGroups ext))
    /\ forall g, cg_transform (f g) = gb (node g)
                 /\ List.length (cg_colliders (f g)) = List.length (colliders g).
Proof.
  eexists. split.
  - unfold constructColliderGroups.
    destruct (colliderGroups ext) as [[|g gs]|]; simpl; try reflexivity.
    rewrite (fold_left_push _ gs). simpl. reflexivity.
  - intro g. simpl. split.
    + assert (H : forall l acc, cg_transform (fold_left
          (fun g0 collider => addCollider g0
             (mkVector3 (num_neg (vx (offset collider))) (vy (offset collider))
                        (num_neg (vz (offset collider))))
             (collider_cfg_radius collider)) l acc) = cg_transform acc).
      { induction l; intro acc; simpl; auto. rewrite IHl. reflexivity. }
      rewrite H. reflexivity.
    + assert (H : forall l acc, List.length (cg_colliders (fold_left
          (fun g0 collider => addCollider g0
             (mkVector3 (num_neg (vx (offset collider))) (vy (offset collider))
                        (num_neg (vz (offset collider))))
             (collider_cfg_radius collider)) l acc))
          = (List.length (cg_colliders acc) + List.length l)%nat).
      { induction l; intro acc; simpl; auto. rewrite IHl. simpl.
        rewrite length_app. simpl. lia. }
      rewrite H. reflexivity.
Qed.

(** The loop over the springs calls the callback once for every spring, in
    list order, on the scene that the springs before it have left. *)
Lemma forEachSpring_nth
  (f : VRMSpringBone F -> Scene F -> VRMSpringBone F * Scene F)
  (springs : list (VRMSpringBone F)) (w : Scene F) :
  let sceneBefore (n : nat) :=
    fold_left (fun w s => snd (f s w)) (firstn n springs) w in
  List.length (fst (forEachSpring f springs w)) = List.length springs
  /\ (forall n s,
        nth_error springs n = Some s ->
        nth_error (fst (forEachSpring f springs w)) n = Some (fst (f s (sceneBefore n))))
  /\ snd (forEachSpring f springs w) = sceneBefore (List.length springs).
Proof.
  cbv zeta. revert w. induction springs as [|a l IH]; intro w.
  - cbn. repeat split. intros [|n] s H; discriminate.
  - cbn [forEachSpring]. destruct (f a w) as [a' w'] eqn:Ha.
    specialize (IH w'). destruct (forEachSpring f l w') as [l' w''] eqn:Hl.
    cbn [fst snd] in IH. destruct IH as (Hlen & Hnth & Hscene).
    cbn [fst snd List.length]. split; [congruence|]. split.
    + intros [|n] s H; cbn [nth_error firstn fold_left] in *.
      * injection H as <-. rewrite Ha. reflexivity.
      * rewrite Ha. cbn [snd]. apply Hnth. exact H.
    + cbn [firstn fold_left]. rewrite Ha. exact Hscene.
Qed.

End ControllerFacts.

Section ControllerOnFloats.
Import SpringBoneController.

(** C6 is refuted.  An override of the gravity direction by the zero vector
    is used: the spring gets (0, 0, 0), not the authored direction, which
    it gets without the override. *)
Lemma zero_gravityDir_overrides :
  map (@sb_gravityDir float)
      (springs (constructor danglingConfig noBone (Some zeroGravityOptions)))
  = [mkVector3 0 0 0]%float
  /\ map (@sb_gravityDir float) (springs (constructor danglingConfig noBone None))
  = [mkVector3 (-0) (-1) (-0)]%float.
Proof. split; reflexivity. Qed.

(** C6, as amended.  For stiffness, gravityPower, dragForce and hitRadius the
    override replaces the authored value exactly when it is present and
    neither zero nor NaN; an override of exactly zero leaves the authored
    value.  For gravityDir the override replaces the authored direction
    whenever it is present, the zero vector included; the authored direction
    is normalized after its X and Z are negated. *)
Theorem override_precedence (ext : IVRMSecondaryAnimation float) (gb : getBone)
  (options : option (ConstructSpringsOptions float)) :
  let this := constructor ext gb options in
  let groups := orEmpty (boneGroups ext) in
  let number (o : option float) (authored : float) :=
    match o with
    | Some v => if PrimFloat.eqb v 0 || PrimFloat.is_nan v then authored else v
    | None => authored
    end in
  map (@sb_stiffness float) (springs this)
  = map (fun s => number (optField options (@opt_stiffness float)) (stiffiness s)) groups
  /\ map (@sb_gravityPower float) (springs this)
  = map (fun s => number (optField options (@opt_gravityPower float)) (gravityPower s))
        groups
  /\ map (@sb_dragForce float) (springs this)
  = map (fun s => number (optField options (@opt_dragForce float)) (dragForce s)) groups
  /\ map (@sb_hitRadius float) (springs this)
  = map (fun s => number (optField options (@opt_hitRadius float)) (hitRadius s)) groups
  /\ map (@sb_gravityDir float) (springs this)
  = map (fun s =>
           match optField options (@opt_gravityDir float) with
           | Some d => d
           | None => vnormalize (mkVector3 (- vx (gravityDir s)) (vy (gravityDir s))
                                           (- vz (gravityDir s)))%float
           end) groups.
Proof.
  intros this groups number. subst this groups. unfold constructor. cbn [springs].
  destruct (constructSprings_map ext gb (constructColliderGroups ext gb) options)
    as (fs & Hs & Hfs).
  rewrite Hs. rewrite !map_map.
  assert (Hnum : forall o a, overrideNumber o a = number o a).
  { intros [v|] a; simpl; auto. unfold truthy. cbn.
    destruct (PrimFloat.eqb v 0 || PrimFloat.is_nan v); reflexivity. }
  repeat split; apply map_ext; intro s;
    destruct (Hfs s) as (_ & H1 & H2 & H3 & H4 & _ & H5 & _);
    rewrite ?H1, ?H2, ?H3, ?H4, ?H5, ?Hnum; auto.
Qed.

Variable spring_update :
  float -> option (ConstructSpringsOptions float) -> VRMSpringBone float -> Scene float
  -> VRMSpringBone float * Scene float.

(** C5, as amended.  For a [deltaTime] that is not NaN, [update] passes on
    the step [max(0, min(125, deltaTime)) / 1000]: the clamped value lies in
    [0, 125] and is [deltaTime] when [deltaTime] lies there.  Every spring
    of the list is updated once with that step, in list order, on the scene
    that the springs before it have left, and the list keeps its length and
    order.  The steps for 5000 and for 125 are both 0.125, and the two
    updates leave the same springs and scene. *)
Theorem update_clamps_deltaTime (this : t float)
  (boneOptions : option (ConstructSpringsOptions float)) (w : Scene float)
  (deltaTime : float) :
  PrimFloat.is_nan deltaTime = false ->
  let clamped := num_max (num_lit 0) (num_min (num_lit 125) deltaTime) in
  let step := (clamped / 1000)%float in
  let result := update spring_update this deltaTime boneOptions w in
  let sceneBefore (n : nat) :=
    fold_left (fun w s => snd (spring_update step boneOptions s w))
      (firstn n (springs this)) w in
  (PrimFloat.leb 0 clamped = true /\ PrimFloat.leb clamped 125 = true)
  /\ (PrimFloat.leb 0 deltaTime = true -> PrimFloat.leb deltaTime 125 = true ->
      PrimFloat.eqb clamped deltaTime = true)
  /\ ext (fst result) = ext this
  /\ List.length (springs (fst result)) = List.length (springs this)
  /\ (forall n s,
        nth_error (springs this) n = Some s ->
        nth_error (springs (fst result)) n
        = Some (fst (spring_update step boneOptions s (sceneBefore n))))
  /\ snd result = sceneBefore (List.length (springs this))
  /\ clampDeltaTime (num_lit 5000) = 0.125%float
  /\ clampDeltaTime (num_lit 125) = 0.125%float
  /\ update spring_update this (num_lit 5000) boneOptions w
     = update spring_update this (num_lit 125) boneOptions w.
Proof.
  intros Hnan clamped step result sceneBefore.
  destruct (clamp_range deltaTime Hnan) as (H0 & H125 & Hid).
  destruct (forEachSpring_nth (spring_update step boneOptions) (springs this) w)
    as (Hlen & Hnth & Hscene).
  assert (Hres : result
                 = (mk (ext this)
                      (fst (forEachSpring (spring_update step boneOptions)
                              (springs this) w)),
                    snd (forEachSpring (spring_update step boneOptions)
                           (springs this) w))).
  { subst result. unfold update, clampDeltaTime. fold clamped. fold step.
    destruct (forEachSpring _ _ _). reflexivity. }
  rewrite Hres. cbn [fst snd ext springs].
  split; [split; [exact H0 | exact H125]|].
  split; [exact Hid|].
  split; [reflexivity|].
  split; [exact Hlen|].
  split; [exact Hnth|].
  split; [exact Hscene|].
  repeat split.
Qed.

End ControllerOnFloats.

(** A step of 5000 milliseconds, which is not NaN. *)
Lemma update_clamps_deltaTime_witness :
  SpringBoneController.update recordStep oneSpring (num_lit 5000) None
    (sceneAt (vec 0 0 0))
  = SpringBoneController.update recordStep oneSpring (num_lit 125) None
      (sceneAt (vec 0 0 0))
  /\ map (@SpringBoneController.sb_stiffness float)
       (SpringBoneController.springs
          (fst (SpringBoneController.update recordStep oneSpring (num_lit 5000) None
                  (sceneAt (vec 0 0 0)))))
     = [0.125%float].
Proof.
  split.
  - apply (update_clamps_deltaTime recordStep oneSpring None (sceneAt (vec 0 0 0))
             (num_lit 5000)). reflexivity.
  - reflexivity.
Defined.

(** C5 is refuted at NaN.  [Math.min(125, NaN)] is NaN, so nothing is
    clamped: the step is NaN, neither at least 0 nor at most 0.125, and it
    is what the spring is given. *)
Lemma update_passes_on_NaN :
  let result :=
    SpringBoneController.update recordStep oneSpring nan None (sceneAt (vec 0 0 0)) in
  PrimFloat.is_nan (SpringBoneController.clampDeltaTime nan) = true
  /\ PrimFloat.leb 0 (SpringBoneController.clampDeltaTime nan) = false
  /\ PrimFloat.leb (SpringBoneController.clampDeltaTime nan) 0.125 = false
  /\ map (fun s => PrimFloat.is_nan (SpringBoneController.sb_stiffness s))
       (SpringBoneController.springs (fst result))
     = [true].
Proof. vm_compute. repeat split; reflexivity. Qed.

(** ** The controller on run-time values *)

Section ControllerOnValues.
Context {F : Type} {N : JSNumber F}.
Variable Thrown : Type.
Variable TypeError : Thrown.
Variable ColliderGroup : Type.
Variable VRMSpringBone : Type.
Variable ColliderGroup_new : option nodeId -> Thrown + ColliderGroup.
Variable addCollider : ColliderGroup -> Vector3 F -> F -> Thrown + ColliderGroup.
Variable VRMSpringBone_new :
  string -> F -> F -> Vector3 F -> F -> option nodeId -> F ->
  list (option nodeId) -> list (option ColliderGroup) -> Thrown + VRMSpringBone.
Variable spring_update :
  F -> option (SpringBoneController.ConstructSpringsOptions F) -> VRMSpringBone ->
  Scene F -> VRMSpringBone * Scene F.

Import SpringBoneControllerJS.

(** What is thrown in a loop is thrown by its callback. *)
Lemma forEach_thrown {A B : Type} (callback : B -> A -> Thrown + B) (array : list A)
  (state : B) (e : Thrown) :
  forEach callback array state = inl e ->
  exists state' a, In a array /\ callback state' a = inl e.
Proof.
  revert state. induction array as [|a l IH]; intro state; cbn [forEach];
    [discriminate|].
  destruct (callback state a) as [e'|state'] eqn:Hc.
  - intro H. injection H as <-. exists state, a. split; [left; reflexivity | exact Hc].
  - intro H. destruct (IH state' H) as (st & x & Hin & Hx).
    exists st, x. split; [right; exact Hin | exact Hx].
Qed.

Lemma forEach_ext {A B : Type} (f g : B -> A -> Thrown + B) (array : list A)
  (state : B) :
  (forall state a, f state a = g state a) ->
  forEach f array state = forEach g array state.
Proof.
  intro H. revert state. induction array as [|a l IH]; intro state; cbn [forEach];
    [reflexivity|].
  rewrite H. destruct (g state a); [reflexivity | apply IH].
Qed.

(** A loop that pushes what a function makes of each element makes one
    element for each, in order. *)
Lemma forEach_push {A B : Type} (f : A -> Thrown + B) (array : list A)
  (made result : list B) :
  forEach (fun made a =>
             match f a with
             | inl e => inl e
             | inr b => inr (made ++ [b])
             end) array made = inr result ->
  exists new, result = made ++ new /\ Forall2 (fun a b => f a = inr b) array new.
Proof.
  revert made. induction array as [|a l IH]; intro made; cbn [forEach].
  - intro H. injection H as <-. exists []. split; [now rewrite app_nil_r | constructor].
  - destruct (f a) as [e|b] eqn:Hf; [discriminate|].
    intro H. destruct (IH _ H) as (new & -> & Hall).
    exists (b :: new). split; [now rewrite <- app_assoc|].
    constructor; assumption.
Qed.

(** The loop over the springs calls the callback once for every spring, in
    list order, on the scene that the springs before it have left. *)
Lemma mapSprings_nth (f : VRMSpringBone -> Scene F -> VRMSpringBone * Scene F)
  (springs : list VRMSpringBone) (w : Scene F) :
  let sceneBefore (n : nat) :=
    fold_left (fun w s => snd (f s w)) (firstn n springs) w in
  List.length (fst (mapSprings f springs w)) = List.length springs
  /\ (forall n s,
        nth_error springs n = Some s ->
        nth_error (fst (mapSprings f springs w)) n = Some (fst (f s (sceneBefore n))))
  /\ snd (mapSprings f springs w) = sceneBefore (List.length springs).
Proof.
  cbv zeta. revert w. induction springs as [|a l IH]; intro w.
  - cbn. repeat split. intros [|n] s H; discriminate.
  - cbn [mapSprings]. destruct (f a w) as [a' w'] eqn:Ha.
    specialize (IH w'). destruct (mapSprings f l w') as [l' w''] eqn:Hl.
    cbn [fst snd] in IH. destruct IH as (Hlen & Hnth & Hscene).
    cbn [fst snd List.length]. split; [congruence|]. split.
    + intros [|n] s H; cbn [nth_error firstn fold_left] in *.
      * injection H as <-. rewrite Ha. reflexivity.
      * rewrite Ha. cbn [snd]. apply Hnth. exact H.
    + cbn [firstn fold_left]. rewrite Ha. exact Hscene.
Qed.

(** The collider group that the constructor makes for a configured group. *)
Let groupOf (getBone : SpringBoneController.getBone) (cfg : ColliderGroupConfig F)
  : Thrown + ColliderGroup :=
  match ColliderGroup_new (getBone (node cfg)) with
  | inl e => inl e
  | inr g => addColliders TypeError addCollider (colliders cfg) g
  end.

(** What a method of the two classes has thrown. *)
Let thrownByAClass (e : Thrown) : Prop :=
  (exists bone, ColliderGroup_new bone = inl e)
  \/ (exists g o r, addCollider g o r = inl e)
  \/ (exists comment stiffness gravityPower gravityDir dragForce center hitRadius
             bones colliderGroups,
        VRMSpringBone_new comment stiffness gravityPower gravityDir dragForce center
          hitRadius bones colliderGroups = inl e).

Lemma groupOf_thrown (getBone : SpringBoneController.getBone)
  (cfg : ColliderGroupConfig F) (e : Thrown) :
  groupOf getBone cfg = inl e ->
  (e = TypeError
   /\ ~ exists cs, colliders cfg = Some cs /\ forall c, In c cs -> offset c <> None)
  \/ thrownByAClass e.
Proof.
  unfold groupOf. destruct (ColliderGroup_new (getBone (node cfg))) as [e'|g] eqn:Hn.
  - intro H. injection H as <-. right. left. exists (getBone (node cfg)). exact Hn.
  - unfold addColliders. destruct (colliders cfg) as [cs|].
    + intro H. apply forEach_thrown in H. destruct H as (g' & c & Hin & Hc).
      destruct (offset c) as [o|] eqn:Ho.
      * right. right. left. eexists. eexists. eexists. exact Hc.
      * injection Hc as <-. left. split; [reflexivity|].
        intros (cs' & Hcs & Hall). injection Hcs as <-.
        apply (Hall c Hin). exact Ho.
    + intro H. injection H as <-. left. split; [reflexivity|].
      intros (cs & Hcs & _). discriminate.
Qed.

Lemma springOf_thrown (getBone : SpringBoneController.getBone)
  (cgs : list ColliderGroup)
  (options : option (SpringBoneController.ConstructSpringsOptions F))
  (spring : Spring F) (e : Thrown) :
  springOf TypeError VRMSpringBone_new getBone cgs options spring = inl e ->
  (e = TypeError
   /\ SpringBoneController.optField options (@SpringBoneController.opt_gravityDir F)
      = None
   /\ gravityDir spring = None)
  \/ thrownByAClass e.
Proof.
  unfold springOf, gravityDirOf.
  destruct (SpringBoneController.optField options _) as [d|].
  - intro H. right. right. right. repeat eexists. exact H.
  - destruct (gravityDir spring) as [d|].
    + intro H. right. right. right. repeat eexists. exact H.
    + intro H. injection H as <-. left. repeat split.
Qed.

(** C3, as amended.  The constructor omits nothing and tests no resolution.
    When it returns, there is one collider group for each configured group
    and one spring for each bone group, in order, each made by the
    constructor of its class from what the resolver returned for the
    configured indices, null included.  When it throws, either a property
    that it reads without a test ([colliders], [offset], or [gravityDir]
    without an override) is absent and it throws a TypeError, or a method
    of [ColliderGroup] or [VRMSpringBone] has thrown: whether an index
    resolves plays no part.  [update] gives every spring of the list the
    clamped step, in list order. *)
Theorem constructor_keeps_every_group (ext : SecondaryAnimation F)
  (getBone : SpringBoneController.getBone)
  (options : option (SpringBoneController.ConstructSpringsOptions F)) :
  let result :=
    constructor TypeError ColliderGroup_new addCollider VRMSpringBone_new
      ext getBone options in
  (forall this,
     result = inr this ->
     SpringBoneControllerJS.ext this = ext
     /\ exists colliderGroups,
          Forall2
            (fun cfg g =>
               match ColliderGroup_new (getBone (node cfg)) with
               | inl e => inl e
               | inr g => addColliders TypeError addCollider (colliders cfg) g
               end = inr g)
            (SpringBoneController.orEmpty (SpringBoneControllerJS.colliderGroups ext))
            colliderGroups
          /\ Forall2
               (fun spring s =>
                  exists dir,
                    gravityDirOf TypeError options spring = inr dir
                    /\ VRMSpringBone_new
                         (comment spring)
                         (SpringBoneController.overrideNumber
                            (SpringBoneController.optField options
                               (@SpringBoneController.opt_stiffness F))
                            (stiffiness spring))
                         (SpringBoneController.overrideNumber
                            (SpringBoneController.optField options
                               (@SpringBoneController.opt_gravityPower F))
                            (gravityPower spring))
                         dir
                         (SpringBoneController.overrideNumber
                            (SpringBoneController.optField options
                               (@SpringBoneController.opt_dragForce F))
                            (dragForce spring))
                         (getBone (center spring))
                         (SpringBoneController.overrideNumber
                            (SpringBoneController.optField options
                               (@SpringBoneController.opt_hitRadius F))
                            (hitRadius spring))
                         (map getBone (SpringBoneController.orEmpty (bones spring)))
                         (map (SpringBoneController.index colliderGroups)
                              (SpringBoneController.orEmpty
                                 (spring_colliderGroups spring)))
                       = inr s)
               (SpringBoneController.orEmpty (boneGroups ext))
               (springs this))
  /\ (forall e,
        result = inl e ->
        (e = TypeError
         /\ ~ ((forall cfg,
                  In cfg (SpringBoneController.orEmpty
                            (SpringBoneControllerJS.colliderGroups ext)) ->
                  exists cs, colliders cfg = Some cs
                             /\ forall c, In c cs -> offset c <> None)
               /\ (SpringBoneController.optField options
                     (@SpringBoneController.opt_gravityDir F) = None ->
                   forall spring,
                     In spring (SpringBoneController.orEmpty (boneGroups ext)) ->
                     gravityDir spring <> None)))
        \/ (exists bone, ColliderGroup_new bone = inl e)
        \/ (exists g o r, addCollider g o r = inl e)
        \/ (exists comment stiffness gravityPower gravityDir dragForce center
                   hitRadius bones colliderGroups,
              VRMSpringBone_new comment stiffness gravityPower gravityDir dragForce
                center hitRadius bones colliderGroups = inl e))
  /\ (forall this deltaTime boneOptions w,
        let step := SpringBoneController.clampDeltaTime deltaTime in
        let updated := update spring_update this deltaTime boneOptions w in
        let sceneBefore (n : nat) :=
          fold_left (fun w s => snd (spring_update step boneOptions s w))
            (firstn n (springs this)) w in
        List.length (springs (fst updated)) = List.length (springs this)
        /\ (forall n s,
              nth_error (springs this) n = Some s ->
              nth_error (springs (fst updated)) n
              = Some (fst (spring_update step boneOptions s (sceneBefore n))))
        /\ snd updated = sceneBefore (List.length (springs this))).
Proof.
  intro result. subst result. unfold constructor.
  assert (Hcg : forall cgs,
            constructColliderGroups TypeError ColliderGroup_new addCollider ext getBone
            = inr cgs ->
            Forall2 (fun cfg g => groupOf getBone cfg = inr g)
              (SpringBoneController.orEmpty (SpringBoneControllerJS.colliderGroups ext))
              cgs).
  { intros cgs. unfold constructColliderGroups.
    destruct (SpringBoneControllerJS.colliderGroups ext) as [[|g gs]|];
      cbn [SpringBoneController.orEmpty];
      try (intro H; injection H as <-; constructor).
    intro H.
    rewrite (forEach_ext _
               (fun made a =>
                  match groupOf getBone a with
                  | inl e => inl e
                  | inr b => inr (made ++ [b])
                  end)) in H.
    2:{ intros st a. unfold groupOf.
        destruct (ColliderGroup_new (getBone (node a))); reflexivity. }
    apply (forEach_push (groupOf getBone) (g :: gs) [] cgs) in H.
    destruct H as (new & -> & Hall). exact Hall. }
  assert (Hcgerr : forall e,
            constructColliderGroups TypeError ColliderGroup_new addCollider ext getBone
            = inl e ->
            exists cfg,
              In cfg (SpringBoneController.orEmpty
                        (SpringBoneControllerJS.colliderGroups ext))
              /\ groupOf getBone cfg = inl e).
  { intros e. unfold constructColliderGroups.
    destruct (SpringBoneControllerJS.colliderGroups ext) as [[|g gs]|];
      cbn [SpringBoneController.orEmpty]; try discriminate.
    intro H. apply forEach_thrown in H. destruct H as (st & cfg & Hin & Hc).
    exists cfg. split; [exact Hin|]. unfold groupOf.
    destruct (ColliderGroup_new (getBone (node cfg))) as [e'|g0];
      [injection Hc as <-; reflexivity|].
    destruct (addColliders TypeError addCollider (colliders cfg) g0);
      [injection Hc as <-; reflexivity | discriminate]. }
  assert (Hsp : forall cgs l,
            constructSprings TypeError VRMSpringBone_new ext getBone cgs options = inr l ->
            Forall2 (fun spring s =>
                       springOf TypeError VRMSpringBone_new getBone cgs options spring
                       = inr s)
              (SpringBoneController.orEmpty (boneGroups ext)) l).
  { intros cgs l. unfold constructSprings.
    destruct (boneGroups ext) as [[|g gs]|]; cbn [SpringBoneController.orEmpty];
      try (intro H; injection H as <-; constructor).
    intro H.
    apply (forEach_push (springOf TypeError VRMSpringBone_new getBone cgs options)
             (g :: gs) [] l) in H.
    destruct H as (new & -> & Hall). exact Hall. }
  assert (Hsperr : forall cgs e,
            constructSprings TypeError VRMSpringBone_new ext getBone cgs options = inl e ->
            exists spring,
              In spring (SpringBoneController.orEmpty (boneGroups ext))
              /\ springOf TypeError VRMSpringBone_new getBone cgs options spring
                 = inl e).
  { intros cgs e. unfold constructSprings.
    destruct (boneGroups ext) as [[|g gs]|]; cbn [SpringBoneController.orEmpty];
      try discriminate.
    intro H. apply forEach_thrown in H. destruct H as (st & spring & Hin & Hc).
    exists spring. split; [exact Hin|].
    destruct (springOf TypeError VRMSpringBone_new getBone cgs options spring);
      [injection Hc as <-; reflexivity | discriminate]. }
  split; [|split].
  - intros this.
    destruct (constructColliderGroups TypeError ColliderGroup_new addCollider ext getBone)
      as [e|cgs] eqn:Hc; [discriminate|].
    destruct (constructSprings TypeError VRMSpringBone_new ext getBone cgs options)
      as [e|l] eqn:Hs; [discriminate|].
    intro H. injection H as <-. cbn [SpringBoneControllerJS.ext springs].
    split; [reflexivity|]. exists cgs. split; [exact (Hcg cgs eq_refl)|].
    specialize (Hsp cgs l Hs). clear - Hsp.
    induction Hsp as [|spring s groups l Hs _ IH]; constructor; [|exact IH].
    unfold springOf in Hs.
    destruct (gravityDirOf TypeError options spring) as [e|dir]; [discriminate|].
    exists dir. split; [reflexivity | exact Hs].
  - intros e.
    destruct (constructColliderGroups TypeError ColliderGroup_new addCollider ext getBone)
      as [e'|cgs] eqn:Hc.
    + intro H. injection H as <-. destruct (Hcgerr e' eq_refl) as (cfg & Hin & Hg).
      destruct (groupOf_thrown getBone cfg e' Hg) as [[-> Hno]|Hclass].
      * left. split; [reflexivity|]. intros [Hall _]. apply Hno. apply Hall. exact Hin.
      * right. exact Hclass.
    + destruct (constructSprings TypeError VRMSpringBone_new ext getBone cgs options)
        as [e'|l] eqn:Hs; [|discriminate].
      intro H. injection H as <-. destruct (Hsperr cgs e' Hs) as (spring & Hin & Hg).
      destruct (springOf_thrown getBone cgs options spring e' Hg)
        as [(-> & Hopt & Hno)|Hclass].
      * left. split; [reflexivity|]. intros [_ Hall]. apply (Hall Hopt spring Hin).
        exact Hno.
      * right. exact Hclass.
  - intros this deltaTime boneOptions w. cbv zeta.
    destruct (mapSprings_nth
                (spring_update (SpringBoneController.clampDeltaTime deltaTime)
                   boneOptions) (springs this) w) as (Hlen & Hnth & Hscene).
    unfold update. cbv zeta in Hlen, Hnth, Hscene |- *.
    destruct (mapSprings _ (springs this) w) as [l' w'].
    cbn [fst snd springs] in *. repeat split; assumption.
Qed.

End ControllerOnValues.

(** C3 is refuted.  With a resolver that knows no node, and classes that
    keep what they are given and throw nothing, the constructor throws
    nothing and omits nothing: the configured bone group is in the list of
    the controller, with a null root bone and with the collider group,
    whose owner is null.  And the constructor can throw by itself: a
    collider group without [colliders] ends it in a TypeError. *)
Lemma unresolved_groups_are_kept :
  option_map (@SpringBoneControllerJS.springs float GivenSpringBone)
    (match constructGiven danglingConfigJS noBone with
     | inr this => Some this
     | inl _ => None
     end)
  = Some [([None], [Some (None, [(mkVector3 (-0) 0 (-0), 1)])])]%float
  /\ constructGiven incompleteConfigJS noBone = inl tt.
Proof. split; reflexivity. Qed.

(** ** What [update] leaves alone *)

Section UpdateFrame.
Context {F : Type} {N : JSNumber F} {E : Engine F}.
Import Values.

(** [setAbsoluteRotationQuaternion] writes to the rotation of its node and to
    nothing else. *)
Lemma setAbsoluteRotationQuaternion_frame (w : Scene F) (node : nodeId)
  (q : Quaternion F) (n : nodeId) :
  (n <> node -> VRMSpringBoneLogic.setAbsoluteRotationQuaternion w node q n = w n)
  /\ position (VRMSpringBoneLogic.setAbsoluteRotationQuaternion w node q n)
     = position (w n)
  /\ parent (VRMSpringBoneLogic.setAbsoluteRotationQuaternion w node q n)
     = parent (w n)
  /\ absolutePosition (VRMSpringBoneLogic.setAbsoluteRotationQuaternion w node q n)
     = absolutePosition (w n).
Proof.
  unfold VRMSpringBoneLogic.setAbsoluteRotationQuaternion.
  destruct (parent (w node)) as [p|] eqn:Hp;
    [destruct (rotationQuaternion (w node)) as [q0|] eqn:Hq|];
    unfold setNode; destruct (Nat.eqb_spec n node) as [->|Hne];
    repeat split; try reflexivity; try congruence.
Qed.

(** X1.  [update], skipped or not, assigns only to the tails and the centre
    position of the object: [radius], [transform], [localRotation],
    [boneAxis] and [boneLength] (and in the centre-space copy [center],
    [localChildPosition] and [localPosition] too) are what they were.  In
    the scene it writes to the rotation of its own node only: every other
    node is untouched, and no position or parent link changes.  The
    centre-space copy never writes Euler angles. *)
Theorem update_assigns_only_tails_and_rotation
  (this : VRMSpringBoneLogic.t F) (thisCS : VRMSpringBoneLogicCS.t F)
  (center : option nodeId) (stiffnessForce dragForce : F) (external : Vector3 F)
  (colliders : list (SphereCollider F)) (w : Scene F) :
  let result :=
    VRMSpringBoneLogic.update this center stiffnessForce dragForce external
      colliders w in
  let resultCS :=
    VRMSpringBoneLogicCS.update thisCS center stiffnessForce dragForce external
      colliders w in
  (VRMSpringBoneLogic.radius (fst result) = VRMSpringBoneLogic.radius this
   /\ VRMSpringBoneLogic.transform (fst result) = VRMSpringBoneLogic.transform this
   /\ VRMSpringBoneLogic.localRotation (fst result)
      = VRMSpringBoneLogic.localRotation this
   /\ VRMSpringBoneLogic.boneAxis (fst result) = VRMSpringBoneLogic.boneAxis this
   /\ VRMSpringBoneLogic.boneLength (fst result) = VRMSpringBoneLogic.boneLength this
   /\ (forall n, n <> VRMSpringBoneLogic.transform this -> snd result n = w n)
   /\ (forall n, position (snd result n) = position (w n)
                 /\ parent (snd result n) = parent (w n)
                 /\ absolutePosition (snd result n) = absolutePosition (w n)))
  /\ (VRMSpringBoneLogicCS.center (fst resultCS) = VRMSpringBoneLogicCS.center thisCS
   /\ VRMSpringBoneLogicCS.radius (fst resultCS) = VRMSpringBoneLogicCS.radius thisCS
   /\ VRMSpringBoneLogicCS.transform (fst resultCS)
      = VRMSpringBoneLogicCS.transform thisCS
   /\ VRMSpringBoneLogicCS.localChildPosition (fst resultCS)
      = VRMSpringBoneLogicCS.localChildPosition thisCS
   /\ VRMSpringBoneLogicCS.localPosition (fst resultCS)
      = VRMSpringBoneLogicCS.localPosition thisCS
   /\ VRMSpringBoneLogicCS.localRotation (fst resultCS)
      = VRMSpringBoneLogicCS.localRotation thisCS
   /\ VRMSpringBoneLogicCS.boneAxis (fst resultCS) = VRMSpringBoneLogicCS.boneAxis thisCS
   /\ VRMSpringBoneLogicCS.boneLength (fst resultCS)
      = VRMSpringBoneLogicCS.boneLength thisCS
   /\ (forall n, n <> VRMSpringBoneLogicCS.transform thisCS -> snd resultCS n = w n)
   /\ (forall n, rotation (snd resultCS n) = rotation (w n)
                 /\ position (snd resultCS n) = position (w n)
                 /\ parent (snd resultCS n) = parent (w n)
                 /\ absolutePosition (snd resultCS n) = absolutePosition (w n))).
Proof.
  intros result resultCS. split.
  - subst result.
    destruct (num_isNaN (vx (absolutePosition (w (VRMSpringBoneLogic.transform this)))))
      eqn:Hnan.
    + rewrite (update_skipped _ _ _ _ _ _ _ Hnan). cbn [fst snd].
      repeat split; reflexivity.
    + rewrite (update_value _ _ _ _ _ _ _ Hnan). cbn [fst snd].
      unfold VRMSpringBoneLogic.set_frame_and_tails.
      cbn [VRMSpringBoneLogic.radius VRMSpringBoneLogic.transform
           VRMSpringBoneLogic.localRotation VRMSpringBoneLogic.boneAxis
           VRMSpringBoneLogic.boneLength].
      repeat split; try reflexivity;
        try (intros n Hn; apply setAbsoluteRotationQuaternion_frame; exact Hn);
        apply setAbsoluteRotationQuaternion_frame.
  - subst resultCS.
    destruct (num_isNaN (vx (absolutePosition (w (VRMSpringBoneLogicCS.transform thisCS)))))
      eqn:Hnan.
    + rewrite (updateCS_skipped _ _ _ _ _ _ _ Hnan). cbn [fst snd].
      repeat split; reflexivity.
    + rewrite (updateCS_value _ _ _ _ _ _ _ Hnan). cbn [fst snd].
      unfold VRMSpringBoneLogicCS.set_tails, frameCS, VRMSpringBoneLogicCS.set_frame.
      cbn [VRMSpringBoneLogicCS.center VRMSpringBoneLogicCS.radius
           VRMSpringBoneLogicCS.transform VRMSpringBoneLogicCS.localChildPosition
           VRMSpringBoneLogicCS.localPosition VRMSpringBoneLogicCS.localRotation
           VRMSpringBoneLogicCS.boneAxis VRMSpringBoneLogicCS.boneLength].
      repeat split; try reflexivity;
        try (intros n Hn; unfold setNode;
             destruct (Nat.eqb_spec n (VRMSpringBoneLogicCS.transform thisCS));
             [contradiction | reflexivity]);
        unfold setNode;
        destruct (Nat.eqb_spec n (VRMSpringBoneLogicCS.transform thisCS)) as [->|Hne];
        reflexivity.
Qed.

End UpdateFrame.

(** ** The quaternion of the node *)

Section RotationQuaternion.
Context {F : Type} {N : JSNumber F} {E : Engine F}.
Import Values.

(** X2.  A node that has a [rotationQuaternion], as every node has after the
    constructor, still has one after [update], skipped or not, in both
    copies; the world-space copy then writes no Euler angles to any node
    (the [toEulerAnglesToRef] branch of [setAbsoluteRotationQuaternion] is
    not taken). *)
Theorem update_keeps_rotationQuaternion
  (this : VRMSpringBoneLogic.t F) (thisCS : VRMSpringBoneLogicCS.t F)
  (center : option nodeId) (stiffnessForce dragForce : F) (external : Vector3 F)
  (colliders : list (SphereCollider F)) (w : Scene F) :
  rotationQuaternion (w (VRMSpringBoneLogic.transform this)) <> None ->
  rotationQuaternion (w (VRMSpringBoneLogicCS.transform thisCS)) <> None ->
  let w' :=
    snd (VRMSpringBoneLogic.update this center stiffnessForce dragForce external
           colliders w) in
  let wCS' :=
    snd (VRMSpringBoneLogicCS.update thisCS center stiffnessForce dragForce external
           colliders w) in
  rotationQuaternion (w' (VRMSpringBoneLogic.transform this)) <> None
  /\ (forall n, rotation (w' n) = rotation (w n))
  /\ rotationQuaternion (wCS' (VRMSpringBoneLogicCS.transform thisCS)) <> None.
Proof.
  intros Hq HqCS w' wCS'. subst w' wCS'. split; [|split].
  - destruct (num_isNaN (vx (absolutePosition (w (VRMSpringBoneLogic.transform this)))))
      eqn:Hnan.
    + rewrite (update_skipped _ _ _ _ _ _ _ Hnan). exact Hq.
    + rewrite (update_value _ _ _ _ _ _ _ Hnan). cbn [snd].
      unfold VRMSpringBoneLogic.setAbsoluteRotationQuaternion.
      destruct (rotationQuaternion (w (VRMSpringBoneLogic.transform this)))
        as [q0|] eqn:Hq0; [|contradiction].
      destruct (parent (w (VRMSpringBoneLogic.transform this)));
        unfold setNode; rewrite Nat.eqb_refl; discriminate.
  - intro n.
    destruct (num_isNaN (vx (absolutePosition (w (VRMSpringBoneLogic.transform this)))))
      eqn:Hnan.
    + rewrite (update_skipped _ _ _ _ _ _ _ Hnan). reflexivity.
    + rewrite (update_value _ _ _ _ _ _ _ Hnan). cbn [snd].
      unfold VRMSpringBoneLogic.setAbsoluteRotationQuaternion.
      destruct (rotationQuaternion (w (VRMSpringBoneLogic.transform this)))
        as [q0|] eqn:Hq0; [|contradiction].
      destruct (parent (w (VRMSpringBoneLogic.transform this)));
        unfold setNode;
        destruct (Nat.eqb_spec n (VRMSpringBoneLogic.transform this)) as [->|Hne];
        reflexivity.
  - destruct (num_isNaN (vx (absolutePosition (w (VRMSpringBoneLogicCS.transform thisCS)))))
      eqn:Hnan.
    + rewrite (updateCS_skipped _ _ _ _ _ _ _ Hnan). exact HqCS.
    + rewrite (updateCS_value _ _ _ _ _ _ _ Hnan). cbn [snd].
      unfold setNode. rewrite Nat.eqb_refl. discriminate.
Qed.

(** X3.  A collider whose test fails leaves the tail alone, and so does a
    whole list of them: when the tail that [collide] is given passes no
    test of the list, [collide] returns it unchanged, in both copies (the
    centre-space copy tests against the shifted sphere centres). *)
Theorem collide_without_hit
  (this : VRMSpringBoneLogic.t F) (thisCS : VRMSpringBoneLogicCS.t F)
  (w : Scene F) (centerAbsolutePos : Vector3 F)
  (colliders : list (SphereCollider F)) (tail : Vector3 F) :
  Forall (fun collider =>
            hit (num_add (VRMSpringBoneLogic.radius this) (collider_radius collider))
                (collider_position collider) tail = false) colliders ->
  Forall (fun collider =>
            hit (num_add (VRMSpringBoneLogicCS.radius thisCS) (collider_radius collider))
                (testCentreCS centerAbsolutePos
                   (VRMSpringBoneLogicCS.centerSpacePosition thisCS) collider)
                tail = false) colliders ->
  VRMSpringBoneLogic.collideFrom this w colliders tail = tail
  /\ VRMSpringBoneLogicCS.collideFrom thisCS centerAbsolutePos colliders tail = tail.
Proof.
  intros H HCS. rewrite collideFrom_value, collideFromCS_value. split.
  - clear HCS. unfold collideAll. induction H as [|c cs Hc _ IH]; [reflexivity|].
    cbn [fold_left]. unfold collideStep at 2. rewrite Hc. exact IH.
  - clear H. unfold collideAllCS. induction HCS as [|c cs Hc _ IH]; [reflexivity|].
    cbn [fold_left]. unfold collideStepCS at 2. rewrite Hc. exact IH.
Qed.

(** X4.  The centre-space copy advances the verlet state as the integration
    needs it: after an update that the guard lets run, [prevTail] is the
    [currentTail] from before the call and [currentTail] is the tail the
    step computed. *)
Theorem centre_space_update_advances_the_tails
  (this : VRMSpringBoneLogicCS.t F) (center : option nodeId)
  (stiffnessForce dragForce : F) (external : Vector3 F)
  (colliders : list (SphereCollider F)) (w : Scene F) :
  num_isNaN (vx (absolutePosition (w (VRMSpringBoneLogicCS.transform this)))) = false ->
  let this' :=
    fst (VRMSpringBoneLogicCS.update this center stiffnessForce dragForce external
           colliders w) in
  VRMSpringBoneLogicCS.prevTail this' = VRMSpringBoneLogicCS.currentTail this
  /\ VRMSpringBoneLogicCS.currentTail this'
     = finalTailCS this center stiffnessForce dragForce external colliders w.
Proof.
  intros Hnan this'. subst this'. rewrite (updateCS_value _ _ _ _ _ _ _ Hnan).
  split; reflexivity.
Qed.

End RotationQuaternion.

(** The unit bones in a scene whose nodes have quaternions. *)
Lemma update_keeps_rotationQuaternion_witness :
  rotationQuaternion
    (snd (VRMSpringBoneLogic.update (E:=restEngine) (unitBone (F:=float)) None
            (num_lit 0) (num_lit 0) (vec 1 0 0) []
            (sceneWithQuaternions (vec 0 0 0))) 0) <> None
  /\ rotationQuaternion
    (snd (VRMSpringBoneLogicCS.update (E:=restEngine) (unitBoneCS (F:=float)) None
            (num_lit 0) (num_lit 0) (vec 1 0 0) []
            (sceneWithQuaternions (vec 0 0 0))) 0) <> None.
Proof.
  pose proof (@update_keeps_rotationQuaternion float float_number restEngine
                unitBone unitBoneCS None (num_lit 0) (num_lit 0) (vec 1 0 0) []
                (sceneWithQuaternions (vec 0 0 0))) as H.
  cbv zeta in H.
  assert (Hq : rotationQuaternion (sceneWithQuaternions (F:=float) (vec 0 0 0) 0) <> None)
    by discriminate.
  destruct (H Hq Hq) as (H1 & _ & H3).
  split; [exact H1 | exact H3].
Defined.

(** The unit bones and a unit sphere far from their tails. *)
Lemma collide_without_hit_witness :
  VRMSpringBoneLogic.collideFrom (unitBone (F:=float)) (sceneAt (vec 0 0 0))
    [mkSphereCollider (vec 50 0 0) (num_lit 1)] (vec 0 1 0) = vec 0 1 0
  /\ VRMSpringBoneLogicCS.collideFrom (unitBoneCS (F:=float)) (vec 0 0 0)
    [mkSphereCollider (vec 50 0 0) (num_lit 1)] (vec 0 1 0) = vec 0 1 0.
Proof.
  apply (@collide_without_hit float float_number unitBone unitBoneCS
           (sceneAt (vec 0 0 0)) (vec 0 0 0)
           [mkSphereCollider (vec 50 0 0) (num_lit 1)] (vec 0 1 0));
    (constructor; [vm_compute; reflexivity | constructor]).
Defined.

(** The centre-space unit bone pushed sideways. *)
Lemma centre_space_update_advances_the_tails_witness :
  VRMSpringBoneLogicCS.prevTail
    (fst (VRMSpringBoneLogicCS.update (E:=restEngine) (unitBoneCS (F:=float)) None
            (num_lit 0) (num_lit 0) (vec 1 0 0) [] (sceneAt (vec 10 0 0))))
  = vec 10 1 0.
Proof.
  assert (Hnan : num_isNaN (vx (absolutePosition
                   (sceneAt (F:=float) (vec 10 0 0)
                      (VRMSpringBoneLogicCS.transform unitBoneCS)))) = false)
    by (vm_compute; reflexivity).
  exact (proj1 (@centre_space_update_advances_the_tails float float_number restEngine
                  unitBoneCS None (num_lit 0) (num_lit 0) (vec 1 0 0) []
                  (sceneAt (vec 10 0 0)) Hnan)).
Defined.

(** ** The controller at the ends of the clamp *)

Section ClampEnds.
Import SpringBoneController.

Variable spring_update :
  float -> option (ConstructSpringsOptions float) -> VRMSpringBone float -> Scene float
  -> VRMSpringBone float * Scene float.

(** A number below zero is negative infinity or a negative finite number. *)
Lemma below_zero (x : float) :
  PrimFloat.ltb x 0 = true ->
  PrimFloat.is_nan x = false /\ PrimFloat.ltb 125 x = false
  /\ PrimFloat.ltb 0 x = false.
Proof.
  intro H. split; [|split].
  - unfold PrimFloat.is_nan. rewrite FloatAxioms.eqb_spec.
    rewrite FloatAxioms.ltb_spec in H. unfold SFltb, SFeqb in *.
    change (Prim2SF 0) with (S754_zero false) in H.
    destruct (Prim2SF x) as [s|s| |s m e]; try destruct s; simpl in *;
      try discriminate; try reflexivity.
    rewrite Z.compare_refl, Pos.compare_cont_refl. reflexivity.
  - rewrite FloatAxioms.ltb_spec in *. unfold SFltb in *.
    change (Prim2SF 0) with (S754_zero false) in H.
    destruct (Prim2SF x) as [s|s| |s m e]; try destruct s; simpl in *;
      try discriminate;
      destruct (Prim2SF 125) as [s'|s'| |s' m' e'] eqn:H125;
      try discriminate H125; vm_compute in H125; try discriminate H125;
      injection H125 as <- <- <-; reflexivity.
  - rewrite FloatAxioms.ltb_spec in *. unfold SFltb in *.
    change (Prim2SF 0) with (S754_zero false) in *.
    destruct (Prim2SF x) as [s|s| |s m e]; try destruct s; simpl in *;
      try discriminate; reflexivity.
Qed.

(** X7.  Outside the clamp range [update] passes on the ends of the range: a
    negative [deltaTime] (negative infinity included) gives the step 0 and
    the update of [deltaTime = 0]; a [deltaTime] above 125 (infinity
    included) gives the step 0.125 and the update of [deltaTime = 125]; and
    a NaN is not clamped, the step is NaN. *)
Theorem update_step_outside_the_range (this : t float)
  (boneOptions : option (ConstructSpringsOptions float)) (w : Scene float)
  (deltaTime : float) :
  (PrimFloat.ltb deltaTime 0 = true ->
   clampDeltaTime deltaTime = 0%float
   /\ update spring_update this deltaTime boneOptions w
      = update spring_update this 0%float boneOptions w)
  /\ (PrimFloat.ltb 125 deltaTime = true ->
      clampDeltaTime deltaTime = 0.125%float
      /\ update spring_update this deltaTime boneOptions w
         = update spring_update this 125%float boneOptions w)
  /\ (PrimFloat.is_nan deltaTime = true ->
      PrimFloat.is_nan (clampDeltaTime deltaTime) = true).
Proof.
  assert (Hlow : PrimFloat.ltb deltaTime 0 = true ->
                 clampDeltaTime deltaTime = 0%float).
  { intro H. destruct (below_zero _ H) as (Hn & H125 & H0).
    unfold clampDeltaTime. cbn [num_max num_min num_lit num_div float_number].
    change (float_lit 125) with 125%float. change (float_lit 0) with 0%float.
    change (float_lit 1000) with 1000%float.
    assert (Hmin : float_min 125 deltaTime = deltaTime).
    { unfold float_min. rewrite Hn, H125.
      change (PrimFloat.is_nan 125) with false. cbn [orb].
      change (is_neg_zero 125) with false.
      destruct (PrimFloat.ltb deltaTime 125); reflexivity. }
    rewrite Hmin. unfold float_max. rewrite Hn, H0, H.
    change (PrimFloat.is_nan 0) with false. cbn [orb]. reflexivity. }
  assert (Hhigh : PrimFloat.ltb 125 deltaTime = true ->
                  clampDeltaTime deltaTime = 0.125%float).
  { intro H.
    assert (Hn : PrimFloat.is_nan deltaTime = false).
    { unfold PrimFloat.is_nan. rewrite FloatAxioms.eqb_spec.
      rewrite FloatAxioms.ltb_spec in H. unfold SFltb, SFeqb in *.
      destruct (SFcompare (Prim2SF 125) (Prim2SF deltaTime)) eqn:Hc;
        [|discriminate].
      destruct (SFcompare (Prim2SF deltaTime) (Prim2SF deltaTime)) eqn:Hs.
      - destruct (Prim2SF deltaTime) as [s|s| |s m e]; try destruct s;
          simpl in *; try discriminate; try (injection Hs as <-; reflexivity);
          rewrite Z.compare_refl, Pos.compare_cont_refl in Hs;
          injection Hs as <-; reflexivity.
      - destruct (Prim2SF deltaTime) as [s|s| |s m e]; try destruct s;
          simpl in *; try discriminate;
          destruct (Prim2SF 125) as [s'|s'| |s' m' e']; try destruct s';
          simpl in *; try discriminate;
          rewrite Z.compare_refl, Pos.compare_cont_refl in Hs; discriminate. }
    unfold clampDeltaTime. cbn [num_max num_min num_lit num_div float_number].
    change (float_lit 125) with 125%float. change (float_lit 0) with 0%float.
    change (float_lit 1000) with 1000%float.
    assert (Hmin : float_min 125 deltaTime = 125%float).
    { unfold float_min. rewrite Hn, H.
      change (PrimFloat.is_nan 125) with false. reflexivity. }
    rewrite Hmin. reflexivity. }
  split; [|split].
  - intro H. split; [exact (Hlow H)|].
    unfold update. rewrite (Hlow H). reflexivity.
  - intro H. split; [exact (Hhigh H)|].
    unfold update. rewrite (Hhigh H). reflexivity.
  - intro H. unfold clampDeltaTime.
    cbn [num_max num_min num_lit num_div float_number].
    unfold float_min. rewrite H, orb_true_r. reflexivity.
Qed.

End ClampEnds.

(** Steps of -5 and of 1000 milliseconds, and a NaN. *)
Lemma update_step_outside_the_range_witness :
  SpringBoneController.clampDeltaTime (-5)%float = 0%float
  /\ SpringBoneController.clampDeltaTime 1000%float = 0.125%float
  /\ PrimFloat.is_nan (SpringBoneController.clampDeltaTime nan) = true.
Proof.
  split; [|split].
  - apply (proj1 (update_step_outside_the_range recordStep oneSpring None
                    (sceneAt (vec 0 0 0)) (-5)%float)). reflexivity.
  - apply (proj1 (proj2 (update_step_outside_the_range recordStep oneSpring None
                           (sceneAt (vec 0 0 0)) 1000%float))). reflexivity.
  - apply (proj2 (proj2 (update_step_outside_the_range recordStep oneSpring None
                           (sceneAt (vec 0 0 0)) nan))). reflexivity.
Defined.

(** ** What the controller hands to the springs and collider groups *)

Section Conversion.
Context {F : Type} {N : JSNumber F}.
Import SpringBoneController.

Lemma addCollider_fold (l : list (IVRMSecondaryAnimationCollider F))
  (g : ColliderGroup F) :
  cg_colliders
    (fold_left
       (fun g0 collider =>
          addCollider g0
            (mkVector3 (num_neg (vx (offset collider))) (vy (offset collider))
                       (num_neg (vz (offset collider))))
            (collider_cfg_radius collider)) l g)
  = cg_colliders g
    ++ map (fun collider =>
              (mkVector3 (num_neg (vx (offset collider))) (vy (offset collider))
                         (num_neg (vz (offset collider))),
               collider_cfg_radius collider)) l.
Proof.
  revert g. induction l as [|c l IH]; intro g; cbn [fold_left map].
  - now rewrite app_nil_r.
  - rewrite IH. cbn [addCollider cg_colliders]. rewrite <- app_assoc. reflexivity.
Qed.

(** X8.  Every configured collider reaches its group, in order, with the X
    and Z components of its offset negated and its Y component and radius
    as authored (the conversion from Unity's axes); a group without
    colliders stays empty. *)
Theorem colliders_are_mirrored (ext : IVRMSecondaryAnimation F) (gb : getBone) :
  map (@cg_colliders F) (constructColliderGroups ext gb)
  = map (fun g =>
           map (fun collider =>
                  (mkVector3 (num_neg (vx (offset collider))) (vy (offset collider))
                             (num_neg (vz (offset collider))),
                   collider_cfg_radius collider))
               (colliders g))
        (orEmpty (colliderGroups ext)).
Proof.
  unfold constructColliderGroups.
  destruct (colliderGroups ext) as [[|g gs]|]; try reflexivity.
  rewrite (fold_left_push _ (g :: gs)). cbn [app orEmpty].
  rewrite map_map. apply map_ext. intro a.
  rewrite addCollider_fold. reflexivity.
Qed.

End Conversion.

(** ** Objects used as maps *)

Section ObjectFacts.
Variables K V : Type.
Variable key_eqb : K -> K -> bool.
Hypothesis key_eqb_eq : forall a b, key_eqb a b = true <-> a = b.

Lemma key_eqb_refl (k : K) : key_eqb k k = true.
Proof. apply key_eqb_eq. reflexivity. Qed.

Lemma key_eqb_neq (a b : K) : a <> b -> key_eqb a b = false.
Proof.
  intro H. destruct (key_eqb a b) eqn:E; [|reflexivity].
  apply key_eqb_eq in E. contradiction.
Qed.

Lemma get_set_same (o : JSObject.t K V) (k : K) (v : V) :
  JSObject.get key_eqb (JSObject.set key_eqb o k v) k = Some v.
Proof.
  induction o as [|[k' v'] o IH]; cbn.
  - now rewrite key_eqb_refl.
  - destruct (key_eqb k' k) eqn:E; cbn; rewrite E; [reflexivity | exact IH].
Qed.

Lemma get_set_other (o : JSObject.t K V) (k k' : K) (v : V) :
  k <> k' ->
  JSObject.get key_eqb (JSObject.set key_eqb o k v) k' = JSObject.get key_eqb o k'.
Proof.
  intro Hne. induction o as [|[k0 v0] o IH]; cbn.
  - now rewrite key_eqb_neq.
  - destruct (key_eqb k0 k) eqn:E; cbn.
    + apply key_eqb_eq in E. subst k0. rewrite key_eqb_neq by assumption.
      reflexivity.
    + destruct (key_eqb k0 k'); [reflexivity | exact IH].
Qed.

Lemma get_set (o : JSObject.t K V) (k k' : K) (v : V) :
  JSObject.get key_eqb (JSObject.set key_eqb o k v) k'
  = if key_eqb k k' then Some v else JSObject.get key_eqb o k'.
Proof.
  destruct (key_eqb k k') eqn:E.
  - apply key_eqb_eq in E. subst. apply get_set_same.
  - apply get_set_other. intro H. subst. rewrite key_eqb_refl in E. discriminate.
Qed.

(** The keys of an object after an assignment: the key is added at the end
    unless it is there already. *)
Lemma keys_set (o : JSObject.t K V) (k : K) (v : V) :
  map fst (JSObject.set key_eqb o k v)
  = match JSObject.get key_eqb o k with
    | Some _ => map fst o
    | None => map fst o ++ [k]
    end.
Proof.
  induction o as [|[k' v'] o IH]; cbn; [reflexivity|].
  destruct (key_eqb k' k) eqn:E; cbn; [reflexivity|].
  rewrite IH. destruct (JSObject.get key_eqb o k); reflexivity.
Qed.

Lemma get_In (o : JSObject.t K V) (k : K) (v : V) :
  JSObject.get key_eqb o k = Some v -> In (k, v) o.
Proof.
  induction o as [|[k' v'] o IH]; cbn; [discriminate|].
  destruct (key_eqb k' k) eqn:E.
  - apply key_eqb_eq in E. intro H. injection H as <-. subst. left. reflexivity.
  - intro H. right. apply IH. exact H.
Qed.

Lemma get_None (o : JSObject.t K V) (k : K) :
  JSObject.get key_eqb o k = None <-> ~ In k (map fst o).
Proof.
  induction o as [|[k' v'] o IH]; cbn.
  - tauto.
  - destruct (key_eqb k' k) eqn:E.
    + apply key_eqb_eq in E. split; [discriminate | intro H; exfalso; auto].
    + rewrite IH. split.
      * intros H [H1|H1]; [|contradiction]. subst. rewrite key_eqb_refl in E.
        discriminate.
      * intros H H1. apply H. right. exact H1.
Qed.

Lemma In_get (o : JSObject.t K V) (k : K) (v : V) :
  NoDup (map fst o) -> In (k, v) o -> JSObject.get key_eqb o k = Some v.
Proof.
  induction o as [|[k' v'] o IH]; cbn; [tauto|].
  intros Hnd [H|H]; inversion Hnd as [|? ? Hnot Hnd']; subst.
  - injection H as -> ->. now rewrite key_eqb_refl.
  - destruct (key_eqb k' k) eqn:E.
    + apply key_eqb_eq in E. subst. exfalso. apply Hnot.
      apply (in_map fst) in H. exact H.
    + apply IH; assumption.
Qed.

Lemma NoDup_set (o : JSObject.t K V) (k : K) (v : V) :
  NoDup (map fst o) -> NoDup (map fst (JSObject.set key_eqb o k v)).
Proof.
  intro H. rewrite keys_set.
  destruct (JSObject.get key_eqb o k) eqn:E; [exact H|].
  apply get_None in E.
  apply NoDup_rev in H. rewrite <- rev_involutive. apply NoDup_rev.
  rewrite rev_app_distr. cbn. constructor; [|exact H].
  rewrite <- in_rev. exact E.
Qed.

End ObjectFacts.

Section ObjectOrder.
Variables K V : Type.
Variable arrayIndex : K -> option Z.

(** [Object.entries] lists every property once: it holds what the object
    holds. *)
Lemma insertByIndex_In (i : Z) (e : K * V) (l : list (Z * (K * V))) (x : K * V) :
  In x (map snd (JSObject.insertByIndex i e l)) <-> x = e \/ In x (map snd l).
Proof.
  induction l as [|[j e'] l IH]; cbn.
  - intuition.
  - destruct (i <? j)%Z; cbn; [intuition|]. rewrite IH. intuition.
Qed.

Lemma In_entries (o : JSObject.t K V) (x : K * V) :
  In x (JSObject.entries arrayIndex o) <-> In x o.
Proof.
  unfold JSObject.entries. rewrite in_app_iff, filter_In.
  assert (H : forall acc,
    In x (map snd
            (fold_left
               (fun sorted e =>
                  match arrayIndex (fst e) with
                  | Some i => JSObject.insertByIndex i e sorted
                  | None => sorted
                  end) o acc))
    <-> (In x o /\ arrayIndex (fst x) <> None) \/ In x (map snd acc)).
  { induction o as [|e o IH]; intro acc; cbn [fold_left].
    - cbn. tauto.
    - rewrite IH. destruct (arrayIndex (fst e)) as [i|] eqn:Hi.
      + rewrite insertByIndex_In. cbn [In]. split.
        * intros [[H1 H2]|[H1|H1]]; auto.
          left. split; [left; auto | congruence].
        * intros [[[H1|H1] H2]|H1]; auto.
      + cbn [In]. split.
        * intros [[H1 H2]|H1]; auto.
        * intros [[[H1|H1] H2]|H1]; auto. subst. contradiction. }
  rewrite H. cbn [map In].
  destruct (arrayIndex (fst x)) eqn:Hx; intuition (try congruence; try discriminate).
Qed.

Lemma In_keys (o : JSObject.t K V) (k : K) :
  In k (JSObject.keys arrayIndex o) <-> In k (map fst o).
Proof.
  unfold JSObject.keys. rewrite !in_map_iff.
  split; intros [x [H1 H2]]; exists x; split; auto; apply In_entries; exact H2.
Qed.

End ObjectOrder.

Lemma number_eqb_eq (a b : JSString.number) :
  JSString.number_eqb a b = true <-> a = b.
Proof.
  destruct a as [x|x|], b as [y|y|]; cbn; try (split; [discriminate | congruence]).
  - rewrite Z.eqb_eq. split; congruence.
  - rewrite Bool.eqb_true_iff. split; congruence.
  - tauto.
Qed.

(** ** Pointers *)

Section Pointers.
Import JSString.
Local Open Scope string_scope.

Lemma takeWhile_app (p : ascii -> bool) (a s : string) :
  all p a = true -> takeWhile p (a ++ s) = a ++ takeWhile p s.
Proof.
  induction a as [|c a IH]; cbn; [reflexivity|].
  intro H. apply andb_prop in H. destruct H as [Hc Ha].
  rewrite Hc, IH by assumption. reflexivity.
Qed.

Lemma takeWhile_all (p : ascii -> bool) (a : string) :
  all p a = true -> takeWhile p a = a.
Proof.
  induction a as [|c a IH]; cbn; [reflexivity|].
  intro H. apply andb_prop in H. destruct H as [Hc Ha].
  rewrite Hc, IH by assumption. reflexivity.
Qed.

Lemma drop_app (a s : string) : drop (String.length a) (a ++ s) = s.
Proof. induction a as [|c a IH]; cbn; [reflexivity | exact IH]. Qed.

Lemma take_app (a s : string) : take (String.length a) (a ++ s) = a.
Proof. induction a as [|c a IH]; cbn; [reflexivity | now rewrite IH]. Qed.

Lemma drop_all (a : string) : drop (String.length a) a = EmptyString.
Proof. induction a as [|c a IH]; cbn; [reflexivity | exact IH]. Qed.

Lemma length_app (a s : string) :
  String.length (a ++ s) = (String.length a + String.length s)%nat.
Proof. induction a as [|c a IH]; cbn; [reflexivity | now rewrite IH]. Qed.

Lemma app_empty (a : string) : a ++ EmptyString = a.
Proof. induction a as [|c a IH]; cbn; [reflexivity | now rewrite IH]. Qed.

Lemma startsWith_app (l t : string) : startsWith (l ++ t) l = true.
Proof.
  unfold startsWith. induction l as [|c l IH]; cbn; [destruct t; reflexivity|].
  destruct (ascii_dec c c); [exact IH | contradiction].
Qed.

Lemma matchAnchored_Literal (l : string) (rest : list atom) (t : string) :
  matchAnchored (Literal l :: rest) (l ++ t) = matchAnchored rest t.
Proof. cbn [matchAnchored]. rewrite startsWith_app, drop_app. reflexivity. Qed.

(** A digit is neither a line terminator, nor white space, nor a sign. *)
Lemma digit_class (c : ascii) :
  isDigit c = true ->
  isNotLineTerminator c = true /\ isWhiteSpace c = false
  /\ c <> "-"%char /\ c <> "+"%char.
Proof.
  destruct c as [[] [] [] [] [] [] [] []]; cbv; intro H;
    try discriminate; repeat split; try reflexivity; discriminate.
Qed.

(** A greedy repetition that can keep its longest run keeps it. *)
Lemma matchAnchored_Plus_longest (class : ascii -> bool) (captured : bool)
  (rest : list atom) (s : string) (n : nat) (groups : list string) :
  String.length (takeWhile class s) = S n ->
  matchAnchored rest (drop (S n) s) = Some groups ->
  matchAnchored (Plus class captured :: rest) s
  = Some (if captured then take (S n) s :: groups else groups).
Proof.
  intros Hn H. cbn [matchAnchored]. rewrite Hn. rewrite H. reflexivity.
Qed.

(** When the rest of the pattern does not match after the longest run, the
    repetition gives one character back. *)
Lemma matchAnchored_Plus_back (class : ascii -> bool) (captured : bool)
  (rest : list atom) (s : string) (n : nat) (groups : list string) :
  String.length (takeWhile class s) = S (S n) ->
  matchAnchored rest (drop (S (S n)) s) = None ->
  matchAnchored rest (drop (S n) s) = Some groups ->
  matchAnchored (Plus class captured :: rest) s
  = Some (if captured then take (S n) s :: groups else groups).
Proof.
  intros Hn H1 H2. cbn [matchAnchored]. rewrite Hn. rewrite H1, H2. reflexivity.
Qed.

Lemma matchAnchored_any (s : string) :
  s <> EmptyString -> all isNotLineTerminator s = true ->
  matchAnchored [Plus isNotLineTerminator false] s = Some [].
Proof.
  intros Hs Hall. destruct s as [|c s]; [contradiction|].
  apply (matchAnchored_Plus_longest isNotLineTerminator false [] (String c s)
           (String.length s) []).
  - rewrite takeWhile_all by assumption. reflexivity.
  - change (S (String.length s)) with (String.length (String c s)).
    rewrite drop_all. reflexivity.
Qed.

Lemma matchAnchored_any_empty :
  matchAnchored [Plus isNotLineTerminator false] EmptyString = None.
Proof. reflexivity. Qed.

(** [parseInt] of a string of digits, and of one behind a minus sign. *)
Lemma parseInt_digits (digits : string) :
  digits <> EmptyString -> all isDigit digits = true ->
  parseInt digits = roundToNumber (digitsValue 0 digits).
Proof.
  intros Hne Hall. destruct digits as [|c digits]; [contradiction|].
  pose proof Hall as Hall'. cbn in Hall'. apply andb_prop in Hall'.
  destruct Hall' as [Hc _].
  destruct (digit_class c Hc) as (_ & Hw & Hminus & Hplus).
  unfold parseInt. cbn [dropWhile]. rewrite Hw.
  assert (Hsign :
    (match String c digits with
     | String "-"%char rest => (true, rest)
     | String "+"%char rest => (false, rest)
     | _ => (false, String c digits)
     end) = (false, String c digits)).
  { destruct c as [[] [] [] [] [] [] [] []]; try reflexivity;
      exfalso; auto. }
  rewrite Hsign. rewrite takeWhile_all by assumption. reflexivity.
Qed.

Lemma parseInt_minus_digits (digits : string) :
  digits <> EmptyString -> all isDigit digits = true ->
  parseInt (String "-" digits) = roundToNumber (- digitsValue 0 digits).
Proof.
  intros Hne Hall. unfold parseInt.
  change (dropWhile isWhiteSpace (String "-" digits)) with (String "-" digits).
  cbv iota. rewrite takeWhile_all by assumption.
  destruct digits; [contradiction | reflexivity].
Qed.

(** An integer below 2^53 in absolute value is a number. *)
Lemma roundToNumber_exact (z : Z) : (Z.abs z < 2 ^ 53)%Z -> roundToNumber z = Int z.
Proof.
  intro H. unfold roundToNumber. apply Z.ltb_lt in H. rewrite H. reflexivity.
Qed.

Lemma digitsValue_app (a b : string) (acc : Z) :
  digitsValue acc (a ++ b) = digitsValue (digitsValue acc a) b.
Proof.
  revert acc. induction a as [|c a IH]; intro acc; cbn; [reflexivity | apply IH].
Qed.

Lemma all_app (p : ascii -> bool) (a b : string) :
  all p (a ++ b) = all p a && all p b.
Proof.
  induction a as [|c a IH]; cbn; [reflexivity|]. rewrite IH, andb_assoc. reflexivity.
Qed.

(** The digit of a number below ten. *)
Lemma decimal_digit (d : Z) :
  (0 <= d < 10)%Z ->
  isDigit (ascii_of_nat (48 + Z.to_nat d)) = true
  /\ digitValue (ascii_of_nat (48 + Z.to_nat d)) = d.
Proof.
  intro H.
  assert (Hd : (d = 0 \/ d = 1 \/ d = 2 \/ d = 3 \/ d = 4 \/ d = 5 \/ d = 6
                \/ d = 7 \/ d = 8 \/ d = 9)%Z) by lia.
  repeat (destruct Hd as [->|Hd]; [split; reflexivity|]). subst d. split; reflexivity.
Qed.

(** What [decimalDigits] writes in front of [acc]: the digits of [a], at
    most as many as [a] has powers of ten. *)
Lemma decimalDigits_spec (fuel : nat) :
  forall (a : Z) (acc : string),
    (0 <= a < 10 ^ Z.of_nat (S fuel))%Z ->
    exists digits,
      decimalDigits fuel a acc = digits ++ acc
      /\ digits <> EmptyString
      /\ all isDigit digits = true
      /\ digitsValue 0 digits = a
      /\ (String.length digits = 1%nat
          \/ (10 ^ (Z.of_nat (String.length digits) - 1) <= a)%Z).
Proof.
  induction fuel as [|fuel IH]; intros a acc Ha.
  - assert (H10 : (0 <= a mod 10 < 10)%Z) by (apply Z.mod_pos_bound; lia).
    change (10 ^ Z.of_nat 1)%Z with 10%Z in Ha.
    destruct (decimal_digit (a mod 10) H10) as [Hd Hv].
    exists (String (ascii_of_nat (48 + Z.to_nat (a mod 10))) EmptyString).
    cbn [decimalDigits String.append all digitsValue String.length].
    rewrite Hd, Hv. rewrite Z.mod_small by lia.
    repeat split; try reflexivity; try discriminate. left. reflexivity.
  - assert (H10 : (0 <= a mod 10 < 10)%Z) by (apply Z.mod_pos_bound; lia).
    destruct (decimal_digit (a mod 10) H10) as [Hd Hv].
    cbn [decimalDigits]. destruct (a <? 10)%Z eqn:Hlt.
    + apply Z.ltb_lt in Hlt.
      exists (String (ascii_of_nat (48 + Z.to_nat (a mod 10))) EmptyString).
      cbn [String.append all digitsValue String.length].
      rewrite Hd, Hv. rewrite Z.mod_small by lia.
      repeat split; try reflexivity; try discriminate. left. reflexivity.
    + apply Z.ltb_ge in Hlt.
      assert (Hq : (0 <= a / 10 < 10 ^ Z.of_nat (S fuel))%Z).
      { split; [apply Z.div_pos; lia|].
        apply Z.div_lt_upper_bound; [lia|].
        replace (Z.of_nat (S (S fuel))) with (Z.succ (Z.of_nat (S fuel))) in Ha by lia.
        rewrite Z.pow_succ_r in Ha by lia. lia. }
      destruct (IH (a / 10)%Z
                  (String (ascii_of_nat (48 + Z.to_nat (a mod 10))) acc) Hq)
        as (digits & Heq & Hne & Hall & Hval & Hlen).
      exists (digits ++ String (ascii_of_nat (48 + Z.to_nat (a mod 10))) EmptyString).
      split; [|split; [|split; [|split]]].
      * etransitivity; [exact Heq|]. clear.
        induction digits as [|c digits IHd]; cbn [String.append];
          [reflexivity | rewrite IHd; reflexivity].
      * destruct digits; [contradiction | discriminate].
      * rewrite all_app, Hall. cbn [all]. rewrite Hd. reflexivity.
      * rewrite digitsValue_app, Hval. cbn [digitsValue]. rewrite Hv.
        pose proof (Z.div_mod a 10). lia.
      * right. rewrite length_app. cbn [String.length].
        replace (Z.of_nat (String.length digits + 1) - 1)%Z
          with (Z.succ (Z.of_nat (String.length digits) - 1))%Z by lia.
        assert (Hpos : (0 <= Z.of_nat (String.length digits) - 1)%Z).
        { destruct digits; [contradiction | cbn [String.length]; lia]. }
        rewrite Z.pow_succ_r by exact Hpos.
        pose proof (Z.div_mod a 10).
        destruct Hlen as [Hlen|Hlen].
        -- rewrite Hlen. change (10 ^ (Z.of_nat 1 - 1))%Z with 1%Z. lia.
        -- lia.
Qed.

Lemma decimal_spec (a : Z) :
  (0 <= a)%Z ->
  decimal a <> EmptyString
  /\ all isDigit (decimal a) = true
  /\ digitsValue 0 (decimal a) = a
  /\ (String.length (decimal a) = 1%nat
      \/ (10 ^ (Z.of_nat (String.length (decimal a)) - 1) <= a)%Z).
Proof.
  intro Ha. unfold decimal.
  assert (Hfuel : (0 <= a < 10 ^ Z.of_nat (S (Z.to_nat (Z.log2 a))))%Z).
  { split; [exact Ha|].
    destruct (Z.eq_dec a 0) as [->|Hne]; [reflexivity|].
    pose proof (Z.log2_nonneg a) as Hl.
    assert (H2 : (a < 2 ^ Z.succ (Z.log2 a))%Z) by (apply Z.log2_spec; lia).
    replace (Z.of_nat (S (Z.to_nat (Z.log2 a)))) with (Z.succ (Z.log2 a)) by lia.
    apply (Z.lt_le_trans _ _ _ H2).
    apply Z.pow_le_mono_l. lia. }
  destruct (decimalDigits_spec _ a EmptyString Hfuel)
    as (digits & Heq & Hne & Hall & Hval & Hlen).
  rewrite app_empty in Heq. rewrite Heq. repeat split; assumption.
Qed.

(** The key of an integer below 2^53 in absolute value, and what
    [parseInt] reads from it. *)
Lemma Number_toString_exact (z : Z) :
  (Z.abs z < 2 ^ 53)%Z ->
  Number_toString (Int z)
  = ((if (z <? 0)%Z then "-" else "") ++ decimal (Z.abs z))%string.
Proof.
  intro H. unfold Number_toString, shortest.
  pose proof H as Hb. apply Z.ltb_lt in Hb. rewrite Hb.
  destruct (decimal_spec (Z.abs z) (Z.abs_nonneg z)) as (_ & _ & _ & Hlen).
  assert (Hshort : (String.length (decimal (Z.abs z)) <=? 21)%nat = true).
  { apply Nat.leb_le. destruct Hlen as [->|Hlen]; [lia|].
    destruct (Nat.le_gt_cases (String.length (decimal (Z.abs z))) 21) as [Hle|Hgt];
      [exact Hle|exfalso].
    assert (Hpow : (10 ^ 21 <= 10 ^ (Z.of_nat (String.length (decimal (Z.abs z))) - 1))%Z)
      by (apply Z.pow_le_mono_r; lia).
    assert (H53 : (2 ^ 53 < 10 ^ 21)%Z) by reflexivity.
    lia. }
  rewrite Hshort. reflexivity.
Qed.

Lemma parseInt_Number_toString (z : Z) :
  (Z.abs z < 2 ^ 53)%Z -> parseInt (Number_toString (Int z)) = Int z.
Proof.
  intro H. rewrite Number_toString_exact by exact H.
  destruct (decimal_spec (Z.abs z) (Z.abs_nonneg z)) as (Hne & Hall & Hval & _).
  destruct (z <? 0)%Z eqn:Hneg.
  - apply Z.ltb_lt in Hneg.
    change ("-" ++ decimal (Z.abs z))%string with (String "-" (decimal (Z.abs z))).
    rewrite parseInt_minus_digits by assumption. rewrite Hval.
    replace (- Z.abs z)%Z with z by lia. apply roundToNumber_exact. exact H.
  - apply Z.ltb_ge in Hneg.
    change ("" ++ decimal (Z.abs z))%string with (decimal (Z.abs z)).
    rewrite parseInt_digits by assumption. rewrite Hval.
    replace (Z.abs z) with z by lia. apply roundToNumber_exact. exact H.
Qed.

(** X10.  What the regular expression of the mesh cache,
    [/^\/meshes\/(\d+).+$/], reads from a pointer.  From a pointer that goes
    on after the digits of its index, as [/meshes/12/primitives/0] does, it
    reads the index.  It needs a character after the digits: from a pointer
    that ends in its index it reads the index without its last digit
    ([/meshes/12] is read as 1), and a pointer that ends in a single digit
    does not match.  [parseInt] then gives the number nearest to the integer
    that the digits denote, which is that integer when it is below 2^53
    (the digits of 2^53 + 1 are read as 2^53). *)
Theorem mesh_pointer_index (digits rest : string) (c d : ascii) :
  digits <> EmptyString -> all isDigit digits = true ->
  isDigit c = false -> all isNotLineTerminator (String c rest) = true ->
  isDigit d = true ->
  matchAnchored VRMManager.meshPattern ("/meshes/" ++ digits ++ String c rest)
  = Some [digits]
  /\ matchAnchored VRMManager.meshPattern ("/meshes/" ++ digits ++ String d "")
     = Some [digits]
  /\ matchAnchored VRMManager.meshPattern ("/meshes/" ++ String d "") = None
  /\ parseInt digits = roundToNumber (digitsValue 0 digits)
  /\ ((digitsValue 0 digits < 2 ^ 53)%Z -> parseInt digits = Int (digitsValue 0 digits))
  /\ parseInt "9007199254740993" = Int 9007199254740992.
Proof.
  intros Hne Hdigits Hc Hrest Hd.
  assert (Hlen : exists n, String.length digits = S n).
  { destruct digits; [contradiction|]. cbn. eauto. }
  destruct Hlen as [n Hn].
  split; [|split; [|split; [|split; [|split]]]].
  - unfold VRMManager.meshPattern. rewrite matchAnchored_Literal.
    rewrite (matchAnchored_Plus_longest isDigit true _ _ n []).
    + rewrite <- Hn, take_app. reflexivity.
    + rewrite takeWhile_app by assumption. cbn [takeWhile]. rewrite Hc.
      rewrite length_app. cbn. lia.
    + rewrite <- Hn, drop_app. apply matchAnchored_any; [discriminate | assumption].
  - unfold VRMManager.meshPattern. rewrite matchAnchored_Literal.
    rewrite (matchAnchored_Plus_back isDigit true _ _ n []).
    + rewrite <- Hn, take_app. reflexivity.
    + rewrite takeWhile_app by assumption. cbn [takeWhile]. rewrite Hd.
      rewrite length_app. cbn. lia.
    + replace (S (S n)) with (String.length (digits ++ String d ""))
        by (rewrite length_app; cbn; lia).
      rewrite drop_all. reflexivity.
    + rewrite <- Hn, drop_app. apply matchAnchored_any; [discriminate|].
      cbn. rewrite (proj1 (digit_class d Hd)). reflexivity.
  - unfold VRMManager.meshPattern. rewrite matchAnchored_Literal.
    cbn [matchAnchored takeWhile]. rewrite Hd. reflexivity.
  - apply parseInt_digits; assumption.
  - intro Hsmall. rewrite parseInt_digits by assumption.
    apply roundToNumber_exact.
    assert (Hpos : forall s acc, (0 <= acc)%Z -> (0 <= digitsValue acc s)%Z).
    { induction s as [|x s IH]; intros acc Hacc; cbn [digitsValue]; [exact Hacc|].
      apply IH. unfold digitValue. lia. }
    specialize (Hpos digits 0%Z (Z.le_refl 0)). lia.
  - vm_compute. reflexivity.
Qed.

End Pointers.

(** The pointers [/meshes/12/primitives/0], [/meshes/12] and [/meshes/2]. *)
Lemma mesh_pointer_index_witness :
  JSString.matchAnchored VRMManager.meshPattern "/meshes/12/primitives/0" = Some ["12"%string]
  /\ JSString.matchAnchored VRMManager.meshPattern "/meshes/12" = Some ["1"%string]
  /\ JSString.matchAnchored VRMManager.meshPattern "/meshes/2" = None
  /\ JSString.parseInt "1" = JSString.Int 1.
Proof.
  pose proof (mesh_pointer_index "12" "primitives/0" "/" "2") as H12.
  pose proof (mesh_pointer_index "1" "primitives/0" "/" "2") as H1.
  destruct H12 as (A & _); try reflexivity; try discriminate.
  destruct H1 as (_ & B & C & _ & D & _); try reflexivity; try discriminate.
  split; [exact A | split; [exact B | split; [exact C | apply D; reflexivity]]].
Defined.

(** ** The caches of the manager *)

Section Caches.
Import JSString.
Import VRMManager.

Lemma find_app {A : Type} (f : A -> bool) (l1 l2 : list A) :
  find f (l1 ++ l2)
  = match find f l1 with
    | Some x => Some x
    | None => find f l2
    end.
Proof.
  induction l1 as [|a l1 IH]; cbn; [reflexivity|].
  destruct (f a); [reflexivity | exact IH].
Qed.

Lemma elementsFrom_fold {A S : Type} (step : S -> option A -> S) (from : Z)
  (array : list A) (s : S) :
  (forall s, step s None = s) ->
  fold_left step (elementsFrom from array) s
  = fold_left (fun s a => step s (Some a)) (skipn (Z.to_nat from) array) s.
Proof.
  intro Hnone. unfold elementsFrom. rewrite fold_left_app.
  assert (H : forall n, fold_left step (repeat None n) s = s).
  { induction n as [|n IH]; cbn; [reflexivity|]. rewrite Hnone. exact IH. }
  rewrite H. clear H. generalize (skipn (Z.to_nat from) array) s.
  induction l as [|a l IH]; intro s0; cbn; [reflexivity | apply IH].
Qed.

(** The cache after the loop over a list of nodes: a key holds the last
    node of the list that the loop registers under it. *)
Lemma transformNodeCache_get (scene : BabylonScene) (l : list nodeId)
  (cache : TransformNodeCache) (i : number) :
  JSObject.get number_eqb
    (fold_left
       (fun cache node =>
          match registeredPointers (info scene node) with
          | None => cache
          | Some ps =>
              match firstNodePointer ps with
              | Some nodeIndex => JSObject.set number_eqb cache nodeIndex node
              | None => cache
              end
          end) l cache) i
  = match
      find (fun node =>
              match nodeIndexOf (info scene node) with
              | Some k => number_eqb k i
              | None => false
              end) (rev l)
    with
    | Some node => Some node
    | None => JSObject.get number_eqb cache i
    end.
Proof.
  induction l as [|a l IH] using rev_ind; [reflexivity|].
  rewrite fold_left_app, rev_app_distr. cbn [fold_left rev app find].
  unfold nodeIndexOf at 1.
  destruct (registeredPointers (info scene a)) as [ps|]; [|exact IH].
  destruct (firstNodePointer ps) as [k|]; [|exact IH].
  rewrite (get_set _ _ number_eqb number_eqb_eq).
  destruct (number_eqb k i); [reflexivity | exact IH].
Qed.

(** Every entry of the cache holds a node under the index its pointers
    give, and no key twice. *)
Lemma transformNodeCache_entries (scene : BabylonScene) (l : list nodeId)
  (cache : TransformNodeCache) :
  NoDup (map fst cache) ->
  (forall k n, In (k, n) cache -> nodeIndexOf (info scene n) = Some k) ->
  let cache' :=
    fold_left
      (fun cache node =>
         match registeredPointers (info scene node) with
         | None => cache
         | Some ps =>
             match firstNodePointer ps with
             | Some nodeIndex => JSObject.set number_eqb cache nodeIndex node
             | None => cache
             end
         end) l cache in
  NoDup (map fst cache')
  /\ (forall k n, In (k, n) cache' -> nodeIndexOf (info scene n) = Some k).
Proof.
  revert cache. induction l as [|a l IH]; intros cache Hnd Hin; cbn; [auto|].
  apply IH.
  - destruct (registeredPointers (info scene a)) as [ps|]; [|exact Hnd].
    destruct (firstNodePointer ps) as [k|]; [|exact Hnd].
    apply (NoDup_set _ _ number_eqb number_eqb_eq). exact Hnd.
  - destruct (registeredPointers (info scene a)) as [ps|] eqn:Hps; [|exact Hin].
    destruct (firstNodePointer ps) as [k|] eqn:Hk; [|exact Hin].
    intros k' n H.
    pose proof (NoDup_set _ _ number_eqb number_eqb_eq cache k a Hnd) as Hnd'.
    apply (In_get _ _ number_eqb number_eqb_eq _ _ _ Hnd') in H.
    rewrite (get_set _ _ number_eqb number_eqb_eq) in H.
    destruct (number_eqb k k') eqn:E.
    + apply number_eqb_eq in E. subst k'. injection H as <-.
      unfold nodeIndexOf. rewrite Hps. exact Hk.
    + apply Hin. apply (get_In _ _ number_eqb number_eqb_eq). exact H.
Qed.

Lemma constructTransformNodeCache_fold (scene : BabylonScene) (from : Z) :
  constructTransformNodeCache scene from
  = fold_left
      (fun cache node =>
         match registeredPointers (info scene node) with
         | None => cache
         | Some ps =>
             match firstNodePointer ps with
             | Some nodeIndex => JSObject.set number_eqb cache nodeIndex node
             | None => cache
             end
         end) (skipn (Z.to_nat from) (transformNodes scene)) [].
Proof.
  unfold constructTransformNodeCache.
  rewrite elementsFrom_fold by reflexivity. reflexivity.
Qed.

Lemma findTransformNode_constructed (scene : BabylonScene)
  (transformNodesFrom : Z) (nodeIndex : number) :
  findTransformNode (constructTransformNodeCache scene transformNodesFrom) nodeIndex
  = find (fun node =>
            match nodeIndexOf (info scene node) with
            | Some k => number_eqb k nodeIndex
            | None => false
            end)
         (rev (skipn (Z.to_nat transformNodesFrom) (transformNodes scene))).
Proof.
  unfold findTransformNode.
  rewrite constructTransformNodeCache_fold, transformNodeCache_get.
  destruct (find _ _); reflexivity.
Qed.

(** X11.  [findTransformNode] on the cache that the constructor builds
    returns, for a node index, the last transform node of the scene, from
    position [transformNodesFrom] on, whose first pointer that starts with
    [/nodes/] carries that index, and [null] when there is none: a node
    that was in the scene before the model was loaded is never returned,
    and of two nodes with one index the later one wins. *)
Theorem findTransformNode_last_registered (scene : BabylonScene)
  (transformNodesFrom : Z) (nodeIndex : number) :
  let own := skipn (Z.to_nat transformNodesFrom) (transformNodes scene) in
  let found :=
    findTransformNode (constructTransformNodeCache scene transformNodesFrom)
      nodeIndex in
  found
  = find (fun node =>
            match nodeIndexOf (info scene node) with
            | Some k => number_eqb k nodeIndex
            | None => false
            end) (rev own)
  /\ (forall node, found = Some node ->
        In node own /\ nodeIndexOf (info scene node) = Some nodeIndex)
  /\ ((forall node, In node own -> nodeIndexOf (info scene node) <> Some nodeIndex)
      -> found = None).
Proof.
  intros own found.
  assert (Hfound : found
    = find (fun node =>
              match nodeIndexOf (info scene node) with
              | Some k => number_eqb k nodeIndex
              | None => false
              end) (rev own)).
  { subst found own. apply findTransformNode_constructed. }
  split; [exact Hfound|]. split.
  - intros node H. rewrite Hfound in H. apply find_some in H.
    destruct H as [Hin Hk]. rewrite <- in_rev in Hin. split; [exact Hin|].
    destruct (nodeIndexOf (info scene node)) as [k|]; [|discriminate].
    apply number_eqb_eq in Hk. congruence.
  - intro Hnone. rewrite Hfound.
    destruct (find _ _) as [node|] eqn:E; [|reflexivity].
    apply find_some in E. destruct E as [Hin Hk]. rewrite <- in_rev in Hin.
    exfalso. apply (Hnone node Hin).
    destruct (nodeIndexOf (info scene node)) as [k|]; [|discriminate].
    apply number_eqb_eq in Hk. congruence.
Qed.

(** X12.  [indexOfTransformNode] on the cache that the constructor builds.
    The index of a node that [findTransformNode] returns under an index is
    what [parseInt] reads from the key of that index.  That is the index
    itself when it is NaN or an integer below 2^53 in absolute value, and
    the node is then found again under its index.  It is not the index for
    every number: a node with the pointer [/nodes/1000000000000000000000]
    is stored under the key [1e+21] and has the index 1, under which no
    node is found, and the key of an infinite index reads as NaN.  The index
    of [null], and of a node that is not in the cache, is -1. *)
Theorem indexOfTransformNode_inverse (scene : BabylonScene)
  (transformNodesFrom : Z) :
  let cache := constructTransformNodeCache scene transformNodesFrom in
  let readsBack (k : number) :=
    match k with
    | Int z => (Z.abs z <? 2 ^ 53)%Z
    | Infinity _ => false
    | NaN => true
    end in
  let far :=
    constructTransformNodeCache
      (mkBabylonScene [2%nat] []
         (fun _ =>
            mkNodeInfo "far" "far"
              (Some (mkMetadata
                       (Some (mkGltfMetadata
                                (Some ["/nodes/1000000000000000000000"%string])))))))
      0 in
  (forall nodeIndex node,
     findTransformNode cache nodeIndex = Some node ->
     indexOfTransformNode cache (Some node) = parseInt (Number_toString nodeIndex)
     /\ (readsBack nodeIndex = true ->
         indexOfTransformNode cache (Some node) = nodeIndex
         /\ findTransformNode cache (indexOfTransformNode cache (Some node))
            = Some node))
  /\ indexOfTransformNode cache None = Int (-1)
  /\ (forall node,
        (forall nodeIndex, findTransformNode cache nodeIndex <> Some node) ->
        indexOfTransformNode cache (Some node) = Int (-1))
  /\ (findTransformNode far (Int (10 ^ 21)) = Some 2%nat
      /\ indexOfTransformNode far (Some 2%nat) = Int 1
      /\ findTransformNode far (Int 1) = None)
  /\ parseInt (Number_toString (Infinity false)) = NaN.
Proof.
  intros cache readsBack far.
  destruct (transformNodeCache_entries scene
              (skipn (Z.to_nat transformNodesFrom) (transformNodes scene)) []
              (NoDup_nil _) (fun k n (H : In (k, n) []) => match H with end))
    as [Hnd Hidx].
  rewrite <- constructTransformNodeCache_fold in Hnd, Hidx. fold cache in Hnd, Hidx.
  assert (Hfind : forall node k n,
            find (fun entry : number * nodeId => Nat.eqb node (snd entry))
                 (JSObject.entries numberArrayIndex cache) = Some (k, n) ->
            n = node /\ In (k, node) cache).
  { intros node k n H. apply find_some in H. destruct H as [Hin Heq].
    cbn in Heq. apply Nat.eqb_eq in Heq. subst n. split; [reflexivity|].
    apply In_entries in Hin. exact Hin. }
  assert (Hindex : forall nodeIndex node,
            findTransformNode cache nodeIndex = Some node ->
            indexOfTransformNode cache (Some node)
            = parseInt (Number_toString nodeIndex)).
  { intros nodeIndex node H. unfold findTransformNode in H.
    apply (get_In _ _ number_eqb number_eqb_eq) in H.
    unfold indexOfTransformNode.
    destruct (find _ _) as [[k n]|] eqn:E.
    - destruct (Hfind _ _ _ E) as [-> Hin].
      pose proof (Hidx _ _ Hin) as H1. pose proof (Hidx _ _ H) as H2. congruence.
    - exfalso.
      assert (Hin : In (nodeIndex, node) (JSObject.entries numberArrayIndex cache))
        by (apply In_entries; exact H).
      pose proof (find_none _ _ E _ Hin) as Hno. cbn in Hno.
      rewrite Nat.eqb_refl in Hno. discriminate. }
  split; [|split; [|split; [|split]]].
  - intros nodeIndex node H. split; [apply Hindex; exact H|].
    intro Hback.
    assert (Hsame : indexOfTransformNode cache (Some node) = nodeIndex).
    { rewrite (Hindex _ _ H). destruct nodeIndex as [z|negative|];
        [|discriminate|reflexivity].
      apply parseInt_Number_toString. apply Z.ltb_lt. exact Hback. }
    split; [exact Hsame|]. rewrite Hsame. exact H.
  - unfold indexOfTransformNode.
    destruct (find _ _) as [[k n]|] eqn:E; [|reflexivity].
    apply find_some in E. destruct E as [_ E]. discriminate.
  - intros node H. unfold indexOfTransformNode.
    destruct (find _ _) as [[k n]|] eqn:E; [|reflexivity].
    destruct (Hfind _ _ _ E) as [-> Hin]. exfalso. apply (H k).
    unfold findTransformNode.
    apply (In_get _ _ number_eqb number_eqb_eq); assumption.
  - subst far. vm_compute. repeat split; reflexivity.
  - vm_compute. reflexivity.
Qed.

Lemma constructMeshCache_failed (scene : BabylonScene) (l : list (option nodeId))
  (e : Exception) :
  fold_left
    (fun state element =>
       match state with
       | inl e => inl e
       | inr (cache, rootMesh) =>
           match element with
           | None => inl TypeError
           | Some mesh =>
               if String.eqb (info_id (info scene mesh)) "__root__"
               then inr (cache, Some mesh)
               else
                 match registeredPointers (info scene mesh) with
                 | None => inr (cache, rootMesh)
                 | Some ps =>
                     match firstMeshPointer ps with
                     | Some nodeIndex =>
                         inr (JSObject.set number_eqb cache nodeIndex
                                (SpringBoneController.orEmpty
                                   (JSObject.get number_eqb cache nodeIndex)
                                 ++ [mesh]),
                              rootMesh)
                     | None => inr (cache, rootMesh)
                     end
                 end
           end
       end) l (inl e : Exception + (MeshCache * option nodeId))
  = inl e.
Proof. induction l as [|a l IH]; cbn; [reflexivity | exact IH]. Qed.

Lemma constructMeshCache_loop (scene : BabylonScene) (l : list nodeId)
  (cache : MeshCache) (rootMesh : option nodeId) :
  exists cache',
    fold_left
      (fun state element =>
         match state with
         | inl e => inl e
         | inr (cache, rootMesh) =>
             match element with
             | None => inl TypeError
             | Some mesh =>
                 if String.eqb (info_id (info scene mesh)) "__root__"
                 then inr (cache, Some mesh)
                 else
                   match registeredPointers (info scene mesh) with
                   | None => inr (cache, rootMesh)
                   | Some ps =>
                       match firstMeshPointer ps with
                       | Some nodeIndex =>
                           inr (JSObject.set number_eqb cache nodeIndex
                                  (SpringBoneController.orEmpty
                                     (JSObject.get number_eqb cache nodeIndex)
                                   ++ [mesh]),
                                rootMesh)
                       | None => inr (cache, rootMesh)
                       end
                   end
             end
         end) (map Some l) (inr (cache, rootMesh))
    = inr (cache',
           match
             find (fun mesh => String.eqb (info_id (info scene mesh)) "__root__")
                  (rev l)
           with
           | Some mesh => Some mesh
           | None => rootMesh
           end)
    /\ (forall i,
         JSObject.get number_eqb cache' i
         = match
             filter (fun mesh =>
                       negb (String.eqb (info_id (info scene mesh)) "__root__")
                       && match meshIndexOf (info scene mesh) with
                          | Some k => number_eqb k i
                          | None => false
                          end) l
           with
           | [] => JSObject.get number_eqb cache i
           | new =>
               Some (SpringBoneController.orEmpty (JSObject.get number_eqb cache i)
                     ++ new)
           end)
    /\ (NoDup (map fst cache) -> NoDup (map fst cache')).
Proof.
  revert cache rootMesh. induction l as [|a l IH]; intros cache rootMesh.
  - exists cache. split; [|split]; auto.
  - cbn [map fold_left rev filter]. rewrite find_app. cbn [find].
    destruct (String.eqb (info_id (info scene a)) "__root__") eqn:Hroot.
    + cbn [negb andb].
      destruct (IH cache (Some a)) as (cache' & Heq & Hget & Hnd).
      exists cache'. split; [|split; [exact Hget | exact Hnd]].
      refine (eq_trans Heq _). destruct (find _ (rev l)); reflexivity.
    + cbn [negb andb].
      destruct (registeredPointers (info scene a)) as [ps|] eqn:Hps.
      * destruct (firstMeshPointer ps) as [k|] eqn:Hk.
        -- assert (Hm : meshIndexOf (info scene a) = Some k)
             by (unfold meshIndexOf; rewrite Hps; exact Hk).
           rewrite Hm.
           destruct (IH (JSObject.set number_eqb cache k
                           (SpringBoneController.orEmpty (JSObject.get number_eqb cache k)
                            ++ [a])) rootMesh) as (cache' & Heq & Hget & Hnd).
           exists cache'. split; [|split].
           ++ refine (eq_trans Heq _). destruct (find _ (rev l)); reflexivity.
           ++ intro i. rewrite Hget. rewrite (get_set _ _ number_eqb number_eqb_eq).
              destruct (number_eqb k i) eqn:E.
              ** apply number_eqb_eq in E. subst i.
                 cbn [SpringBoneController.orEmpty].
                 destruct (filter _ l) as [|m ms].
                 --- reflexivity.
                 --- rewrite <- app_assoc. reflexivity.
              ** reflexivity.
           ++ intro H. apply Hnd.
              apply (NoDup_set _ _ number_eqb number_eqb_eq). exact H.
        -- assert (Hm : meshIndexOf (info scene a) = None)
             by (unfold meshIndexOf; rewrite Hps; exact Hk).
           rewrite Hm.
           destruct (IH cache rootMesh) as (cache' & Heq & Hget & Hnd).
           exists cache'. split; [|split; [exact Hget | exact Hnd]].
           refine (eq_trans Heq _). destruct (find _ (rev l)); reflexivity.
      * assert (Hm : meshIndexOf (info scene a) = None)
          by (unfold meshIndexOf; rewrite Hps; reflexivity).
        rewrite Hm.
        destruct (IH cache rootMesh) as (cache' & Heq & Hget & Hnd).
        exists cache'. split; [|split; [exact Hget | exact Hnd]].
        refine (eq_trans Heq _). destruct (find _ (rev l)); reflexivity.
Qed.

(** X13.  [constructMeshCache] reads the meshes of the scene from position
    [meshesFrom] on.  A negative [meshesFrom] makes it read [id] of
    [undefined], a TypeError.  Otherwise [_rootMesh] is the last of these
    meshes whose id is [__root__], and [findMeshes] returns for a mesh
    index the other meshes whose first matching pointer carries that index,
    in scene order; it returns [null] when there is none, never an empty
    array. *)
Theorem constructMeshCache_groups_meshes (scene : BabylonScene) (meshesFrom : Z) :
  let own := skipn (Z.to_nat meshesFrom) (meshes scene) in
  ((meshesFrom < 0)%Z -> constructMeshCache scene meshesFrom = inl TypeError)
  /\ ((0 <= meshesFrom)%Z ->
      exists cache,
        constructMeshCache scene meshesFrom
        = inr (cache,
               find (fun mesh => String.eqb (info_id (info scene mesh)) "__root__")
                    (rev own))
        /\ (forall meshIndex,
              findMeshes cache meshIndex
              = match
                  filter (fun mesh =>
                            negb (String.eqb (info_id (info scene mesh)) "__root__")
                            && match meshIndexOf (info scene mesh) with
                               | Some k => number_eqb k meshIndex
                               | None => false
                               end) own
                with
                | [] => None
                | found => Some found
                end)
        /\ (forall meshIndex, findMeshes cache meshIndex <> Some [])).
Proof.
  intro own. split.
  - intro Hneg. unfold constructMeshCache, elementsFrom.
    destruct (Z.to_nat (- meshesFrom)) as [|n] eqn:E; [lia|].
    cbn [repeat app fold_left]. apply constructMeshCache_failed.
  - intro Hpos. unfold constructMeshCache, elementsFrom.
    replace (Z.to_nat (- meshesFrom)) with O by lia. cbn [repeat app].
    fold own.
    destruct (constructMeshCache_loop scene own [] None) as (cache & Heq & Hget & _).
    exists cache. split; [|split].
    + refine (eq_trans Heq _). destruct (find _ (rev own)); reflexivity.
    + intro i. unfold findMeshes. rewrite Hget. cbn [JSObject.get].
      destruct (filter _ own); reflexivity.
    + intro i. unfold findMeshes. rewrite Hget. cbn [JSObject.get].
      destruct (filter _ own); discriminate.
Qed.

End Caches.

(** ** Bones: the humanoid map and the resolver of the spring bones *)

Lemma string_eqb_eq (a b : string) : String.eqb a b = true <-> a = b.
Proof. apply String.eqb_eq. Qed.

Section Bones.
Context {F : Type} {N : JSNumber F}.
Import JSString.
Import VRMManager.

Lemma fillTransformNodeMap_get (cache : TransformNodeCache)
  (l : list IVRMHumanoidBone) (map0 : HumanoidBone.TransformNodeMap) (name : string) :
  JSObject.get String.eqb
    (fold_left
       (fun map b =>
          match findTransformNode cache (Int (bone_node b)) with
          | None => map
          | Some node => JSObject.set String.eqb map (bone b) node
          end) l map0) name
  = match
      find (fun b =>
              String.eqb (bone b) name
              && match findTransformNode cache (Int (bone_node b)) with
                 | Some _ => true
                 | None => false
                 end) (rev l)
    with
    | Some b => findTransformNode cache (Int (bone_node b))
    | None => JSObject.get String.eqb map0 name
    end.
Proof.
  induction l as [|a l IH] using rev_ind; [reflexivity|].
  rewrite fold_left_app, rev_app_distr. cbn [fold_left rev app find].
  destruct (findTransformNode cache (Int (bone_node a))) as [node|] eqn:Hn.
  - rewrite (get_set _ _ String.eqb string_eqb_eq).
    destruct (String.eqb (bone a) name); cbn [andb]; [now rewrite Hn | exact IH].
  - rewrite andb_false_r. exact IH.
Qed.

(** X14.  The humanoid bones of a manager.  A getter of [HumanoidBone]
    returns the node of the last entry of [humanBones] with the name of the
    bone whose node index is in the transform-node cache; entries whose
    node is not found are passed over.  When no entry of that name is
    found, an optional bone is [null] and a mandatory bone throws
    [BoneNotFoundError] with the name.  After [dispose()] every optional
    bone is [null] and every mandatory bone throws a TypeError instead. *)
Theorem humanoid_bone_of_last_resolved_entry (ext : IVRM F)
  (cache : TransformNodeCache) (name : string) :
  let this := HumanoidBone.constructor (fillTransformNodeMap ext cache []) in
  let entry :=
    find (fun b =>
            String.eqb (bone b) name
            && match findTransformNode cache (Int (bone_node b)) with
               | Some _ => true
               | None => false
               end) (rev (humanBones ext)) in
  HumanoidBone.getOptionalBone this name
  = match entry with
    | Some b => findTransformNode cache (Int (bone_node b))
    | None => None
    end
  /\ HumanoidBone.getMandatoryBone this name
     = match HumanoidBone.getOptionalBone this name with
       | Some node => inr node
       | None => inl (HumanoidBone.BoneNotFoundError name)
       end
  /\ HumanoidBone.getOptionalBone (HumanoidBone.dispose this) name = None
  /\ HumanoidBone.getMandatoryBone (HumanoidBone.dispose this) name
     = inl HumanoidBone.TypeError.
Proof.
  intros this entry. split; [|split; [|split]]; try reflexivity.
  - subst this entry. unfold HumanoidBone.getOptionalBone, HumanoidBone.constructor.
    cbn [HumanoidBone.nodeMap HumanoidBone._nodeMap]. unfold HumanoidBone.lookup.
    unfold fillTransformNodeMap. rewrite fillTransformNodeMap_get.
    destruct (find _ _); reflexivity.
Qed.

(** X15.  The spring bones of a manager get their nodes from the
    transform-node cache: the root bones and the centre of a spring are
    what [findTransformNode] returns for the configured indices, so an
    index that no node of the model carries in a [/nodes/] pointer gives a
    [null] bone, and so does the index of a node that was in the scene
    before the model was loaded. *)
Theorem manager_resolves_spring_bones (scene : BabylonScene)
  (transformNodesFrom : Z) (ext : IVRM F)
  (options : option (SpringBoneController.ConstructSpringsOptions F)) :
  let own := skipn (Z.to_nat transformNodesFrom) (transformNodes scene) in
  let lastOf (nodeIndex : Z) :=
    find (fun node =>
            match nodeIndexOf (info scene node) with
            | Some k => number_eqb k (Int nodeIndex)
            | None => false
            end) (rev own) in
  let controller :=
    SpringBoneController.constructor (secondaryAnimation ext)
      (getBone (constructTransformNodeCache scene transformNodesFrom)) options in
  map (@SpringBoneController.sb_bones F) (SpringBoneController.springs controller)
  = map (fun s => map lastOf (SpringBoneController.orEmpty (SpringBoneController.bones s)))
        (SpringBoneController.orEmpty
           (SpringBoneController.boneGroups (secondaryAnimation ext)))
  /\ map (@SpringBoneController.sb_center F) (SpringBoneController.springs controller)
     = map (fun s => lastOf (SpringBoneController.center s))
           (SpringBoneController.orEmpty
              (SpringBoneController.boneGroups (secondaryAnimation ext))).
Proof.
  intros own lastOf controller. subst controller.
  unfold SpringBoneController.constructor. cbn [SpringBoneController.springs].
  destruct (constructSprings_map (secondaryAnimation ext)
              (getBone (constructTransformNodeCache scene transformNodesFrom))
              (SpringBoneController.constructColliderGroups (secondaryAnimation ext)
                 (getBone (constructTransformNodeCache scene transformNodesFrom)))
              options) as (fs & Hs & Hfs).
  rewrite Hs. rewrite !map_map.
  assert (Hget : forall i,
            getBone (constructTransformNodeCache scene transformNodesFrom) i = lastOf i).
  { intro i. unfold getBone.
    apply findTransformNode_constructed. }
  split; apply map_ext; intro s;
    destruct (Hfs s) as (_ & _ & _ & _ & _ & Hc & _ & Hb & _).
  - rewrite Hb. apply map_ext. exact Hget.
  - rewrite Hc. apply Hget.
Qed.

End Bones.

(** ** Morph targets *)

Section Morphing.
Context {F : Type} {N : JSNumber F}.
Import VRMManager.

(** The last setting of a list that names a target. *)
Let lastSettingOf (settings : list (MorphTargetSetting F)) (n : nat)
  : option (MorphTargetSetting F) :=
  find (fun s => match target s with Some t => Nat.eqb n t | None => false end)
       (rev settings).

Lemma setInfluences_defined (settings : list (MorphTargetSetting F)) (value : F)
  (influence : nat -> F) :
  Forall (fun s => target s <> None) settings ->
  fst (setInfluences settings value influence) = None
  /\ forall n,
       snd (setInfluences settings value influence) n
       = match lastSettingOf settings n with
         | Some s => influenceOf value s
         | None => influence n
         end.
Proof.
  unfold lastSettingOf.
  intro H. revert influence. induction H as [|s l Hs _ IH]; intro influence.
  - split; reflexivity.
  - cbn [setInfluences rev]. destruct (target s) as [t|] eqn:Ht; [|contradiction].
    destruct (IH (fun n => if Nat.eqb n t then influenceOf value s else influence n))
      as [H1 H2].
    split; [exact H1|]. intro n. rewrite H2, find_app. cbn [find]. rewrite Ht.
    destruct (find _ (rev l)); [reflexivity|].
    destruct (Nat.eqb n t); reflexivity.
Qed.

Lemma setInfluences_undefined (before after : list (MorphTargetSetting F))
  (s : MorphTargetSetting F) (value : F) (influence : nat -> F) :
  Forall (fun s => target s <> None) before -> target s = None ->
  fst (setInfluences (before ++ s :: after) value influence) = Some TypeError
  /\ forall n,
       snd (setInfluences (before ++ s :: after) value influence) n
       = match lastSettingOf before n with
         | Some s => influenceOf value s
         | None => influence n
         end.
Proof.
  unfold lastSettingOf.
  intros H Hs. revert influence. induction H as [|s0 l Hs0 _ IH]; intro influence.
  - cbn. rewrite Hs. split; reflexivity.
  - cbn [app setInfluences rev]. destruct (target s0) as [t|] eqn:Ht; [|contradiction].
    destruct (IH (fun n => if Nat.eqb n t then influenceOf value s0 else influence n))
      as [H1 H2].
    split; [exact H1|]. intro n. rewrite H2, find_app. cbn [find]. rewrite Ht.
    destruct (find _ (rev l)); [reflexivity|].
    destruct (Nat.eqb n t); reflexivity.
Qed.

(** X16.  [morphing(label, value)].  A label without settings changes
    nothing, unless it is the name of a member of [Object.prototype]
    ([constructor], [toString], ...): the map is a plain object, the
    inherited member is truthy and has no [forEach], and the call ends in a
    TypeError.  Otherwise the settings of the label are applied in order:
    every morph target they name gets the influence
    [max(0, min(1, value)) * (weight / 100)] of the last setting that names
    it, and every other target keeps its influence.  A setting whose target
    is [undefined] (the bind named an index that the mesh has no target
    for) stops the loop with a TypeError; the settings before it have been
    applied. *)
Theorem morphing_sets_influences (maps : MorphMaps F) (label : string) (value : F)
  (influence : nat -> F) :
  let result := morphing maps label value influence in
  let applied (settings : list (MorphTargetSetting F)) (n : nat) :=
    match
      find (fun s => match target s with Some t => Nat.eqb n t | None => false end)
           (rev settings)
    with
    | Some s => influenceOf value s
    | None => influence n
    end in
  (JSObject.get String.eqb (morphTargetMap maps) label = None ->
   (inherited label = false -> result = (None, influence))
   /\ (inherited label = true -> result = (Some TypeError, influence)))
  /\ (forall settings,
        JSObject.get String.eqb (morphTargetMap maps) label = Some settings ->
        Forall (fun s => target s <> None) settings ->
        fst result = None /\ forall n, snd result n = applied settings n)
  /\ (forall before s after,
        JSObject.get String.eqb (morphTargetMap maps) label
        = Some (before ++ s :: after) ->
        Forall (fun s => target s <> None) before -> target s = None ->
        fst result = Some TypeError /\ forall n, snd result n = applied before n)
  /\ morphing (mkMorphMaps [] [] []) "constructor" value influence
     = (Some TypeError, influence).
Proof.
  intros result applied. subst result applied. unfold morphing, morphingIn.
  split; [|split; [|split]].
  - intro H. rewrite H. split; intros ->; reflexivity.
  - intros settings H Hall. rewrite H. apply setInfluences_defined. exact Hall.
  - intros before s after H Hall Hs. rewrite H.
    apply setInfluences_undefined; assumption.
  - reflexivity.
Qed.

(** The keys that [Object.keys] lists depend on the keys of the object
    only. *)
Lemma keys_same {V1 V2 : Type} (arrayIndex : string -> option Z)
  (o1 : JSObject.t string V1) (o2 : JSObject.t string V2) :
  map fst o1 = map fst o2 ->
  JSObject.keys arrayIndex o1 = JSObject.keys arrayIndex o2.
Proof.
  intro H. unfold JSObject.keys, JSObject.entries. rewrite !map_app. f_equal.
  - assert (Hs : forall (acc1 : list (Z * (string * V1)))
                        (acc2 : list (Z * (string * V2))),
              map (fun x => (fst x, fst (snd x))) acc1
              = map (fun x => (fst x, fst (snd x))) acc2 ->
              map (fun x => (fst x, fst (snd x)))
                (fold_left
                   (fun sorted e =>
                      match arrayIndex (fst e) with
                      | Some i => JSObject.insertByIndex i e sorted
                      | None => sorted
                      end) o1 acc1)
              = map (fun x => (fst x, fst (snd x)))
                  (fold_left
                     (fun sorted e =>
                        match arrayIndex (fst e) with
                        | Some i => JSObject.insertByIndex i e sorted
                        | None => sorted
                        end) o2 acc2)).
    { revert o2 H. induction o1 as [|[k v] o1 IH]; intros [|[k' v'] o2] H acc1 acc2 Hacc;
        try discriminate; cbn [fold_left]; [exact Hacc|].
      cbn in H. injection H as <- H. apply IH; [exact H|].
      cbn [fst]. destruct (arrayIndex k) as [i|]; [|exact Hacc].
      clear - Hacc. revert acc2 Hacc.
      induction acc1 as [|[j e] acc1 IHa]; intros [|[j' e'] acc2] Hacc;
        try discriminate; cbn; [reflexivity|].
      cbn in Hacc. injection Hacc as <- He Hacc.
      destruct (i <? j)%Z; cbn; rewrite ?He.
      - f_equal. f_equal. exact Hacc.
      - f_equal. apply IHa. exact Hacc. }
    specialize (Hs [] [] eq_refl).
    rewrite !map_map.
    apply (f_equal (map snd)) in Hs. rewrite !map_map in Hs. exact Hs.
  - revert o2 H. induction o1 as [|[k v] o1 IH]; intros [|[k' v'] o2] H;
      try discriminate; [reflexivity|].
    cbn in H. injection H as <- H. cbn [filter fst].
    destruct (arrayIndex k); cbn [map fst]; rewrite (IH o2 H); reflexivity.
Qed.

Lemma keys_set_same {V1 V2 : Type} (o1 : JSObject.t string V1)
  (o2 : JSObject.t string V2) (k : string) (v1 : V1) (v2 : V2) :
  map fst o1 = map fst o2 ->
  map fst (JSObject.set String.eqb o1 k v1) = map fst (JSObject.set String.eqb o2 k v2).
Proof.
  intro H. rewrite !(keys_set _ _ String.eqb).
  destruct (JSObject.get String.eqb o1 k) eqn:E1;
    destruct (JSObject.get String.eqb o2 k) eqn:E2; rewrite H; try reflexivity.
  - apply (get_None _ _ String.eqb string_eqb_eq) in E2. rewrite <- H in E2.
    apply (get_In _ _ String.eqb string_eqb_eq) in E1.
    apply (in_map fst) in E1. contradiction.
  - apply (get_None _ _ String.eqb string_eqb_eq) in E1. rewrite H in E1.
    apply (get_In _ _ String.eqb string_eqb_eq) in E2.
    apply (in_map fst) in E2. contradiction.
Qed.

End Morphing.
(** ** The value of a morph property *)

Section MorphRange.
Import VRMManager.

(** [Math.max(0, Math.min(1, v))] lies in [0, 1] unless [v] is NaN, and is
    [v] when [v] lies there. *)
Lemma clamp01_range (v : float) :
  PrimFloat.is_nan v = false ->
  let c := float_max 0 (float_min 1 v) in
  PrimFloat.leb 0 c = true /\ PrimFloat.leb c 1 = true
  /\ (PrimFloat.leb 0 v = true -> PrimFloat.leb v 1 = true ->
      PrimFloat.eqb c v = true).
Proof.
  intros Hn c. subst c.
  assert (H1 : PrimFloat.is_nan 1 = false) by reflexivity.
  assert (H0 : PrimFloat.is_nan 0 = false) by reflexivity.
  unfold float_min. rewrite H1, Hn. cbn [orb].
  assert (Hz : is_neg_zero 1 = false) by reflexivity. rewrite Hz.
  assert (Hm : exists m, (if PrimFloat.ltb 1 v then 1%float
                          else if PrimFloat.ltb v 1 then v else v) = m
               /\ PrimFloat.is_nan m = false /\ PrimFloat.leb m 1 = true
               /\ (PrimFloat.leb v 1 = true -> m = v)).
  { destruct (PrimFloat.ltb 1 v) eqn:Hlt.
    - exists 1%float. repeat split; auto.
      intro H. apply leb_not_ltb in H. congruence.
    - exists v. repeat split; auto;
        try (destruct (PrimFloat.ltb v 1); reflexivity).
      apply not_ltb_leb; auto. }
  destruct Hm as (m & -> & Hmn & Hm1 & Hmv).
  unfold float_max. rewrite H0, Hmn. cbn [orb].
  assert (Hz0 : is_neg_zero 0 = false) by reflexivity. rewrite Hz0.
  destruct (PrimFloat.ltb 0 m) eqn:H2.
  - repeat split; auto.
    + apply ltb_leb; exact H2.
    + intros _ H. rewrite (Hmv H). unfold PrimFloat.is_nan in Hn.
      destruct (PrimFloat.eqb v v); simpl in Hn; congruence.
  - assert (Hc : (if PrimFloat.ltb m 0 then 0%float else 0%float) = 0%float)
      by (destruct (PrimFloat.ltb m 0); reflexivity).
    rewrite Hc. repeat split; try reflexivity.
    intros Hv0 Hv. rewrite (Hmv Hv) in H2.
    apply not_ltb_eqb; auto. apply leb_not_ltb. exact Hv0.
Qed.

(** A NaN, whatever its payload, is the NaN of the specification. *)
Lemma is_nan_Prim2SF (v : float) :
  PrimFloat.is_nan v = true <-> Prim2SF v = S754_nan.
Proof.
  unfold PrimFloat.is_nan. rewrite FloatAxioms.eqb_spec. unfold SFeqb.
  destruct (Prim2SF v) as [s|s| |s m e]; simpl; try destruct s; simpl;
    try (split; [discriminate | discriminate]); try tauto.
  - rewrite Z.compare_refl, Pos.compare_cont_refl. simpl.
    split; discriminate.
  - rewrite Z.compare_refl, Pos.compare_cont_refl. simpl.
    split; discriminate.
Qed.

(** The influence that a NaN value gives is NaN. *)
Lemma influenceOf_NaN (value : float) (s : MorphTargetSetting float) :
  PrimFloat.is_nan value = true -> PrimFloat.is_nan (influenceOf value s) = true.
Proof.
  intro H. unfold influenceOf.
  change (num_max (num_lit 0) (num_min (num_lit 1) value))
    with (float_max (num_lit 0) (float_min (num_lit 1) value)).
  assert (Hmin : float_min (num_lit 1) value = nan).
  { unfold float_min. rewrite H, orb_true_r. reflexivity. }
  rewrite Hmin.
  assert (Hmax : float_max (num_lit 0) nan = nan).
  { unfold float_max.
    replace (PrimFloat.is_nan nan) with true by reflexivity.
    rewrite orb_true_r. reflexivity. }
  rewrite Hmax.
  change (PrimFloat.is_nan (PrimFloat.mul nan (weight s / num_lit 100)%num) = true).
  apply is_nan_Prim2SF. rewrite FloatAxioms.mul_spec.
  replace (Prim2SF nan) with S754_nan by reflexivity. reflexivity.
Qed.

(** X18.  The setter of [morphingTargetProperty.value] on binary64
    numbers.  It keeps [Math.max(0, Math.min(1, value))]: a number between 0
    and 1 unless the value is NaN, the value itself when that lies between
    0 and 1, and NaN when the value is NaN.  It then morphs with the value
    as it was given; with a NaN every target that the settings of the label
    name gets a NaN as its influence. *)
Theorem influences_stay_in_range (maps : MorphMaps float) (value : float)
  (influence : nat -> float) (property : morphingTargetProperty float) :
  let result := set_value property value maps influence in
  let property' := fst result in
  label property' = label property
  /\ (PrimFloat.is_nan value = false ->
      PrimFloat.leb 0 (_value property') = true
      /\ PrimFloat.leb (_value property') 1 = true)
  /\ (PrimFloat.leb 0 value = true -> PrimFloat.leb value 1 = true ->
      PrimFloat.eqb (_value property') value = true)
  /\ (PrimFloat.is_nan value = true -> PrimFloat.is_nan (_value property') = true)
  /\ snd result = morphing maps (label property) value influence
  /\ (PrimFloat.is_nan value = true ->
      forall settings,
        JSObject.get String.eqb (morphTargetMap maps) (label property) = Some settings ->
        Forall (fun s => target s <> None) settings ->
        forall n, (exists s, In s settings /\ target s = Some n) ->
          PrimFloat.is_nan (snd (snd result) n) = true).
Proof.
  intros result property'. subst result property'.
  unfold set_value. cbn [fst snd _value label].
  change (num_max (num_lit 0) (num_min (num_lit 1) value))
    with (float_max 0 (float_min 1 value)).
  split; [reflexivity|]. split; [|split; [|split; [|split]]].
  - intro Hn. destruct (clamp01_range value Hn) as (A & B & _). split; assumption.
  - intros H0 H1.
    assert (Hn : PrimFloat.is_nan value = false).
    { unfold PrimFloat.is_nan. rewrite FloatAxioms.eqb_spec.
      rewrite FloatAxioms.leb_spec in H0. unfold SFleb, SFeqb in *.
      change (Prim2SF 0) with (S754_zero false) in H0.
      destruct (Prim2SF value) as [s|s| |s m e]; simpl in *; try destruct s;
        simpl in *; try reflexivity; try discriminate;
        rewrite Z.compare_refl, Pos.compare_cont_refl; reflexivity. }
    destruct (clamp01_range value Hn) as (_ & _ & C). apply C; assumption.
  - intro Hn. unfold float_min. rewrite Hn, orb_true_r. reflexivity.
  - reflexivity.
  - intros Hn settings Hget Hall n (s & Hin & Hs).
    unfold morphing, morphingIn. rewrite Hget.
    destruct (setInfluences_defined settings value influence Hall) as [_ H].
    rewrite H.
    destruct (find _ (rev settings)) as [s'|] eqn:E.
    + apply influenceOf_NaN. exact Hn.
    + exfalso. rewrite in_rev in Hin. apply (find_none _ _ E s) in Hin.
      rewrite Hs, Nat.eqb_refl in Hin. discriminate.
Qed.

End MorphRange.

(** ** Shadows *)

Section Shadows.
Import JSString.
Import VRMManager.

(** The inner loop of [setShadowEnabled]. *)
Lemma shadows_of_list (enabled : bool) (l : list nodeId)
  (meshState : nodeId -> MeshState) (m : nodeId) :
  let meshState' :=
    fold_left
      (fun meshState mesh =>
         fun m =>
           if Nat.eqb m mesh
           then mkMeshState (skeleton (meshState m))
                  (morphTargetManager (meshState m)) enabled
           else meshState m) l meshState in
  skeleton (meshState' m) = skeleton (meshState m)
  /\ morphTargetManager (meshState' m) = morphTargetManager (meshState m)
  /\ receiveShadows (meshState' m)
     = if existsb (Nat.eqb m) l then enabled else receiveShadows (meshState m).
Proof.
  revert meshState. induction l as [|a l IH]; intro meshState; cbv zeta;
    cbn [fold_left existsb].
  - repeat split; reflexivity.
  - cbv zeta in IH.
    match goal with |- context [fold_left _ l ?init] =>
      destruct (IH init) as (A & B & C)
    end.
    rewrite A, B, C. destruct (Nat.eqb m a); cbn [orb skeleton morphTargetManager
      receiveShadows]; repeat split; try reflexivity.
    destruct (existsb (Nat.eqb m) l); reflexivity.
Qed.

(** The loop of [setShadowEnabled] over a list of keys of the cache. *)
Lemma shadows_of_keys (meshCache : MeshCache) (enabled : bool) (ks : list number)
  (meshState : nodeId -> MeshState) :
  (forall k, In k ks -> JSObject.get number_eqb meshCache k <> None) ->
  let result :=
    fold_left
      (fun state nodeIndex =>
         match state with
         | (Some e, _) => state
         | (None, meshState) =>
             match JSObject.get number_eqb meshCache nodeIndex with
             | None => (Some TypeError, meshState)
             | Some meshes =>
                 (None,
                  fold_left
                    (fun meshState mesh =>
                       fun m =>
                         if Nat.eqb m mesh
                         then mkMeshState (skeleton (meshState m))
                                (morphTargetManager (meshState m)) enabled
                         else meshState m)
                    meshes meshState)
             end
         end) ks (None, meshState) in
  fst result = None
  /\ forall m,
       skeleton (snd result m) = skeleton (meshState m)
       /\ morphTargetManager (snd result m) = morphTargetManager (meshState m)
       /\ receiveShadows (snd result m)
          = if existsb
                 (fun k =>
                    match JSObject.get number_eqb meshCache k with
                    | Some meshes => existsb (Nat.eqb m) meshes
                    | None => false
                    end) ks
            then enabled else receiveShadows (meshState m).
Proof.
  revert meshState. induction ks as [|k ks IH]; intros meshState Hks; cbv zeta;
    cbn [fold_left existsb].
  - split; [reflexivity|]. intro m. repeat split; reflexivity.
  - destruct (JSObject.get number_eqb meshCache k) as [meshes|] eqn:Hk;
      [|exfalso; apply (Hks k); [left; reflexivity | exact Hk]].
    cbv zeta in IH.
    match goal with |- context [fold_left _ ks (None, ?ms)] =>
      destruct (IH ms) as [H1 H2]; [intros k' Hk'; apply Hks; right; exact Hk'|]
    end.
    split; [exact H1|]. intro m. destruct (H2 m) as (A & B & C).
    destruct (shadows_of_list enabled meshes meshState m) as (A' & B' & C').
    cbv zeta in A', B', C'.
    split; [exact (eq_trans A A')|]. split; [exact (eq_trans B B')|].
    refine (eq_trans C _).
    destruct (existsb (Nat.eqb m) meshes); cbn [orb].
    + destruct (existsb _ ks); [reflexivity | exact C'].
    + destruct (existsb _ ks); [reflexivity | exact C'].
Qed.

(** X19.  [setShadowEnabled(enabled)] on the mesh cache that the
    constructor builds throws nothing and sets [receiveShadows] of exactly
    the meshes of the model that the cache holds: the meshes from position
    [meshesFrom] on, the root mesh excepted, that have a pointer which
    matches the mesh pattern.  Every other mesh keeps its flag, and no
    skeleton or morph target manager changes. *)
Theorem setShadowEnabled_reaches_cached_meshes (scene : BabylonScene)
  (meshesFrom : Z) (cache : MeshCache) (rootMesh : option nodeId) (enabled : bool)
  (meshState : nodeId -> MeshState) :
  constructMeshCache scene meshesFrom = inr (cache, rootMesh) ->
  let own := skipn (Z.to_nat meshesFrom) (meshes scene) in
  let cached (m : nodeId) :=
    existsb (fun mesh =>
               Nat.eqb m mesh
               && negb (String.eqb (info_id (info scene mesh)) "__root__")
               && match meshIndexOf (info scene mesh) with
                  | Some _ => true
                  | None => false
                  end) own in
  let result := setShadowEnabled cache enabled meshState in
  fst result = None
  /\ forall m,
       receiveShadows (snd result m)
       = (if cached m then enabled else receiveShadows (meshState m))
       /\ skeleton (snd result m) = skeleton (meshState m)
       /\ morphTargetManager (snd result m) = morphTargetManager (meshState m).
Proof.
  intros Hc own cached result.
  assert (Hpos : (0 <= meshesFrom)%Z).
  { destruct (Z.lt_ge_cases meshesFrom 0) as [Hneg|]; [|assumption].
    exfalso. revert Hc. unfold constructMeshCache, elementsFrom.
    destruct (Z.to_nat (- meshesFrom)) as [|n] eqn:E; [lia|].
    cbn [repeat app fold_left]. rewrite constructMeshCache_failed. discriminate. }
  assert (Hcache : (forall i,
            JSObject.get number_eqb cache i
            = match
                filter (fun mesh =>
                          negb (String.eqb (info_id (info scene mesh)) "__root__")
                          && match meshIndexOf (info scene mesh) with
                             | Some k => number_eqb k i
                             | None => false
                             end) own
              with
              | [] => None
              | found => Some found
              end)
            /\ NoDup (map fst cache)).
  { revert Hc. unfold constructMeshCache, elementsFrom.
    replace (Z.to_nat (- meshesFrom)) with O by lia. cbn [repeat app]. fold own.
    destruct (constructMeshCache_loop scene own [] None) as (cache' & Heq & Hget & Hnd).
    intro Hc. assert (E : cache' = cache).
    { pose proof (eq_trans (eq_sym Heq) Hc) as E. injection E as E _. exact E. }
    subst cache'. split; [|apply Hnd; constructor].
    intro i. rewrite Hget. cbn [JSObject.get]. destruct (filter _ own); reflexivity. }
  destruct Hcache as [Hget Hnd].
  subst result. unfold setShadowEnabled.
  match goal with |- context [fold_left ?f ?ks ?init] =>
    destruct (shadows_of_keys cache enabled ks meshState) as [H1 H2]
  end.
  { intros k Hk. apply In_keys in Hk. intro E.
    apply (get_None _ _ number_eqb number_eqb_eq) in E. contradiction. }
  split; [exact H1|]. intro m. destruct (H2 m) as (A & B & C).
  split; [|split; assumption]. refine (eq_trans C _). clear A B C H1 H2.
  match goal with |- (if ?a then _ else _) = (if ?b then _ else _) =>
    assert (E : a = b); [|rewrite E; reflexivity]
  end.
  apply eq_true_iff_eq. subst cached. rewrite !existsb_exists. split.
  - intros (k & Hk & Hm). rewrite Hget in Hm.
    destruct (filter _ own) as [|x xs] eqn:Ef; [discriminate|].
    rewrite <- Ef in Hm. apply existsb_exists in Hm. destruct Hm as (mesh & Hin & Heq).
    apply filter_In in Hin. destruct Hin as [Hin Hreg].
    exists mesh. split; [exact Hin|]. rewrite Heq.
    apply andb_prop in Hreg. destruct Hreg as [Hr Hi]. rewrite Hr.
    destruct (meshIndexOf (info scene mesh)); [reflexivity | discriminate].
  - intros (mesh & Hin & H). apply andb_prop in H. destruct H as [H Hi].
    apply andb_prop in H. destruct H as [Heq Hr].
    destruct (meshIndexOf (info scene mesh)) as [k|] eqn:Hk; [|discriminate].
    assert (Hf : In mesh
              (filter (fun mesh =>
                         negb (String.eqb (info_id (info scene mesh)) "__root__")
                         && match meshIndexOf (info scene mesh) with
                            | Some k0 => number_eqb k0 k
                            | None => false
                            end) own)).
    { apply filter_In. split; [exact Hin|]. rewrite Hr, Hk.
      cbn [andb]. apply number_eqb_eq. reflexivity. }
    exists k. split.
    + apply In_keys. specialize (Hget k).
      destruct (filter _ own) as [|x xs] eqn:Ef; [contradiction|].
      apply (get_In _ _ number_eqb number_eqb_eq) in Hget.
      apply (in_map fst) in Hget. exact Hget.
    + rewrite Hget. destruct (filter _ own) as [|x xs] eqn:Ef; [contradiction|].
      apply existsb_exists. exists mesh. split; [exact Hf | exact Heq].
Qed.

End Shadows.

(** The model scene read from position 0 on: mesh 12 is in the cache, the
    root mesh 10 is not. *)
Lemma setShadowEnabled_reaches_cached_meshes_witness :
  VRMManager.receiveShadows
    (snd (VRMManager.setShadowEnabled
            [(JSString.Int 0, [11; 12]); (JSString.Int 1, [13])] true modelMeshes) 12)
  = true
  /\ VRMManager.receiveShadows
       (snd (VRMManager.setShadowEnabled
               [(JSString.Int 0, [11; 12]); (JSString.Int 1, [13])] true modelMeshes) 10)
     = false.
Proof.
  pose proof (setShadowEnabled_reaches_cached_meshes modelScene 0
                [(JSString.Int 0, [11; 12]); (JSString.Int 1, [13])] (Some 10) true
                modelMeshes eq_refl) as H.
  cbv zeta in H. destruct H as [_ H].
  split; [exact (proj1 (H 12)) | exact (proj1 (H 10))].
Defined.

(** ** The options of the older manager *)

Section OlderManager.
Import SpringBoneController.

(** X21.  The older manager of the repository constructs its controller
    with the options [{gravityPower: 0.5}]: every spring it makes has the
    gravity power 0.5, whatever the model authored, and its stiffness, drag
    force and hit radius as authored. *)
Theorem older_manager_overrides_gravityPower (ext : IVRMSecondaryAnimation float)
  (gb : getBone) :
  let options := Some (mkOptions None (Some 0.5%float) None None None) in
  let this := constructor ext gb options in
  let groups := orEmpty (boneGroups ext) in
  map (@sb_gravityPower float) (springs this) = map (fun _ => 0.5%float) groups
  /\ map (@sb_stiffness float) (springs this) = map (@stiffiness float) groups
  /\ map (@sb_dragForce float) (springs this) = map (@dragForce float) groups
  /\ map (@sb_hitRadius float) (springs this) = map (@hitRadius float) groups.
Proof.
  intros options this groups. subst this groups. unfold constructor. cbn [springs].
  destruct (constructSprings_map ext gb (constructColliderGroups ext gb) options)
    as (fs & Hs & Hfs).
  rewrite Hs. rewrite !map_map.
  repeat split; apply map_ext; intro s;
    destruct (Hfs s) as (_ & H1 & H2 & _ & H4 & _ & H5 & _);
    rewrite ?H1, ?H2, ?H4, ?H5; reflexivity.
Qed.

End OlderManager.
(** ** The morph maps of a manager *)

Section MorphMaps.
Context {F : Type} {N : JSNumber F}.
Import VRMManager.

Lemma forEach_each_app {A S : Type} (f : S -> A -> Exception + S) (l1 l2 : list A)
  (s : S) :
  forEach f (l1 ++ l2) s
  = match forEach f l1 s with
    | inl e => inl e
    | inr s' => forEach f l2 s'
    end.
Proof.
  revert s. induction l1 as [|a l1 IH]; intro s; cbn [app forEach]; [reflexivity|].
  destruct (f s a); [reflexivity | apply IH].
Qed.

Lemma forEach_each_ext {A S : Type} (f g : S -> A -> Exception + S) (l : list A) :
  (forall s a, f s a = g s a) -> forall s, forEach f l s = forEach g l s.
Proof.
  intro H. induction l as [|a l IH]; intro s; cbn [forEach]; [reflexivity|].
  rewrite H. destruct (g s a); [reflexivity | apply IH].
Qed.

Lemma forEach_flat_map {A B S : Type} (f : S -> B -> Exception + S)
  (h : A -> list B) (l : list A) (s : S) :
  forEach f (flat_map h l) s = forEach (fun s a => forEach f (h a) s) l s.
Proof.
  revert s. induction l as [|a l IH]; intro s; cbn [flat_map forEach]; [reflexivity|].
  rewrite forEach_each_app. destruct (forEach f (h a) s); [reflexivity | apply IH].
Qed.

Lemma forEach_map {A B S : Type} (f : S -> B -> Exception + S) (h : A -> B)
  (l : list A) (s : S) :
  forEach f (map h l) s = forEach (fun s a => f s (h a)) l s.
Proof.
  revert s. induction l as [|a l IH]; intro s; cbn [map forEach]; [reflexivity|].
  destruct (f s (h a)); [reflexivity | apply IH].
Qed.

Lemma flat_map_flat_map {A B C : Type} (f : B -> list C) (h : A -> list B)
  (l : list A) :
  flat_map f (flat_map h l) = flat_map (fun a => flat_map f (h a)) l.
Proof.
  induction l as [|a l IH]; cbn [flat_map]; [reflexivity|].
  rewrite flat_map_app, IH. reflexivity.
Qed.

Lemma flat_map_if {A T : Type} (b : bool) (f : A -> list T) (l : list A) :
  flat_map (fun x => if b then f x else []) l = if b then flat_map f l else [].
Proof.
  destruct b; [reflexivity|]. induction l as [|x l IH]; [reflexivity|exact IH].
Qed.

Lemma fold_left_invariant {A S : Type} (P : S -> Prop) (step : S -> A -> S)
  (l : list A) :
  (forall s a, In a l -> P s -> P (step s a)) ->
  forall s, P s -> P (fold_left step l s).
Proof.
  induction l as [|a l IH]; intros Hstep s Hs; [exact Hs|].
  cbn [fold_left]. apply IH.
  - intros s' a' Hin. apply Hstep. right. exact Hin.
  - apply Hstep; [left; reflexivity | exact Hs].
Qed.

(** Settings added to the settings that a label has, if any. *)
Let extended {T : Type} (o : option (list T)) (l : list T) : option (list T) :=
  match l with
  | [] => o
  | _ => Some (SpringBoneController.orEmpty o ++ l)
  end.

Lemma extended_app {T : Type} (o : option (list T)) (l1 l2 : list T) :
  extended (extended o l1) l2 = extended o (l1 ++ l2).
Proof.
  destruct l2 as [|y l2]; [rewrite app_nil_r; reflexivity|].
  destruct l1 as [|x l1]; [reflexivity|].
  cbn [extended SpringBoneController.orEmpty app]. rewrite <- app_assoc. reflexivity.
Qed.

Lemma fold_extended {A S T : Type} (proj : S -> JSObject.t string (list T))
  (step : S -> A -> S) (c : A -> list T) (name : string) :
  (forall s x,
     JSObject.get String.eqb (proj (step s x)) name
     = extended (JSObject.get String.eqb (proj s) name) (c x)) ->
  forall l s,
    JSObject.get String.eqb (proj (fold_left step l s)) name
    = extended (JSObject.get String.eqb (proj s) name) (flat_map c l).
Proof.
  intros Hstep l. induction l as [|x l IH]; intro s; [reflexivity|].
  cbn [fold_left flat_map]. rewrite IH, Hstep, extended_app. reflexivity.
Qed.

(** *** One setting *)

(** The map after a push that does not throw. *)
Let pushed (map0 : MorphTargetMap F) (key : string) (setting : MorphTargetSetting F)
  : MorphTargetMap F :=
  JSObject.set String.eqb map0 key
    (SpringBoneController.orEmpty (JSObject.get String.eqb map0 key) ++ [setting]).

(** The maps after the loop body, when it does not throw. *)
Let registered (g : IVRMBlendShapeGroup F) (setting : MorphTargetSetting F)
  (maps : MorphMaps F) : MorphMaps F :=
  mkMorphMaps
    (pushed (morphTargetMap maps) (group_name g) setting)
    (match presetName g with
     | Some preset =>
         if truthyString preset then pushed (presetMorphTargetMap maps) preset setting
         else presetMorphTargetMap maps
     | None => presetMorphTargetMap maps
     end)
    (JSObject.set String.eqb (propertyMap maps) (group_name g)
       (mkProperty (group_name g) (num_lit 0))).

(** A group whose name or preset name is a member of [Object.prototype]. *)
Let namedAfterPrototype (g : IVRMBlendShapeGroup F) : bool :=
  inherited (group_name g)
  || match presetName g with
     | Some preset => inherited preset
     | None => false
     end.

(** No own property of the two maps has an inherited name. *)
Let ownOnly (maps : MorphMaps F) : Prop :=
  forall k, inherited k = true ->
    JSObject.get String.eqb (morphTargetMap maps) k = None
    /\ JSObject.get String.eqb (presetMorphTargetMap maps) k = None.

Lemma pushSetting_own (map0 : MorphTargetMap F) (key : string)
  (setting : MorphTargetSetting F) :
  inherited key = false -> pushSetting map0 key setting = inr (pushed map0 key setting).
Proof.
  intro H. unfold pushSetting, pushed. rewrite H.
  destruct (JSObject.get String.eqb map0 key); reflexivity.
Qed.

Lemma pushSetting_inherited (map0 : MorphTargetMap F) (key : string)
  (setting : MorphTargetSetting F) :
  inherited key = true -> JSObject.get String.eqb map0 key = None ->
  pushSetting map0 key setting = inl TypeError.
Proof. intros H Hget. unfold pushSetting. rewrite Hget, H. reflexivity. Qed.

Lemma get_pushed (map0 : MorphTargetMap F) (key : string)
  (setting : MorphTargetSetting F) (name : string) :
  JSObject.get String.eqb (pushed map0 key setting) name
  = extended (JSObject.get String.eqb map0 name)
      (if String.eqb key name then [setting] else []).
Proof.
  unfold pushed. rewrite (get_set _ _ String.eqb string_eqb_eq).
  destruct (String.eqb key name) eqn:E; [|reflexivity].
  apply String.eqb_eq in E. subst key. reflexivity.
Qed.

Lemma pushed_nonempty (map0 : MorphTargetMap F) (key : string)
  (setting : MorphTargetSetting F) :
  NoDup (map fst map0) ->
  (forall k settings, In (k, settings) map0 -> settings <> []) ->
  forall k settings, In (k, settings) (pushed map0 key setting) -> settings <> [].
Proof.
  intros Hnd Hne k settings H. unfold pushed in H.
  pose proof (NoDup_set _ _ String.eqb string_eqb_eq map0 key
                (SpringBoneController.orEmpty (JSObject.get String.eqb map0 key)
                 ++ [setting]) Hnd) as Hnd'.
  apply (In_get _ _ String.eqb string_eqb_eq _ _ _ Hnd') in H.
  rewrite (get_set _ _ String.eqb string_eqb_eq) in H.
  destruct (String.eqb key k).
  - injection H as <-. intro E. apply app_eq_nil in E. destruct E; discriminate.
  - apply (Hne k). apply (get_In _ _ String.eqb string_eqb_eq). exact H.
Qed.

Lemma inherited_empty : inherited EmptyString = false.
Proof. reflexivity. Qed.

Lemma registerSetting_throws (g : IVRMBlendShapeGroup F)
  (setting : MorphTargetSetting F) (maps : MorphMaps F) :
  ownOnly maps -> namedAfterPrototype g = true ->
  registerSetting g setting maps = inl TypeError.
Proof.
  intros Hown Hg. unfold registerSetting.
  destruct (inherited (group_name g)) eqn:Hname.
  - rewrite pushSetting_inherited; [reflexivity | exact Hname|].
    apply (Hown _ Hname).
  - rewrite pushSetting_own by exact Hname.
    unfold namedAfterPrototype in Hg. rewrite Hname in Hg. cbn [orb] in Hg.
    destruct (presetName g) as [preset|]; [|discriminate].
    assert (Htruthy : truthyString preset = true).
    { unfold truthyString. destruct (String.eqb preset EmptyString) eqn:E; [|reflexivity].
      apply String.eqb_eq in E. subst preset. discriminate. }
    rewrite Htruthy. rewrite pushSetting_inherited; [reflexivity | exact Hg|].
    apply (Hown _ Hg).
Qed.

Lemma registerSetting_registers (g : IVRMBlendShapeGroup F)
  (setting : MorphTargetSetting F) (maps : MorphMaps F) :
  namedAfterPrototype g = false ->
  registerSetting g setting maps = inr (registered g setting maps).
Proof.
  intro Hg. unfold namedAfterPrototype in Hg. apply orb_false_iff in Hg.
  destruct Hg as [Hname Hpreset]. unfold registerSetting, registered.
  rewrite pushSetting_own by exact Hname.
  destruct (presetName g) as [preset|]; [|reflexivity].
  destruct (truthyString preset); [|reflexivity].
  rewrite pushSetting_own by exact Hpreset. reflexivity.
Qed.

Lemma registered_ownOnly (g : IVRMBlendShapeGroup F)
  (setting : MorphTargetSetting F) (maps : MorphMaps F) :
  ownOnly maps -> namedAfterPrototype g = false -> ownOnly (registered g setting maps).
Proof.
  intros Hown Hg k Hk. unfold namedAfterPrototype in Hg. apply orb_false_iff in Hg.
  destruct Hg as [Hname Hpreset]. destruct (Hown k Hk) as [H1 H2].
  unfold registered. cbn [morphTargetMap presetMorphTargetMap].
  assert (Hother : forall (map0 : MorphTargetMap F) key,
            inherited key = false -> JSObject.get String.eqb map0 k = None ->
            JSObject.get String.eqb (pushed map0 key setting) k = None).
  { intros map0 key Hkey Hget. rewrite get_pushed, Hget.
    destruct (String.eqb key k) eqn:E; [|reflexivity].
    apply String.eqb_eq in E. subst key. congruence. }
  split; [apply Hother; assumption|].
  destruct (presetName g) as [preset|]; [|exact H2].
  destruct (truthyString preset); [|exact H2].
  apply Hother; assumption.
Qed.

(** *** The loops *)

Variables (ext : IVRM F) (meshCache : MeshCache) (meshState : nodeId -> MeshState).

Let groups : list (IVRMBlendShapeGroup F) :=
  match blendShapeMaster ext with
  | Some master => SpringBoneController.orEmpty (blendShapeGroups master)
  | None => []
  end.

Let settingsOfBind (b : IVRMBlendShapeBind F) : list (MorphTargetSetting F) :=
  flat_map
    (fun mesh =>
       match morphTargetManager (meshState mesh) with
       | Some targets =>
           [mkSetting (SpringBoneController.index targets (bind_index b))
              (bind_weight b)]
       | None => []
       end)
    (SpringBoneController.orEmpty (findMeshes meshCache (JSString.Int (bind_mesh b)))).

Let settingsOfGroup (g : IVRMBlendShapeGroup F) : list (MorphTargetSetting F) :=
  flat_map settingsOfBind (SpringBoneController.orEmpty (binds g)).

(** The settings that the loops register, each with its group, in order. *)
Let registrations : list (IVRMBlendShapeGroup F * MorphTargetSetting F) :=
  flat_map (fun g => map (pair g) (settingsOfGroup g)) groups.

Lemma constructMorphTargetMap_registrations (maps : MorphMaps F) :
  constructMorphTargetMap ext meshCache meshState maps
  = forEach (fun maps r => registerSetting (fst r) (snd r) maps) registrations maps.
Proof.
  unfold constructMorphTargetMap, registrations, groups.
  destruct (blendShapeMaster ext) as [master|]; [|reflexivity].
  destruct (blendShapeGroups master) as [gs|]; [|reflexivity].
  cbn [SpringBoneController.orEmpty]. rewrite forEach_flat_map.
  apply forEach_each_ext. intros s g. rewrite forEach_map. cbn [fst snd].
  unfold settingsOfGroup.
  destruct (binds g) as [bs|]; cbn [SpringBoneController.orEmpty]; [|reflexivity].
  rewrite forEach_flat_map. apply forEach_each_ext. intros s' b.
  unfold settingsOfBind.
  destruct (findMeshes meshCache (JSString.Int (bind_mesh b))) as [meshes|];
    cbn [SpringBoneController.orEmpty]; [|reflexivity].
  rewrite forEach_flat_map. apply forEach_each_ext. intros s'' mesh.
  destruct (morphTargetManager (meshState mesh)) as [targets|]; [|reflexivity].
  cbn [forEach]. destruct (registerSetting _ _ _); reflexivity.
Qed.

(** The loops throw when they reach a setting of a group that is named
    after a member of [Object.prototype], and else register every
    setting. *)
Lemma forEach_registerSetting
  (regs : list (IVRMBlendShapeGroup F * MorphTargetSetting F)) :
  forall maps, ownOnly maps ->
    forEach (fun maps r => registerSetting (fst r) (snd r) maps) regs maps
    = if existsb (fun r => namedAfterPrototype (fst r)) regs then inl TypeError
      else inr (fold_left (fun maps r => registered (fst r) (snd r) maps) regs maps).
Proof.
  induction regs as [|[g setting] regs IH]; intros maps Hown; [reflexivity|].
  cbn [forEach existsb fold_left fst snd].
  destruct (namedAfterPrototype g) eqn:Hg; cbn [orb].
  - rewrite registerSetting_throws by assumption. reflexivity.
  - rewrite registerSetting_registers by assumption.
    apply IH. apply registered_ownOnly; assumption.
Qed.

Lemma ownOnly_empty : ownOnly (mkMorphMaps [] [] []).
Proof. intros k _. split; reflexivity. Qed.

Lemma existsb_registrations :
  existsb (fun r => namedAfterPrototype (fst r)) registrations = true
  <-> exists g, In g groups /\ settingsOfGroup g <> [] /\ namedAfterPrototype g = true.
Proof.
  rewrite existsb_exists. unfold registrations. split.
  - intros [[g setting] [Hin Hg]]. apply in_flat_map in Hin.
    destruct Hin as (g' & Hg' & Hin). apply in_map_iff in Hin.
    destruct Hin as (setting' & Heq & Hin). injection Heq as -> ->.
    exists g. repeat split; [exact Hg' | | exact Hg].
    intro E. rewrite E in Hin. contradiction.
  - intros (g & Hin & Hne & Hg).
    destruct (settingsOfGroup g) as [|setting rest] eqn:E; [contradiction|].
    exists (g, setting). split; [|exact Hg].
    apply in_flat_map. exists g. split; [exact Hin|]. rewrite E. left. reflexivity.
Qed.

(** The settings of a label among the registrations. *)
Lemma registrations_of_a_label (here : IVRMBlendShapeGroup F -> bool) :
  flat_map (fun r => if here (fst r) then [snd r] else []) registrations
  = flat_map (fun g => if here g then settingsOfGroup g else []) groups.
Proof.
  unfold registrations. rewrite flat_map_flat_map.
  apply flat_map_ext. intro g. rewrite flat_map_concat_map, map_map. cbn [fst snd].
  rewrite <- flat_map_concat_map, flat_map_if.
  destruct (here g); [|reflexivity].
  induction (settingsOfGroup g) as [|x l IH]; [reflexivity|].
  cbn [flat_map app]. rewrite IH. reflexivity.
Qed.

Let registeredAll (maps : MorphMaps F) : MorphMaps F :=
  fold_left (fun maps r => registered (fst r) (snd r) maps) registrations maps.

Lemma registeredAll_settings (maps : MorphMaps F) (name : string) :
  JSObject.get String.eqb (morphTargetMap (registeredAll maps)) name
  = extended (JSObject.get String.eqb (morphTargetMap maps) name)
      (flat_map
         (fun g => if String.eqb (group_name g) name then settingsOfGroup g else [])
         groups)
  /\ JSObject.get String.eqb (presetMorphTargetMap (registeredAll maps)) name
     = extended (JSObject.get String.eqb (presetMorphTargetMap maps) name)
         (flat_map
            (fun g =>
               if match presetName g with
                  | Some preset => truthyString preset && String.eqb preset name
                  | None => false
                  end
               then settingsOfGroup g else [])
            groups).
Proof.
  unfold registeredAll. split.
  - rewrite <- registrations_of_a_label.
    refine (fold_extended (@morphTargetMap F) _ _ name _ registrations maps).
    intros s r. unfold registered. cbn [morphTargetMap]. apply get_pushed.
  - rewrite <- registrations_of_a_label.
    refine (fold_extended (@presetMorphTargetMap F) _ _ name _ registrations maps).
    intros s r. unfold registered. cbn [presetMorphTargetMap].
    destruct (presetName (fst r)) as [preset|]; [|reflexivity].
    destruct (truthyString preset); [|reflexivity].
    cbn [andb]. apply get_pushed.
Qed.

(** What the loops keep true of the maps. *)
Let consistent (maps : MorphMaps F) : Prop :=
  map fst (morphTargetMap maps) = map fst (propertyMap maps)
  /\ NoDup (map fst (morphTargetMap maps))
  /\ (forall k settings, In (k, settings) (morphTargetMap maps) -> settings <> [])
  /\ (forall k, In k (map fst (morphTargetMap maps)) ->
        exists g, In g groups /\ group_name g = k)
  /\ (forall k p, In (k, p) (propertyMap maps) -> label p = k).

Lemma registeredAll_consistent : consistent (registeredAll (mkMorphMaps [] [] [])).
Proof.
  unfold registeredAll. apply fold_left_invariant.
  - intros maps [g setting] Hin (A & B & C & D & E). cbn [fst snd].
    assert (Hg : In g groups).
    { unfold registrations in Hin. apply in_flat_map in Hin.
      destruct Hin as (g' & Hg' & Hin). apply in_map_iff in Hin.
      destruct Hin as (s' & Heq & _). injection Heq as -> _. exact Hg'. }
    unfold consistent, registered. cbn [morphTargetMap propertyMap].
    split; [|split; [|split; [|split]]].
    + unfold pushed. apply keys_set_same. exact A.
    + unfold pushed. apply (NoDup_set _ _ String.eqb string_eqb_eq). exact B.
    + apply pushed_nonempty; assumption.
    + intros k Hk. unfold pushed in Hk. rewrite (keys_set _ _ String.eqb) in Hk.
      destruct (JSObject.get String.eqb (morphTargetMap maps) (group_name g));
        [apply D; exact Hk|].
      rewrite in_app_iff in Hk. destruct Hk as [Hk|[<-|[]]]; [apply D; exact Hk|].
      exists g. split; [exact Hg | reflexivity].
    + intros k p Hp.
      assert (Hnd : NoDup (map fst (propertyMap maps))) by (rewrite <- A; exact B).
      pose proof (NoDup_set _ _ String.eqb string_eqb_eq (propertyMap maps)
                    (group_name g) (mkProperty (group_name g) (num_lit 0)) Hnd)
        as Hnd'.
      apply (In_get _ _ String.eqb string_eqb_eq _ _ _ Hnd') in Hp.
      rewrite (get_set _ _ String.eqb string_eqb_eq) in Hp.
      destruct (String.eqb (group_name g) k) eqn:Ek.
      * apply string_eqb_eq in Ek. injection Hp as <-. exact Ek.
      * apply (E k). apply (get_In _ _ String.eqb string_eqb_eq). exact Hp.
  - unfold consistent. cbn. repeat split; try constructor; tauto.
Qed.

Lemma registeredAll_ownOnly :
  existsb (fun r => namedAfterPrototype (fst r)) registrations = false ->
  ownOnly (registeredAll (mkMorphMaps [] [] [])).
Proof.
  intro H. unfold registeredAll.
  assert (Hall : forall r, In r registrations -> namedAfterPrototype (fst r) = false).
  { intros r Hin. destruct (namedAfterPrototype (fst r)) eqn:E; [|reflexivity].
    assert (Ht : existsb (fun r => namedAfterPrototype (fst r)) registrations = true)
      by (apply existsb_exists; exists r; split; assumption).
    congruence. }
  clear H. revert Hall. generalize registrations. intros regs Hall.
  apply fold_left_invariant; [|apply ownOnly_empty].
  intros maps r Hin Hown. apply registered_ownOnly; [exact Hown|].
  apply Hall. exact Hin.
Qed.

(** The outcome of [constructMorphTargetMap] on the empty maps. *)
Lemma constructMorphTargetMap_outcome :
  constructMorphTargetMap ext meshCache meshState (mkMorphMaps [] [] [])
  = if existsb (fun r => namedAfterPrototype (fst r)) registrations then inl TypeError
    else inr (registeredAll (mkMorphMaps [] [] [])).
Proof.
  rewrite constructMorphTargetMap_registrations.
  apply forEach_registerSetting. apply ownOnly_empty.
Qed.

(** X17.  The morph names of a manager.  [constructMorphTargetMap] ends in
    a TypeError or fills the maps, and then [getMorphingList()] lists
    exactly the keys of [MorphTargetPropertyMap], in the same order; every
    name it lists is the name of a blend shape group, is not the name of a
    member of [Object.prototype], has at least one setting (so [morphing]
    with it reaches its loop) and has a property object labelled with
    it. *)
Theorem morph_names_are_consistent :
  match constructMorphTargetMap ext meshCache meshState (mkMorphMaps [] [] []) with
  | inl e => e = TypeError
  | inr maps =>
      getMorphingList maps = JSObject.keys stringArrayIndex (propertyMap maps)
      /\ forall name, In name (getMorphingList maps) ->
           (exists master groups g,
              blendShapeMaster ext = Some master
              /\ blendShapeGroups master = Some groups
              /\ In g groups /\ group_name g = name)
           /\ inherited name = false
           /\ (exists setting settings,
                 JSObject.get String.eqb (morphTargetMap maps) name
                 = Some (setting :: settings))
           /\ (exists property,
                 JSObject.get String.eqb (propertyMap maps) name = Some property
                 /\ label property = name)
  end.
Proof.
  rewrite constructMorphTargetMap_outcome.
  destruct (existsb _ registrations) eqn:Hthrown; [reflexivity|].
  pose proof (registeredAll_ownOnly Hthrown) as Hown.
  destruct registeredAll_consistent as (A & B & C & D & E).
  set (maps := registeredAll (mkMorphMaps [] [] [])) in *.
  split.
  - unfold getMorphingList. apply keys_same. exact A.
  - intros name Hname. unfold getMorphingList in Hname.
    apply In_keys in Hname. split; [|split; [|split]].
    + destruct (D name Hname) as (g & Hin & Hg). clear - Hin Hg. unfold groups in Hin.
      destruct (blendShapeMaster ext) as [master|] eqn:Hm; [|contradiction].
      destruct (blendShapeGroups master) as [gs|] eqn:Hgs; [|contradiction].
      exists master, gs, g. repeat split; assumption.
    + destruct (inherited name) eqn:Hi; [|reflexivity].
      destruct (Hown name Hi) as [Hnone _].
      apply (get_None _ _ String.eqb string_eqb_eq) in Hnone. contradiction.
    + destruct (JSObject.get String.eqb (morphTargetMap maps) name)
        as [settings|] eqn:Hget.
      * apply (get_In _ _ String.eqb string_eqb_eq) in Hget.
        specialize (C _ _ Hget). destruct settings as [|s ss]; [contradiction|].
        exists s, ss. reflexivity.
      * apply (get_None _ _ String.eqb string_eqb_eq) in Hget. contradiction.
    + rewrite A in Hname.
      destruct (JSObject.get String.eqb (propertyMap maps) name) as [p|] eqn:Hget.
      * exists p. split; [reflexivity|].
        apply (get_In _ _ String.eqb string_eqb_eq) in Hget. apply (E _ _ Hget).
      * apply (get_None _ _ String.eqb string_eqb_eq) in Hget. contradiction.
Qed.

(** X22.  What [constructMorphTargetMap] registers.  It ends in a TypeError
    exactly when a blend shape group that gets a setting has a name, or a
    preset name, that is the name of a member of [Object.prototype].  Else
    the settings of a label are, in the order of the configuration, one
    setting for every blend shape group of that name, every bind of the
    group and every mesh of the bind's mesh index that has a morph target
    manager: groups that share a name are merged, and a label that gets no
    setting is not registered.  The preset map holds the same settings under
    the non-empty [presetName] of the groups. *)
Theorem morph_settings_of_a_label (name : string) :
  let result :=
    constructMorphTargetMap ext meshCache meshState (mkMorphMaps [] [] []) in
  let groups :=
    match blendShapeMaster ext with
    | Some master => SpringBoneController.orEmpty (blendShapeGroups master)
    | None => []
    end in
  let settingsOfBind (b : IVRMBlendShapeBind F) :=
    flat_map
      (fun mesh =>
         match morphTargetManager (meshState mesh) with
         | Some targets =>
             [mkSetting (SpringBoneController.index targets (bind_index b))
                (bind_weight b)]
         | None => []
         end)
      (SpringBoneController.orEmpty (findMeshes meshCache (JSString.Int (bind_mesh b)))) in
  let settingsOfGroup (g : IVRMBlendShapeGroup F) :=
    flat_map settingsOfBind (SpringBoneController.orEmpty (binds g)) in
  let registered (settings : list (MorphTargetSetting F)) :=
    match settings with
    | [] => None
    | _ => Some settings
    end in
  ((exists e, result = inl e)
   <-> exists g,
         In g groups /\ settingsOfGroup g <> []
         /\ (inherited (group_name g) = true
             \/ exists preset, presetName g = Some preset /\ inherited preset = true))
  /\ (forall e, result = inl e -> e = TypeError)
  /\ (forall maps, result = inr maps ->
        JSObject.get String.eqb (morphTargetMap maps) name
        = registered
            (flat_map
               (fun g =>
                  if String.eqb (group_name g) name then settingsOfGroup g else [])
               groups)
        /\ JSObject.get String.eqb (presetMorphTargetMap maps) name
           = registered
               (flat_map
                  (fun g =>
                     match presetName g with
                     | Some preset =>
                         if truthyString preset && String.eqb preset name
                         then settingsOfGroup g
                         else []
                     | None => []
                     end)
                  groups)).
Proof.
  intros result groups0 settingsOfBind0 settingsOfGroup0 registered0.
  subst result. rewrite constructMorphTargetMap_outcome.
  assert (Hnamed : forall g,
            namedAfterPrototype g = true
            <-> (inherited (group_name g) = true
                 \/ exists preset, presetName g = Some preset /\ inherited preset = true)).
  { intro g. unfold namedAfterPrototype. rewrite orb_true_iff.
    split; (intros [H|H]; [left; exact H | right]).
    - destruct (presetName g) as [preset|]; [|discriminate]. exists preset. auto.
    - destruct H as (preset & -> & H). exact H. }
  split; [|split].
  - destruct (existsb (fun r => namedAfterPrototype (fst r)) registrations)
      eqn:Hthrown.
    + split; [intros _ | intros _; exists TypeError; reflexivity].
      apply existsb_registrations in Hthrown. destruct Hthrown as (g & H1 & H2 & H3).
      exists g. split; [exact H1|]. split; [exact H2|]. apply Hnamed. exact H3.
    + split; [intros [e He]; discriminate|].
      intros (g & H1 & H2 & H3). exfalso.
      assert (Ht : existsb (fun r => namedAfterPrototype (fst r)) registrations = true).
      { apply existsb_registrations. exists g.
        split; [exact H1|]. split; [exact H2|]. apply Hnamed. exact H3. }
      congruence.
  - intros e He.
    destruct (existsb (fun r => namedAfterPrototype (fst r)) registrations);
      [injection He as <-; reflexivity | discriminate].
  - intros maps Hmaps.
    destruct (existsb (fun r => namedAfterPrototype (fst r)) registrations);
      [discriminate|].
    injection Hmaps as <-.
    destruct (registeredAll_settings (mkMorphMaps [] [] []) name) as [H1 H2].
    cbn [morphTargetMap presetMorphTargetMap JSObject.get] in H1, H2.
    assert (Hreg : forall l : list (MorphTargetSetting F),
              extended None l = registered0 l).
    { intros [|x l]; reflexivity. }
    rewrite Hreg in H1, H2. split; [exact H1|].
    rewrite H2. f_equal. apply flat_map_ext. intro g.
    destruct (presetName g); reflexivity.
Qed.

(** X23.  When the blend shape groups of a name are the groups of a
    preset name that is not empty, and the name and the preset name are
    both or neither names of members of [Object.prototype], then on the
    maps that [constructMorphTargetMap] fills [morphingPreset] with the
    preset name does what [morphing] with the name does. *)
Theorem preset_morphs_as_its_group (name preset : string) (value : F)
  (influence : nat -> F) (maps : MorphMaps F) :
  preset <> EmptyString ->
  (forall g,
     In g (match blendShapeMaster ext with
           | Some master => SpringBoneController.orEmpty (blendShapeGroups master)
           | None => []
           end) ->
     group_name g = name <-> presetName g = Some preset) ->
  inherited preset = inherited name ->
  constructMorphTargetMap ext meshCache meshState (mkMorphMaps [] [] []) = inr maps ->
  morphingPreset maps preset value influence = morphing maps name value influence.
Proof.
  intros Hpreset Hgroups Hinherited Hmaps.
  rewrite constructMorphTargetMap_outcome in Hmaps.
  destruct (existsb (fun r => namedAfterPrototype (fst r)) registrations);
    [discriminate|].
  injection Hmaps as <-.
  unfold morphingPreset, morphing, morphingIn.
  destruct (registeredAll_settings (mkMorphMaps [] [] []) name) as [Hname _].
  destruct (registeredAll_settings (mkMorphMaps [] [] []) preset) as [_ Hpre].
  rewrite Hname, Hpre, Hinherited.
  cbn [morphTargetMap presetMorphTargetMap JSObject.get].
  match goal with
  | |- match extended None ?a with _ => _ end
       = match extended None ?b with _ => _ end =>
      assert (Hsame : a = b); [|rewrite Hsame; reflexivity]
  end.
  rewrite !flat_map_concat_map. f_equal. apply map_ext_in. intros g Hin.
  specialize (Hgroups g Hin).
  destruct (presetName g) as [p|] eqn:Hp.
  - destruct (String.eqb (group_name g) name) eqn:E.
    + apply String.eqb_eq in E. apply Hgroups in E. injection E as ->.
      rewrite String.eqb_refl. unfold truthyString.
      destruct (String.eqb preset EmptyString) eqn:E0;
        [apply String.eqb_eq in E0; contradiction | reflexivity].
    + destruct (truthyString p && String.eqb p preset) eqn:E1; [|reflexivity].
      apply andb_true_iff in E1. destruct E1 as [_ E1].
      apply String.eqb_eq in E1. subst p.
      destruct Hgroups as [_ H]. rewrite (H eq_refl), String.eqb_refl in E.
      discriminate.
  - destruct (String.eqb (group_name g) name) eqn:E; [|reflexivity].
    apply String.eqb_eq in E. apply Hgroups in E. discriminate.
Qed.

End MorphMaps.

(** In the model of the examples the preset [joy] morphs as the group
    [smile]. *)
Lemma preset_morphs_as_its_group_witness :
  VRMManager.morphingPreset (modelMaps (F:=float)) "joy" 1%float (fun _ => 0%float)
  = VRMManager.morphing (modelMaps (F:=float)) "smile" 1%float (fun _ => 0%float).
Proof.
  apply (preset_morphs_as_its_group (F:=float) modelConfig
           [(JSString.Int 0, [11; 12]); (JSString.Int 1, [13])] modelMeshes
           "smile" "joy" 1%float (fun _ => 0%float) modelMaps).
  - discriminate.
  - intros g [<-|[]]. split; reflexivity.
  - reflexivity.
  - reflexivity.
Defined.

(** ** Skeletons *)

Section Skeletons.
Import JSString.
Import VRMManager.

(** The skeleton of the first mesh of a list. *)
Let firstSkeleton (meshState : nodeId -> MeshState) (meshes : list nodeId)
  : option nat :=
  match meshes with
  | first :: _ => skeleton (meshState first)
  | [] => None
  end.

Let skinned (meshState : nodeId -> MeshState) (meshes : list nodeId) : bool :=
  match firstSkeleton meshState meshes with
  | Some _ => true
  | None => false
  end.

Let disposedOf (meshState : nodeId -> MeshState) (meshes : list nodeId) : list nat :=
  match firstSkeleton meshState meshes with
  | Some s => [s]
  | None => []
  end.

Lemma setSkeleton_list (kept : nat) (l : list nodeId)
  (meshState : nodeId -> MeshState) (m : nodeId) :
  fold_left (fun state mesh => setSkeleton state mesh kept) l meshState m
  = if existsb (Nat.eqb m) l
    then mkMeshState (Some kept) (morphTargetManager (meshState m))
           (receiveShadows (meshState m))
    else meshState m.
Proof.
  revert meshState. induction l as [|a l IH]; intro meshState;
    cbn [fold_left existsb]; [reflexivity|].
  rewrite IH. unfold setSkeleton.
  destruct (Nat.eqb m a); cbn [orb morphTargetManager receiveShadows].
  - destruct (existsb (Nat.eqb m) l); reflexivity.
  - reflexivity.
Qed.

Lemma existsb_eqb_In (m : nodeId) (l : list nodeId) :
  existsb (Nat.eqb m) l = true <-> In m l.
Proof.
  rewrite existsb_exists. split.
  - intros (x & Hx & E). apply Nat.eqb_eq in E. subst. exact Hx.
  - intro H. exists m. split; [exact H | apply Nat.eqb_refl].
Qed.

Lemma NoDup_app_disjoint {A : Type} (l1 l2 : list A) (x : A) :
  NoDup (l1 ++ l2) -> In x l1 -> ~ In x l2.
Proof.
  induction l1 as [|a l1 IH]; cbn; [tauto|].
  intros Hnd [->|Hin] H2; inversion Hnd as [|? ? Hnot Hnd']; subst.
  - apply Hnot. apply in_or_app. right. exact H2.
  - exact (IH Hnd' Hin H2).
Qed.

Lemma NoDup_app_tail {A : Type} (l1 l2 : list A) :
  NoDup (l1 ++ l2) -> NoDup l2.
Proof.
  induction l1 as [|a l1 IH]; cbn; [tauto|].
  intro Hnd. inversion Hnd; subst. auto.
Qed.

(** The loop once a skeleton is kept. *)
Lemma removeDuplicateSkeletons_kept (meshCache : MeshCache)
  (rootMesh : option nodeId) (bones : nat -> list string) (kept : nat)
  (es : list (number * list nodeId)) :
  (forall k v, In (k, v) es -> JSObject.get number_eqb meshCache k = Some v) ->
  NoDup (List.concat (map snd es)) ->
  forall (meshState : nodeId -> MeshState) (disposed : list nat),
    let result :=
      removeDuplicateSkeletonsFrom meshCache rootMesh bones (map fst es)
        (Some kept) meshState disposed in
    let later := filter (skinned meshState) (map snd es) in
    fst result = None
    /\ snd (snd result) = disposed ++ flat_map (disposedOf meshState) later
    /\ forall mesh,
         fst (snd result) mesh
         = if existsb (existsb (Nat.eqb mesh)) later
           then mkMeshState (Some kept) (morphTargetManager (meshState mesh))
                  (receiveShadows (meshState mesh))
           else meshState mesh.
Proof.
  induction es as [|[k v] es IH]; intros Hget Hnd meshState disposed; cbv zeta.
  - cbn. rewrite app_nil_r. repeat split; reflexivity.
  - cbn [map fst snd removeDuplicateSkeletonsFrom].
    rewrite (Hget k v (or_introl eq_refl)).
    cbn [map snd List.concat] in Hnd.
    assert (Hget' : forall k v, In (k, v) es ->
                     JSObject.get number_eqb meshCache k = Some v).
    { intros k' v' H. apply Hget. right. exact H. }
    specialize (IH Hget' (NoDup_app_tail _ _ Hnd)). cbv zeta in IH.
    cbn [filter].
    destruct v as [|first others];
      [change (skinned meshState []) with false; apply IH|].
    change (skinned meshState (first :: others))
      with (match skeleton (meshState first) with
            | Some _ => true
            | None => false
            end).
    assert (Hd : forall s, skeleton (meshState first) = Some s ->
                   disposedOf meshState (first :: others) = [s]).
    { intros s Hs. unfold disposedOf, firstSkeleton. rewrite Hs. reflexivity. }
    destruct (skeleton (meshState first)) as [s|] eqn:Hs; [|apply IH].
    specialize (Hd s eq_refl).
    set (meshState1 :=
           fold_left (fun state mesh => setSkeleton state mesh kept)
             (first :: others) meshState).
    destruct (IH meshState1 (disposed ++ [s])) as (H1 & H2 & H3).
    assert (Hsame : forall mesh, ~ In mesh (first :: others) ->
                      meshState1 mesh = meshState mesh).
    { intros mesh Hnot. unfold meshState1. rewrite setSkeleton_list.
      destruct (existsb (Nat.eqb mesh) (first :: others)) eqn:E; [|reflexivity].
      apply existsb_eqb_In in E. contradiction. }
    assert (Hfirst : forall v', In v' (map snd es) ->
                       firstSkeleton meshState1 v' = firstSkeleton meshState v').
    { intros [|first' others'] Hin; [reflexivity|].
      unfold firstSkeleton. rewrite Hsame; [reflexivity|].
      intro Hin1. apply (NoDup_app_disjoint _ _ first' Hnd Hin1).
      apply in_concat. exists (first' :: others'). split; [exact Hin | left; reflexivity]. }
    assert (Hfilter : filter (skinned meshState1) (map snd es)
                      = filter (skinned meshState) (map snd es)).
    { apply filter_ext_in. intros v' Hin. unfold skinned. rewrite Hfirst; auto. }
    assert (Hflat : flat_map (disposedOf meshState1)
                      (filter (skinned meshState) (map snd es))
                    = flat_map (disposedOf meshState)
                        (filter (skinned meshState) (map snd es))).
    { rewrite !flat_map_concat_map. f_equal. apply map_ext_in.
      intros v' Hin. apply filter_In in Hin. destruct Hin as [Hin _].
      unfold disposedOf. rewrite Hfirst; auto. }
    rewrite Hfilter in H2, H3. rewrite Hflat in H2.
    split; [exact H1|]. split.
    + refine (eq_trans H2 _). cbn [flat_map]. rewrite Hd.
      rewrite <- app_assoc. reflexivity.
    + intro mesh. refine (eq_trans (H3 mesh) _).
      unfold meshState1. rewrite setSkeleton_list.
      set (here := existsb (Nat.eqb mesh) (first :: others)).
      set (after := existsb (existsb (Nat.eqb mesh))
                      (filter (skinned meshState) (map snd es))).
      change (existsb (existsb (Nat.eqb mesh))
                ((first :: others) :: filter (skinned meshState) (map snd es)))
        with (here || after).
      destruct here, after; reflexivity.
Qed.

(** The loop before a skeleton is kept. *)
Lemma removeDuplicateSkeletons_loop (meshCache : MeshCache)
  (rootMesh : option nodeId) (bones : nat -> list string)
  (meshState : nodeId -> MeshState) (disposed : list nat)
  (es : list (number * list nodeId)) :
  (forall k v, In (k, v) es -> JSObject.get number_eqb meshCache k = Some v) ->
  NoDup (List.concat (map snd es)) ->
  let result :=
    removeDuplicateSkeletonsFrom meshCache rootMesh bones (map fst es) None
      meshState disposed in
  match filter (skinned meshState) (map snd es) with
  | [] => result = (None, (meshState, disposed))
  | keptList :: later =>
      forall kept, firstSkeleton meshState keptList = Some kept ->
        if match rootMesh, bones kept with
           | Some _, [] => true
           | _, _ => false
           end
        then result = (Some TypeError, (meshState, disposed))
        else
          fst result = None
          /\ snd (snd result) = disposed ++ flat_map (disposedOf meshState) later
          /\ forall mesh,
               fst (snd result) mesh
               = if existsb (existsb (Nat.eqb mesh)) later
                 then mkMeshState (Some kept) (morphTargetManager (meshState mesh))
                        (receiveShadows (meshState mesh))
                 else meshState mesh
  end.
Proof.
  induction es as [|[k v] es IH]; intros Hget Hnd; cbv zeta; [reflexivity|].
  cbn [map fst snd removeDuplicateSkeletonsFrom].
  rewrite (Hget k v (or_introl eq_refl)).
  cbn [map snd List.concat] in Hnd.
  assert (Hget' : forall k v, In (k, v) es ->
                   JSObject.get number_eqb meshCache k = Some v).
  { intros k' v' H. apply Hget. right. exact H. }
  specialize (IH Hget' (NoDup_app_tail _ _ Hnd)). cbv zeta in IH.
  cbn [filter].
  destruct v as [|first others];
    [change (skinned meshState []) with false; apply IH|].
  change (skinned meshState (first :: others))
    with (match skeleton (meshState first) with
          | Some _ => true
          | None => false
          end).
  destruct (skeleton (meshState first)) as [s|] eqn:Hs; [|apply IH].
  intros kept Hkept. change (skeleton (meshState first) = Some kept) in Hkept.
  rewrite Hs in Hkept. injection Hkept as <-.
  pose proof (removeDuplicateSkeletons_kept meshCache rootMesh bones s es Hget'
                (NoDup_app_tail _ _ Hnd) meshState disposed) as Hk.
  cbv zeta in Hk.
  destruct rootMesh as [root|]; [destruct (bones s) as [|bone rest]|];
    [reflexivity | exact Hk | exact Hk].
Qed.

(** X24.  [removeDuplicateSkeletons], for a mesh cache that holds no mesh
    twice.  The lists of the cache are visited in the order of its keys;
    the skeleton of the first mesh of the first list that starts with a
    skinned mesh is kept.  For every later list that starts with a skinned
    mesh, the skeleton of its first mesh is disposed and all its meshes get
    the kept skeleton; every other mesh keeps its skeleton, the other meshes
    of the first list included.  With a [_rootMesh], a kept skeleton
    without bones is a TypeError, before anything changes. *)
Theorem removeDuplicateSkeletons_keeps_the_first (meshCache : MeshCache)
  (rootMesh : option nodeId) (bones : nat -> list string)
  (meshState : nodeId -> MeshState) (disposed : list nat) :
  NoDup (map fst meshCache) ->
  NoDup (List.concat (map snd (JSObject.entries numberArrayIndex meshCache))) ->
  let result := removeDuplicateSkeletons meshCache rootMesh bones meshState disposed in
  let firstSkeleton (meshes : list nodeId) :=
    match meshes with
    | first :: _ => skeleton (meshState first)
    | [] => None
    end in
  let skinned (meshes : list nodeId) :=
    match firstSkeleton meshes with
    | Some _ => true
    | None => false
    end in
  let disposedOf (meshes : list nodeId) :=
    match firstSkeleton meshes with
    | Some s => [s]
    | None => []
    end in
  match filter skinned (map snd (JSObject.entries numberArrayIndex meshCache)) with
  | [] => result = (None, (meshState, disposed))
  | keptList :: later =>
      forall kept, firstSkeleton keptList = Some kept ->
        if match rootMesh, bones kept with
           | Some _, [] => true
           | _, _ => false
           end
        then result = (Some TypeError, (meshState, disposed))
        else
          fst result = None
          /\ snd (snd result) = disposed ++ flat_map disposedOf later
          /\ forall mesh,
               fst (snd result) mesh
               = if existsb (existsb (Nat.eqb mesh)) later
                 then mkMeshState (Some kept) (morphTargetManager (meshState mesh))
                        (receiveShadows (meshState mesh))
                 else meshState mesh
  end.
Proof.
  intros Hkeys Hnd.
  apply (removeDuplicateSkeletons_loop meshCache rootMesh bones meshState disposed
           (JSObject.entries numberArrayIndex meshCache)); [|exact Hnd].
  intros k v Hin. apply (In_get _ _ number_eqb number_eqb_eq); [exact Hkeys|].
  apply (In_entries _ _ numberArrayIndex). exact Hin.
Qed.

End Skeletons.

(** In the model of the examples the skeleton 0 of the face is kept: the
    skeleton 1 of the body is disposed and the body gets the skeleton 0,
    while the second mesh of the face keeps the skeleton 1. *)
Lemma removeDuplicateSkeletons_keeps_the_first_witness :
  let result :=
    VRMManager.removeDuplicateSkeletons
      [(JSString.Int 0, [11; 12]); (JSString.Int 1, [13])] (Some 10)
      (fun _ => ["Root"%string]) modelMeshes [] in
  fst result = None
  /\ snd (snd result) = [1]
  /\ VRMManager.skeleton (fst (snd result) 13) = Some 0
  /\ VRMManager.skeleton (fst (snd result) 12) = Some 1.
Proof.
  assert (Hkeys : NoDup (map fst [(JSString.Int 0, [11; 12]); (JSString.Int 1, [13])])).
  { cbn. repeat constructor; cbn; intuition discriminate. }
  assert (Hnd : NoDup (List.concat (map snd
            (JSObject.entries numberArrayIndex
               [(JSString.Int 0, [11; 12]); (JSString.Int 1, [13])])))).
  { vm_compute. repeat constructor; cbn; intuition discriminate. }
  pose proof (removeDuplicateSkeletons_keeps_the_first
                [(JSString.Int 0, [11; 12]); (JSString.Int 1, [13])] (Some 10)
                (fun _ => ["Root"%string]) modelMeshes [] Hkeys Hnd) as H.
  cbv zeta in H. specialize (H 0 eq_refl).
  destruct H as (H1 & H2 & H3).
  cbv zeta. split; [exact H1|]. split; [exact H2|].
  rewrite (H3 13), (H3 12). split; reflexivity.
Defined.

(** ** The tree of the humanoid bones *)

Section Tree.
Import JSString.
Import VRMManager.
Context {F : Type} {N : JSNumber F}.
Variable transformNodeCache : TransformNodeCache.
Variable parentOf : nodeId -> option nodeId.
Variable rootMesh : option nodeId.

(** The item goes to the roots of [hierarchy]. *)
Let rootLike (item : TransformNodeTreeNode) : bool :=
  match JSObject.get number_eqb transformNodeCache (tree_parent item) with
  | Some parentNode =>
      negb (differentNodes (parentOf parentNode) rootMesh)
      || String.eqb (toLowerCase (tree_name item)) "hips"
  | None => false
  end.

Let childrenOf (k : number) (data : list TransformNodeTreeNode)
  : list TransformNodeTreeNode :=
  filter (fun item => number_eqb (tree_parent item) k && negb (rootLike item)) data.

Let hasId (k : number) (data : list TransformNodeTreeNode) : bool :=
  existsb (fun item => number_eqb (Int (tree_id item)) k) data.

Let nonEmpty {A : Type} (l : list A) : bool :=
  match l with
  | [] => false
  | _ => true
  end.

(** One round of the loop of [hierarchy]. *)
Let step (state : Exception + (list TransformNodeTreeNode * ChildOf))
  (item : TransformNodeTreeNode) :=
  match state with
  | inl e => inl e
  | inr (tree, childOf) =>
      let id := Int (tree_id item) in
      let parent := tree_parent item in
      let childOf :=
        JSObject.set number_eqb childOf id
          (SpringBoneController.orEmpty (JSObject.get number_eqb childOf id)) in
      match JSObject.get number_eqb transformNodeCache parent with
      | None => inl TypeError
      | Some parentNode =>
          if differentNodes (parentOf parentNode) rootMesh
             && negb (String.eqb (toLowerCase (tree_name item)) "hips")
          then
            inr (tree,
                 JSObject.set number_eqb childOf parent
                   (SpringBoneController.orEmpty
                      (JSObject.get number_eqb childOf parent) ++ [item]))
          else inr (tree ++ [item], childOf)
      end
  end.

Lemma hierarchy_snoc (data : list TransformNodeTreeNode) (x : TransformNodeTreeNode) :
  hierarchy transformNodeCache parentOf rootMesh (data ++ [x])
  = step (hierarchy transformNodeCache parentOf rootMesh data) x.
Proof. unfold hierarchy. rewrite fold_left_app. reflexivity. Qed.

Lemma nonEmpty_snoc {A : Type} (l : list A) (x : A) : nonEmpty (l ++ [x]) = true.
Proof. destruct l; reflexivity. Qed.

Lemma number_eqb_refl (k : number) : number_eqb k k = true.
Proof. apply number_eqb_eq. reflexivity. Qed.

(** [hierarchy] when the cache has a node for the parent of every item. *)
Lemma hierarchy_known (data : list TransformNodeTreeNode) :
  (forall item, In item data ->
     JSObject.get number_eqb transformNodeCache (tree_parent item) <> None) ->
  exists childOf,
    hierarchy transformNodeCache parentOf rootMesh data
    = inr (filter rootLike data, childOf)
    /\ forall k,
         JSObject.get number_eqb childOf k
         = if hasId k data || nonEmpty (childrenOf k data)
           then Some (childrenOf k data)
           else None.
Proof.
  induction data as [|x data IH] using rev_ind; intro Hknown.
  - exists []. split; reflexivity.
  - destruct IH as (childOf & Heq & Hget).
    { intros item Hin. apply Hknown. apply in_or_app. left. exact Hin. }
    assert (Hor : forall k,
              SpringBoneController.orEmpty (JSObject.get number_eqb childOf k)
              = childrenOf k data).
    { intro k. rewrite Hget. destruct (hasId k data); cbn [orb].
      - reflexivity.
      - destruct (childrenOf k data); reflexivity. }
    rewrite hierarchy_snoc, Heq. unfold step. cbv zeta.
    assert (Hx : JSObject.get number_eqb transformNodeCache (tree_parent x) <> None).
    { apply Hknown. apply in_or_app. right. left. reflexivity. }
    assert (Hroot : rootLike x
                    = match JSObject.get number_eqb transformNodeCache (tree_parent x) with
                      | Some parentNode =>
                          negb (differentNodes (parentOf parentNode) rootMesh
                                && negb (String.eqb (toLowerCase (tree_name x)) "hips"))
                      | None => false
                      end).
    { unfold rootLike. destruct (JSObject.get _ _ _); [|reflexivity].
      rewrite negb_andb, negb_involutive. reflexivity. }
    destruct (JSObject.get number_eqb transformNodeCache (tree_parent x))
      as [parentNode|]; [clear Hx | contradiction].
    assert (Hchildren : forall k,
              childrenOf k (data ++ [x])
              = childrenOf k data
                ++ (if number_eqb (tree_parent x) k && negb (rootLike x)
                    then [x] else [])).
    { intro k. unfold childrenOf. rewrite filter_app. cbn [filter].
      destruct (number_eqb (tree_parent x) k && negb (rootLike x)); reflexivity. }
    assert (Hid : forall k,
              hasId k (data ++ [x])
              = hasId k data || number_eqb (Int (tree_id x)) k).
    { intro k. unfold hasId. rewrite existsb_app. cbn [existsb].
      rewrite orb_false_r. reflexivity. }
    destruct (differentNodes (parentOf parentNode) rootMesh
              && negb (String.eqb (toLowerCase (tree_name x)) "hips")) eqn:Hcase;
      cbn [negb] in Hroot.
    + eexists. split.
      * rewrite filter_app. cbn [filter]. rewrite Hroot, app_nil_r. reflexivity.
      * intro k. rewrite !(get_set _ _ number_eqb number_eqb_eq).
        rewrite Hchildren, Hid, Hroot. cbn [negb]. rewrite andb_true_r.
        destruct (number_eqb (tree_parent x) k) eqn:Hp.
        -- apply number_eqb_eq in Hp. subst k.
           rewrite nonEmpty_snoc, orb_true_r.
           destruct (number_eqb (Int (tree_id x)) (tree_parent x)) eqn:Hi.
           ++ apply number_eqb_eq in Hi. rewrite <- Hi.
              cbn [SpringBoneController.orEmpty]. rewrite Hor. reflexivity.
           ++ rewrite Hor. reflexivity.
        -- rewrite app_nil_r.
           destruct (number_eqb (Int (tree_id x)) k) eqn:Hi.
           ++ apply number_eqb_eq in Hi. subst k. rewrite Hor, orb_true_r.
              reflexivity.
           ++ rewrite orb_false_r. apply Hget.
    + eexists. split.
      * rewrite filter_app. cbn [filter]. rewrite Hroot. reflexivity.
      * intro k. rewrite !(get_set _ _ number_eqb number_eqb_eq).
        rewrite Hchildren, Hid, Hroot. cbn [negb]. rewrite andb_false_r, app_nil_r.
        destruct (number_eqb (Int (tree_id x)) k) eqn:Hi.
        -- apply number_eqb_eq in Hi. subst k. rewrite Hor, orb_true_r.
           reflexivity.
        -- rewrite orb_false_r. apply Hget.
Qed.

(** [hierarchy] when the cache has no node for the parent of an item. *)
Lemma hierarchy_unknown (data : list TransformNodeTreeNode)
  (item : TransformNodeTreeNode) :
  In item data ->
  JSObject.get number_eqb transformNodeCache (tree_parent item) = None ->
  hierarchy transformNodeCache parentOf rootMesh data = inl TypeError.
Proof.
  intros Hin Hnone.
  assert (Hthrown : forall l, fold_left step l (inl TypeError) = inl TypeError).
  { induction l as [|a l IH]; [reflexivity | exact IH]. }
  assert (Hstate : forall l state,
            state = inl TypeError \/ (exists t c, state = inr (t, c)) ->
            fold_left step l state = inl TypeError
            \/ exists t c, fold_left step l state = inr (t, c)).
  { induction l as [|a l IH]; intros state Hs; [exact Hs|].
    cbn [fold_left]. apply IH.
    destruct Hs as [->|(t & c & ->)]; [left; reflexivity|].
    unfold step. cbv zeta.
    destruct (JSObject.get number_eqb transformNodeCache (tree_parent a));
      [|left; reflexivity].
    destruct (differentNodes _ _ && _); right; eexists; eexists; reflexivity. }
  apply in_split in Hin. destruct Hin as (l1 & l2 & ->).
  change (fold_left step (l1 ++ item :: l2) (inr ([], [])) = inl TypeError).
  rewrite fold_left_app. cbn [fold_left].
  destruct (Hstate l1 (inr ([], []))) as [H|(t & c & H)].
  { right. eexists. eexists. reflexivity. }
  - rewrite H. apply Hthrown.
  - rewrite H. unfold step at 2. cbv zeta. rewrite Hnone. apply Hthrown.
Qed.

(** X25.  [hierarchy(data)].  When the cache has no node at the parent
    index of some item, reading [parent] of [undefined] is a TypeError.
    Otherwise the roots are, in order, the items whose parent node has the
    root mesh as its parent or whose name is [hips] in lower case; every
    other item is a child of its parent index exactly once, in order; and
    [childOf] has an array, possibly empty, for the id of every item. *)
Theorem hierarchy_places_every_item (data : list TransformNodeTreeNode) :
  let result := hierarchy transformNodeCache parentOf rootMesh data in
  let isRoot (item : TransformNodeTreeNode) :=
    match JSObject.get number_eqb transformNodeCache (tree_parent item) with
    | Some parentNode =>
        negb (differentNodes (parentOf parentNode) rootMesh)
        || String.eqb (toLowerCase (tree_name item)) "hips"
    | None => false
    end in
  let children (k : number) :=
    filter (fun item => number_eqb (tree_parent item) k && negb (isRoot item)) data in
  ((exists item, In item data
      /\ JSObject.get number_eqb transformNodeCache (tree_parent item) = None) ->
   result = inl TypeError)
  /\ ((forall item, In item data ->
         JSObject.get number_eqb transformNodeCache (tree_parent item) <> None) ->
      exists childOf,
        result = inr (filter isRoot data, childOf)
        /\ forall k,
             JSObject.get number_eqb childOf k
             = if existsb (fun item => number_eqb (Int (tree_id item)) k) data
                  || match children k with [] => false | _ => true end
               then Some (children k)
               else None).
Proof.
  cbv zeta. split.
  - intros (item & Hin & Hnone). exact (hierarchy_unknown data item Hin Hnone).
  - intro Hknown. exact (hierarchy_known data Hknown).
Qed.

(** The first loop of [constructTransformNodeMap]. *)
Lemma constructTransformNodeMap_filled (l : list IVRMHumanoidBone)
  (map0 : HumanoidBone.TransformNodeMap) (items0 : list TransformNodeTreeNode) :
  fold_left
    (fun state b =>
       match findTransformNode transformNodeCache (Int (bone_node b)) with
       | None => state
       | Some node =>
           (JSObject.set String.eqb (fst state) (bone b) node,
            snd state
            ++ [mkTreeNode (bone_node b) (bone b)
                  (indexOfTransformNode transformNodeCache (parentOf node))])
       end) l (map0, items0)
  = (fold_left
       (fun map b =>
          match findTransformNode transformNodeCache (Int (bone_node b)) with
          | None => map
          | Some node => JSObject.set String.eqb map (bone b) node
          end) l map0,
     items0
     ++ flat_map
          (fun b =>
             match findTransformNode transformNodeCache (Int (bone_node b)) with
             | Some node =>
                 [mkTreeNode (bone_node b) (bone b)
                    (indexOfTransformNode transformNodeCache (parentOf node))]
             | None => []
             end) l).
Proof.
  revert map0 items0. induction l as [|b l IH]; intros map0 items0.
  - cbn. rewrite app_nil_r. reflexivity.
  - cbn [fold_left flat_map].
    destruct (findTransformNode transformNodeCache (Int (bone_node b))) as [node|].
    + rewrite IH. cbn [fst snd]. rewrite <- app_assoc. reflexivity.
    + apply IH.
Qed.

(** X26.  [constructTransformNodeMap] of the newer manager.  It fills the
    map of the bones as the older manager does.  Its tree has an item for
    every humanoid bone whose node is found, with the index of the parent
    of the node, -1 when the parent is not in the cache.  When the cache
    has no node at the parent index of some item a TypeError is thrown;
    otherwise the root of the tree is the first item that [hierarchy] makes
    a root, and without such an item, so when no bone is found, the error
    [Failed to construct bone hierarchy tree!] is thrown. *)
Theorem constructTransformNodeMap_outcome (ext : IVRM F)
  (map0 : HumanoidBone.TransformNodeMap) :
  let result :=
    constructTransformNodeMap ext transformNodeCache parentOf rootMesh map0 in
  let items :=
    flat_map
      (fun b =>
         match findTransformNode transformNodeCache (Int (bone_node b)) with
         | Some node =>
             [mkTreeNode (bone_node b) (bone b)
                (indexOfTransformNode transformNodeCache (parentOf node))]
         | None => []
         end) (humanBones ext) in
  let isRoot (item : TransformNodeTreeNode) :=
    match JSObject.get number_eqb transformNodeCache (tree_parent item) with
    | Some parentNode =>
        negb (differentNodes (parentOf parentNode) rootMesh)
        || String.eqb (toLowerCase (tree_name item)) "hips"
    | None => false
    end in
  fst result = fillTransformNodeMap ext transformNodeCache map0
  /\ ((exists item, In item items
         /\ JSObject.get number_eqb transformNodeCache (tree_parent item) = None) ->
      snd result = inl TypeError)
  /\ ((forall item, In item items ->
         JSObject.get number_eqb transformNodeCache (tree_parent item) <> None) ->
      match find isRoot items with
      | Some root => exists childOf, snd result = inr (root, childOf)
      | None => snd result = inl (Error "Failed to construct bone hierarchy tree!")
      end).
Proof.
  cbv zeta. unfold constructTransformNodeMap. cbv zeta.
  rewrite constructTransformNodeMap_filled. cbn [fst snd app].
  split; [reflexivity|]. split.
  - intros (item & Hin & Hnone).
    rewrite (hierarchy_unknown _ item Hin Hnone). reflexivity.
  - intro Hknown. destruct (hierarchy_known _ Hknown) as (childOf & Heq & _).
    rewrite Heq. fold rootLike.
    match goal with |- context [filter rootLike ?items] => generalize items end.
    intro items. induction items as [|a items IH]; [reflexivity|].
    cbn [filter find]. destruct (rootLike a); [|exact IH].
    exists childOf. reflexivity.
Qed.

End Tree.

(** ** The extension and the caches of its manager *)

Section Extension.
Import JSString.
Import VRMManager.

(** X27.  The extension notes the sizes of the scene when it is made; the
    loader then adds the meshes and transform nodes of the model, and
    [onReady] makes the manager.  When the scene had no mesh at first, the
    manager cannot be made: its mesh cache reads position -1, a TypeError.
    Otherwise the root mesh and the cached meshes of the manager are among
    the last mesh the scene had and the meshes added since, and the
    transform nodes it finds are among the nodes added since: what an
    earlier model left in the scene is never taken. *)
Theorem extension_scopes_the_manager (before after : BabylonScene)
  (loadedMeshes loadedNodes : list nodeId) :
  meshes after = (meshes before ++ loadedMeshes)%list ->
  transformNodes after = (transformNodes before ++ loadedNodes)%list ->
  let this := VRMLoaderExtension.constructor before in
  let caches := VRMLoaderExtension.onReady this after in
  (meshes before = [] -> fst caches = inl TypeError)
  /\ (forall earlier last,
        meshes before = (earlier ++ [last])%list ->
        exists cache rootMesh,
          fst caches = inr (cache, rootMesh)
          /\ (forall mesh, rootMesh = Some mesh -> In mesh (last :: loadedMeshes))
          /\ (forall meshIndex found mesh,
                findMeshes cache meshIndex = Some found ->
                In mesh found -> In mesh (last :: loadedMeshes)))
  /\ (forall nodeIndex node,
        findTransformNode (snd caches) nodeIndex = Some node ->
        In node loadedNodes).
Proof.
  intros Hmeshes Hnodes this caches. subst this caches.
  unfold VRMLoaderExtension.onReady, VRMLoaderExtension.constructor.
  cbn [fst snd VRMLoaderExtension.meshesFrom VRMLoaderExtension.transformNodesFrom].
  split; [|split].
  - intro Hnone. rewrite Hnone. cbn [List.length].
    unfold constructMeshCache, elementsFrom. cbn [Z.of_nat Z.sub Z.add Z.opp
      Z.to_nat Pos.to_nat Pos.iter_op Nat.add repeat app fold_left].
    apply constructMeshCache_failed.
  - intros earlier last Hbefore. rewrite Hbefore, List.length_app. cbn [List.length].
    replace (Z.of_nat (List.length earlier + 1) - 1)%Z with (Z.of_nat (List.length earlier))
      by lia.
    unfold constructMeshCache, elementsFrom.
    replace (Z.to_nat (- Z.of_nat (List.length earlier))) with O by lia.
    rewrite Nat2Z.id, Hmeshes, Hbefore. cbn [repeat app].
    rewrite <- !app_assoc, skipn_app, skipn_all, Nat.sub_diag. cbn [app skipn].
    destruct (constructMeshCache_loop after (last :: loadedMeshes) [] None)
      as (cache & Heq & Hget & _).
    eexists. eexists. split; [exact Heq|]. split.
    + intros mesh Hroot.
      destruct (find _ (rev (last :: loadedMeshes))) as [m|] eqn:Hfind;
        [|discriminate].
      injection Hroot as <-. apply find_some in Hfind.
      apply in_rev. exact (proj1 Hfind).
    + intros i found mesh Hfound Hin. unfold findMeshes in Hfound.
      rewrite Hget in Hfound. cbn [JSObject.get] in Hfound.
      destruct (filter _ (last :: loadedMeshes)) as [|x l] eqn:Hf; [discriminate|].
      cbn [SpringBoneController.orEmpty app] in Hfound. injection Hfound as <-.
      rewrite <- Hf in Hin. apply filter_In in Hin. exact (proj1 Hin).
  - intros i node Hfound. rewrite findTransformNode_constructed in Hfound.
    apply find_some in Hfound. destruct Hfound as [Hin _].
    apply in_rev in Hin. rewrite Nat2Z.id, Hnodes, skipn_app, skipn_all,
      Nat.sub_diag in Hin. exact Hin.
Qed.

End Extension.

(** The model of the examples, loaded into a scene that held the transform
    node 1 and the root mesh 10. *)
Lemma extension_scopes_the_manager_witness :
  let before :=
    VRMManager.mkBabylonScene [1] [10] (VRMManager.info modelScene) in
  let caches :=
    VRMLoaderExtension.onReady (VRMLoaderExtension.constructor before) modelScene in
  exists cache rootMesh,
    fst caches = inr (cache, rootMesh)
    /\ (forall mesh, rootMesh = Some mesh -> In mesh [10; 11; 12; 13])
    /\ (forall meshIndex found mesh,
          VRMManager.findMeshes cache meshIndex = Some found ->
          In mesh found -> In mesh [10; 11; 12; 13]).
Proof.
  intros before caches.
  exact (proj1 (proj2 (extension_scopes_the_manager before modelScene
                         [11; 12; 13] [2; 3; 4] eq_refl eq_refl))
           [] 10 eq_refl).
Defined.
